(** * mongoose-versioner: the version-consistency protocol

    A shallow embedding of the plugin (src/index.js, version 0.2) and of
    its forked variant with [upsertVersion] and [deleteOriginal]
    (src/unnamed/part_000, first module), over an in-memory model of the
    two collections the plugin drives through mongoose.

    Conventions of the embedding.
    - A JavaScript object is a finite map from property names to values.
    - An ObjectId object carries its identity (the generation of the
      object it was materialised with and the property holding it) next to
      its hexadecimal value, because the source compares ObjectIds both by
      [toString()] (value) and by [===] (identity).
    - A collection is a finite map from identifiers to stored documents;
      stored values have no identity.
    - The nested callbacks of the source are written in direct style: each
      store round trip returns a [reply], and [callback] records the
      arguments the caller's callback is invoked with.
    - Store failures are injected from a fault plan held in the world: each
      round trip consumes one entry.
    - Schema validation, mongoose's own [__v] bookkeeping and nested
      documents are outside the embedding. *)

From stdpp Require Import gmap strings list fin_maps infinite pretty.

Open Scope string_scope.
Open Scope list_scope.

(** ** JavaScript values *)

Definition oid := string.

Inductive value :=
  | VUndef
  | VNull
  | VBool (b : bool)
  | VNum (z : Z)
  | VStr (s : string)
  | VId (g : N) (k : string) (h : oid)
  | VMethod (name : string).

Global Instance value_eq_dec : EqDecision value.
Proof. solve_decision. Defined.

(** Values as the store keeps them. *)
Inductive sval :=
  | SNull
  | SBool (b : bool)
  | SNum (z : Z)
  | SStr (s : string)
  | SId (h : oid).

Global Instance sval_eq_dec : EqDecision sval.
Proof. solve_decision. Defined.

Abbreviation obj := (gmap string value).
Abbreviation sdoc := (gmap string sval).

(** [o[k]]: a missing property reads as [undefined]. *)
Definition get (o : obj) (k : string) : value := default VUndef (o !! k).

(** [a === b]. Two ObjectIds are strictly equal only when they are the
    same object. *)
Definition strict_eq (a b : value) : bool :=
  match a, b with
  | VUndef, VUndef => true
  | VNull, VNull => true
  | VBool x, VBool y => bool_decide (x = y)
  | VNum x, VNum y => bool_decide (x = y)
  | VStr x, VStr y => bool_decide (x = y)
  | VId g k _, VId g' k' _ => bool_decide (g = g' ∧ k = k')
  | VMethod f, VMethod f' => bool_decide (f = f')
  | _, _ => false
  end.

(** Truthiness, as tested by [!x], [x || y] and [if (x)]. *)
Definition truthy (v : value) : bool :=
  match v with
  | VUndef | VNull => false
  | VBool b => b
  | VNum z => bool_decide (z ≠ 0%Z)
  | VStr s => bool_decide (s ≠ "")
  | VId _ _ _ | VMethod _ => true
  end.

(** [v.toString()]; [None] where the call faults ([undefined], [null]). *)
Definition js_toString (v : value) : option string :=
  match v with
  | VUndef | VNull => None
  | VBool true => Some "true"
  | VBool false => Some "false"
  | VNum z => Some (pretty z)
  | VStr s => Some s
  | VId _ _ h => Some h
  | VMethod name => Some ("function " +:+ name)
  end.

(** String concatenation ['...' + v]. *)
Definition js_concat (v : value) : string :=
  match v with
  | VUndef => "undefined"
  | VNull => "null"
  | _ => default "" (js_toString v)
  end.

(** The identifier a value denotes where mongoose casts it to ObjectId. *)
Definition cast_oid (v : value) : option oid :=
  match v with
  | VId _ _ h => Some h
  | VStr s => Some s
  | _ => None
  end.

(** ** Schemas *)

Inductive ftype := TObjectId | TOther.

Global Instance ftype_eq_dec : EqDecision ftype.
Proof. solve_decision. Defined.

(** The options of a declared path: its type and its default. *)
Record field := Field { ftyp : ftype; fdefault : option sval }.

Global Instance field_eq_dec : EqDecision field.
Proof. solve_decision. Defined.

Abbreviation schema := (gmap string field).

(** [{type: Schema.ObjectId}] *)
Definition oid_field : field := Field TObjectId None.

(** What a path of type [t] stores for an in-memory value. *)
Definition persist_as (t : ftype) (v : value) : option sval :=
  match v with
  | VUndef | VMethod _ => None
  | VNull => Some SNull
  | VId _ _ h => Some (SId h)
  | VStr s => Some (match t with TObjectId => SId s | TOther => SStr s end)
  | VBool b => match t with TObjectId => None | TOther => Some (SBool b) end
  | VNum z => match t with TObjectId => None | TOther => Some (SNum z) end
  end.

(** A stored value materialised as property [k] of the object of
    generation [g]. *)
Definition of_sval (g : N) (k : string) (s : sval) : value :=
  match s with
  | SNull => VNull
  | SBool b => VBool b
  | SNum z => VNum z
  | SStr x => VStr x
  | SId h => VId g k h
  end.

Definition type_of (sch : schema) (k : string) : ftype :=
  match sch !! k with Some f => ftyp f | None => TOther end.

(** The stored form of the fields of an in-memory document. *)
Definition persist (sch : schema) (o : obj) : sdoc :=
  map_imap (λ k v, persist_as (type_of sch k) v) o.

(** The declared paths of a plain object (strict mode drops the rest). *)
Definition declared (sch : schema) (o : obj) : obj :=
  filter (λ kv, is_Some (sch !! kv.1)) o.

Definition undeclared (sch : schema) (o : obj) : obj :=
  filter (λ kv, sch !! kv.1 = None) o.

(** A stored document loaded as the object of generation [g]. *)
Definition load (g : N) (d : sdoc) : obj :=
  map_imap (λ k s, Some (of_sval g k s)) d.

(** [doc.toObject()]: a plain clone of the fields. *)
Definition plain (sch : schema) (g : N) (o : obj) : obj :=
  load g (persist sch o).

(** ** The world: two collections and what the caller observes *)

Inductive coll := Primary | Shadow.

Inductive exn :=
  | JsError (msg : string)
  | TypeError (msg : string)
  | ReferenceError (msg : string).

(** A compiled model: its collection and its schema. *)
Record model := Model { mcoll : coll; msch : schema }.

(** A model instance in memory: its model, where it was loaded from
    ([None] for a document not yet inserted), its fields (declared paths go
    through accessors into these) and the own properties assigned to the
    object under other names. *)
Record mdoc := MDoc {
  mmodel : model;
  origin : option oid;
  props : obj;
  own : obj
}.

(** [doc[k]] *)
Definition mget (d : mdoc) (k : string) : value :=
  if bool_decide (is_Some (msch (mmodel d) !! k))
  then get (props d) k else get (own d) k.

(** [doc[k] = v] *)
Definition mset (d : mdoc) (k : string) (v : value) : mdoc :=
  if bool_decide (is_Some (msch (mmodel d) !! k))
  then MDoc (mmodel d) (origin d) (<[k := v]> (props d)) (own d)
  else MDoc (mmodel d) (origin d) (props d) (<[k := v]> (own d)).

(** [for (var key in src) doc[key] = src[key]] *)
Definition assign_all (src : obj) (d : mdoc) : mdoc :=
  MDoc (mmodel d) (origin d)
       (declared (msch (mmodel d)) src ∪ props d)
       (undeclared (msch (mmodel d)) src ∪ own d).

(** What a callback can be handed. *)
Inductive cbarg :=
  | AUndef
  | ANull
  | AError (msg : string)
  | AStr (s : string)
  | AStatus (success : bool)
  | ADoc (d : mdoc).

Inductive event :=
  | Find (c : coll)
  | Write (c : coll) (i : oid)
  | Remove (c : coll) (i : oid)
  | Modify (c : coll)
  | RemoveAll (c : coll).

Record world := World {
  primary : gmap oid sdoc;
  shadow : gmap oid sdoc;
  issued : gset oid;
  gen : N;
  faults : list (option string);
  trips : list event;
  calls : list (cbarg * cbarg)
}.

Definition store (c : coll) (w : world) : gmap oid sdoc :=
  match c with Primary => primary w | Shadow => shadow w end.

Definition set_store (c : coll) (m : gmap oid sdoc) (w : world) : world :=
  match c with
  | Primary => World m (shadow w) (issued w) (gen w) (faults w) (trips w) (calls w)
  | Shadow => World (primary w) m (issued w) (gen w) (faults w) (trips w) (calls w)
  end.

(** ** Computations *)

Inductive res (A : Type) :=
  | Done (a : A)
  | Threw (e : exn).
Arguments Done {A} a.
Arguments Threw {A} e.

Definition M (A : Type) : Type := world → res A * world.

Definition ret {A} (a : A) : M A := λ w, (Done a, w).

Definition throw {A} (e : exn) : M A := λ w, (Threw e, w).

Definition bind {A B} (m : M A) (k : A → M B) : M B :=
  λ w, match m w with
       | (Done a, w') => k a w'
       | (Threw e, w') => (Threw e, w')
       end.

Notation "'let!' x ':=' m 'in' k" := (bind m (λ x, k))
  (at level 10, x name, m at level 100, k at level 200).
Notation "m ';;' k" := (bind m (λ _, k))
  (at level 100, k at level 200, right associativity).

(** The reply of a store round trip: [err] or the result. *)
Inductive reply (A : Type) :=
  | Fail (e : string)
  | Ok (a : A).
Arguments Fail {A} e.
Arguments Ok {A} a.

(** The world after [callback(err, result)]. *)
Definition called (err result : cbarg) (w : world) : world :=
  World (primary w) (shadow w) (issued w) (gen w) (faults w) (trips w)
        (calls w ++ [(err, result)]).

(** The world after an object has been materialised. *)
Definition bumped (w : world) : world :=
  World (primary w) (shadow w) (issued w) (N.succ (gen w)) (faults w)
        (trips w) (calls w).

(** The world after identifier [i] has been issued. *)
Definition issuing (i : oid) (w : world) : world :=
  World (primary w) (shadow w) ({[i]} ∪ issued w) (gen w) (faults w)
        (trips w) (calls w).

(** The world after a round trip to the store. *)
Definition ticked (e : event) (w : world) : world :=
  World (primary w) (shadow w) (issued w) (gen w) (tail (faults w))
        (trips w ++ [e]) (calls w).

(** [callback(err, result)] *)
Definition callback (err result : cbarg) : M unit :=
  λ w, (Done tt, called err result w).

(** A new object generation. *)
Definition alloc : M N := λ w, (Done (gen w), bumped w).

(** A new ObjectId: never issued before and in use in neither collection. *)
Definition next_oid (w : world) : oid :=
  fresh (issued w ∪ dom (primary w) ∪ dom (shadow w)).

Definition new_oid : M oid := λ w, (Done (next_oid w), issuing (next_oid w) w).

(** One round trip to the store: logs it and reports the planned fault. *)
Definition trip (e : event) : M (option string) :=
  λ w, (Done (match faults w with f :: _ => f | [] => None end), ticked e w).

Definition read (c : coll) : M (gmap oid sdoc) := λ w, (Done (store c w), w).

Definition write (c : coll) (m : gmap oid sdoc) : M unit :=
  λ w, (Done tt, set_store c m w).

(** A method of the document prototype can be called unless an own
    property of that name shadows it with something else. *)
Definition callable (o : obj) (name : string) : bool :=
  match o !! name with
  | None => true
  | Some (VMethod f) => bool_decide (f = name)
  | Some _ => false
  end.

Definition method (o : obj) (name : string) : M unit :=
  if callable o name then ret tt
  else throw (TypeError (name +:+ " is not a function")).

(** ** mongoose, as far as the plugin uses it *)

(** The stored document under identifier [i], with its [_id]. *)
Definition the_doc (i : oid) (d : sdoc) : sdoc := <["_id" := SId i]> d.

(** A document found in the store, as an instance of model [m]. *)
Definition found (m : model) (g : N) (i : oid) (d : sdoc) : mdoc :=
  MDoc m (Some i) (load g (the_doc i d)) ∅.

(** [new Model(data)]: the declared paths of [data], the defaults of the
    others, and a new [_id] unless [data] brings one. *)
Definition new_doc (m : model) (data : obj) : M mdoc :=
  let! g := alloc in
  let! i := new_oid in
  let defaults : obj := map_imap (λ k f, of_sval g k <$> fdefault f) (msch m) in
  let supplied : obj :=
    filter (λ kv, is_Some (msch m !! kv.1) ∧ kv.2 ≠ VUndef) data in
  ret (MDoc m None (supplied ∪ <["_id" := VId g "_id" i]> defaults) ∅).

(** A query condition cast for path type [t]; [None] is a cast error. *)
Definition query_val (t : ftype) (v : value) : option sval :=
  match v with
  | VUndef => Some SNull
  | _ => persist_as t v
  end.

Definition match_field (sch : schema) (d : sdoc) (k : string) (v : value)
  : bool :=
  match query_val (type_of sch k) v with
  | Some SNull => bool_decide (d !! k = None ∨ d !! k = Some SNull)
  | Some s => bool_decide (d !! k = Some s)
  | None => false
  end.

Definition castable (sch : schema) (q : obj) : bool :=
  bool_decide (map_Forall (λ k v, is_Some (query_val (type_of sch k) v)) q).

Definition matches (sch : schema) (q : obj) (d : sdoc) : bool :=
  bool_decide (map_Forall (λ k v, match_field sch d k v = true) q).

(** The documents of a collection a query selects, in store order. *)
Definition select (sch : schema) (q : obj) (c : gmap oid sdoc)
  : list (oid * sdoc) :=
  filter (λ p, matches sch q (the_doc p.1 p.2) = true) (map_to_list c).

(** [Model.findById(id, cb)] *)
Definition findById (m : model) (id : value) : M (reply (option mdoc)) :=
  match query_val TObjectId id with
  | None => ret (Fail "CastError")
  | Some s =>
      let! f := trip (Find (mcoll m)) in
      match f with
      | Some e => ret (Fail e)
      | None =>
          let! c := read (mcoll m) in
          match s with
          | SId h =>
              match c !! h with
              | Some d => let! g := alloc in ret (Ok (Some (found m g h d)))
              | None => ret (Ok None)
              end
          | _ => ret (Ok None)
          end
      end
  end.

(** [Model.findOne(filter, cb)] *)
Definition findOne (m : model) (q : obj) : M (reply (option mdoc)) :=
  if castable (msch m) q then
    let! f := trip (Find (mcoll m)) in
    match f with
    | Some e => ret (Fail e)
    | None =>
        let! c := read (mcoll m) in
        match select (msch m) q c with
        | (i, d) :: _ => let! g := alloc in ret (Ok (Some (found m g i d)))
        | [] => ret (Ok None)
        end
    end
  else ret (Fail "CastError").

(** [Model.find(filter, cb)] *)
Definition find (m : model) (q : obj) : M (reply (list mdoc)) :=
  if castable (msch m) q then
    let! f := trip (Find (mcoll m)) in
    match f with
    | Some e => ret (Fail e)
    | None =>
        let! c := read (mcoll m) in
        let! g := alloc in
        ret (Ok ((λ p, found m g p.1 p.2) <$> select (msch m) q c))
    end
  else ret (Fail "CastError").

(** [doc.save(cb)] *)
Definition save (d : mdoc) : M (reply mdoc) :=
  method (own d) "save";;
  match cast_oid (get (props d) "_id") with
  | None => ret (Fail "document must have an _id before saving")
  | Some i =>
      let! f := trip (Write (mcoll (mmodel d)) i) in
      match f with
      | Some e => ret (Fail e)
      | None =>
          let! c := read (mcoll (mmodel d)) in
          let stored := persist (msch (mmodel d)) (props d) in
          let saved := MDoc (mmodel d) (Some i) (props d) (own d) in
          match origin d with
          | None =>
              if bool_decide (is_Some (c !! i))
              then ret (Fail "E11000 duplicate key error")
              else write (mcoll (mmodel d)) (<[i := stored]> c);;
                   ret (Ok saved)
          | Some j =>
              if bool_decide (i = j)
              then write (mcoll (mmodel d)) (<[i := stored]> c);;
                   ret (Ok saved)
              else ret (Fail "Mod on _id not allowed")
          end
      end
  end.

(** [doc.remove(cb)] *)
Definition remove (d : mdoc) : M (reply unit) :=
  method (own d) "remove";;
  match cast_oid (get (props d) "_id") with
  | None => ret (Fail "CastError")
  | Some i =>
      let! f := trip (Remove (mcoll (mmodel d)) i) in
      match f with
      | Some e => ret (Fail e)
      | None =>
          let! c := read (mcoll (mmodel d)) in
          write (mcoll (mmodel d)) (delete i c);;
          ret (Ok tt)
      end
  end.

(** [Model.findOneAndUpdate(query, update, cb)] with a plain [update]:
    the first selected document takes the declared paths of [update] other
    than [_id] and is handed back; [null] when the query selects none. *)
Definition findOneAndUpdate (m : model) (q upd : obj)
  : M (reply (option mdoc)) :=
  if castable (msch m) q then
    let! f := trip (Modify (mcoll m)) in
    match f with
    | Some e => ret (Fail e)
    | None =>
        let! c := read (mcoll m) in
        match select (msch m) q c with
        | (i, d) :: _ =>
            let d' :=
              delete "_id" (persist (msch m) (declared (msch m) upd))
              ∪ the_doc i d in
            write (mcoll m) (<[i := d']> c);;
            let! g := alloc in
            ret (Ok (Some (found m g i d')))
        | [] => ret (Ok None)
        end
    end
  else ret (Fail "CastError").

(** [Model.findOneAndUpdate(query, {$setOnInsert: doc}, {upsert: true,
    new: false}, cb)]: a selected document is handed back as it is; when
    the query selects none, [doc] is inserted and the result is [null]. *)
Definition findOneAndUpsert (m : model) (q ins : obj)
  : M (reply (option mdoc)) :=
  if castable (msch m) q then
    let! f := trip (Modify (mcoll m)) in
    match f with
    | Some e => ret (Fail e)
    | None =>
        let! c := read (mcoll m) in
        match select (msch m) q c with
        | (i, d) :: _ => let! g := alloc in ret (Ok (Some (found m g i d)))
        | [] =>
            let d := persist (msch m) (declared (msch m) ins)
                     ∪ persist (msch m) (declared (msch m) q) in
            let! i := match d !! "_id" with
                      | Some (SId i) => ret i
                      | _ => new_oid
                      end in
            if bool_decide (is_Some (c !! i))
            then ret (Fail "E11000 duplicate key error")
            else write (mcoll m) (<[i := the_doc i d]> c);; ret (Ok None)
        end
    end
  else ret (Fail "CastError").

(** [Model.remove(filter, cb)] *)
Definition removeWhere (m : model) (q : obj) : M (reply unit) :=
  if castable (msch m) q then
    let! f := trip (RemoveAll (mcoll m)) in
    match f with
    | Some e => ret (Fail e)
    | None =>
        let! c := read (mcoll m) in
        write (mcoll m)
              (filter (λ p, matches (msch m) q (the_doc p.1 p.2) = false) c);;
        ret (Ok tt)
    end
  else ret (Fail "CastError").

Definition toString (v : value) : M string :=
  match js_toString v with
  | Some s => ret s
  | None => throw (TypeError "Cannot call method 'toString' of undefined")
  end.

(** [doc.toObject()] on a model instance. *)
Definition toObject (d : mdoc) : M obj :=
  method (own d) "toObject";;
  let! g := alloc in
  ret (plain (msch (mmodel d)) g (props d)).

Definition is_method (v : value) : bool :=
  match v with VMethod _ => true | _ => false end.

(** ** What the plugin is configured with *)

Record options := Options {
  o_mongoose : bool;
  o_versionIdPath : option string;
  o_versionOfIdPath : option string;
  o_append_only : bool;
  o_delete_flag : option string
}.

(** [options.name || dflt] *)
Definition or_default (o : option string) (dflt : string) : string :=
  match o with
  | Some s => if bool_decide (s = "") then dflt else s
  | None => dflt
  end.

(** What the static methods close over once the plugin has run and both
    models are compiled. *)
Record env := Env {
  versionIdPath : string;
  versionOfIdPath : string;
  versionKey : option string;
  append_only : bool;
  deleteFlag : option string;
  psch : schema;
  ssch : schema
}.

(** [mongoose.model(modelName)] and the shadow model. *)
Definition primaryModel (E : env) : model := Model Primary (psch E).
Definition shadowModel (E : env) : model := Model Shadow (ssch E).

(** A compiled model schema: mongoose supplies [_id] and the version key
    where the declared paths lack them. *)
Definition compile (vkey : option string) (s : schema) : schema :=
  match vkey with
  | Some k => s ∪ {["_id" := oid_field]} ∪ {[k := Field TOther None]}
  | None => s ∪ {["_id" := oid_field]}
  end.

(** The argument of [saveVersion]. *)
Record dataObj := DataObj {
  data : obj;
  versionId : value;
  versionOfId : value
}.

(** The keys the promoting copy moves: every key of the version's plain
    object but the identifier, the back-reference and the one in [skip]. *)
Definition copied (E : env) (skip : option string) (versDocObj : obj) : obj :=
  filter (λ kv, kv.1 ≠ "_id" ∧ kv.1 ≠ versionOfIdPath E ∧ Some kv.1 ≠ skip)
         versDocObj.

(** What [findVersions] hands its callback: [{activeId, docs}]. *)
Record versions := Versions { activeId : value; docs : list mdoc }.

(** * src/index.js *)
Module Index.

(** The plugin body up to [schema.add(fields)] (lines 78-112): the primary
    paths after the addition and the shadow fields, or the error thrown. *)
Definition plugin (o : options) (paths : schema) : res (schema * schema) :=
  if negb (o_mongoose o) then
    Threw (JsError "mongoose-versioner requires mongoose to be passed in as an options reference.")
  else
    let versionIdPath := or_default (o_versionIdPath o) "versionId" in
    let versionOfIdPath := or_default (o_versionOfIdPath o) "versionOfId" in
    let shadowFields : schema := filter (λ kv, kv.1 ≠ "_id") paths in
    if bool_decide (is_Some (shadowFields !! versionOfIdPath)) then
      Threw (JsError ("options.versionOfIdPath [" +:+ versionOfIdPath
                      +:+ "] must not be declared in the schema"))
    else
      let shadowFields := <[versionOfIdPath := oid_field]> shadowFields in
      if bool_decide (is_Some (paths !! versionIdPath)) then
        Threw (JsError ("options.versionIdPath [" +:+ versionIdPath
                        +:+ "] must be declared in the schema by mongoose-versioner"))
      else
        Done (<[versionIdPath := oid_field]> paths, shadowFields).

(** The plugin applied and both models compiled. *)
Definition setup (o : options) (vkey : option string) (paths : schema)
  : res env :=
  match plugin o paths with
  | Threw e => Threw e
  | Done (p, s) =>
      Done (Env (or_default (o_versionIdPath o) "versionId")
                (or_default (o_versionOfIdPath o) "versionOfId")
                vkey false None (compile vkey p) (compile vkey s))
  end.

(** [data.toObject()] on the caller's object: a model instance answers
    with its fields; anything else in that property cannot be called. *)
Definition call_toObject (data : obj) : M obj :=
  match get data "toObject" with
  | VMethod _ => ret (filter (λ kv, is_method kv.2 = false) data)
  | _ => throw (TypeError "data.toObject is not a function")
  end.

(** Lines 283-286: the guard compares the string with the property itself. *)
Definition snapshot (data : obj) : M obj :=
  if strict_eq (VStr "function") (get data "toObject")
  then call_toObject data
  else ret data.

(** [saveVersion], lines 277-299: the Version Record built and saved. *)
Definition saveSnapshot (E : env) (d : dataObj) : M (reply mdoc) :=
  let! r := findById (shadowModel E) (versionId d) in
  match r with
  | Fail err => ret (Fail err)
  | Ok found =>
      let! data := snapshot (data d) in
      let! versDoc :=
        match found with
        | None => new_doc (shadowModel E) data
        | Some versDoc => ret (assign_all data versDoc)
        end in
      let versDoc :=
        mset versDoc "versionOfId"
             (if truthy (versionOfId d) then versionOfId d else VNull) in
      save versDoc
  end.

(** [saveVersion], lines 319-344: steps 4, 4a, 4b and 5, on the saved
    Version Record and the Active Document resolved or created for it. *)
Definition promote (E : env) (versSaved original : mdoc) : M unit :=
  let! a := toString (mget original (versionIdPath E)) in
  let! b := toString (mget versSaved "_id") in
  if bool_decide (a ≠ b) then callback ANull (ADoc versSaved)
  else
    let! versDocObj := toObject versSaved in
    let original := assign_all (copied E None versDocObj) original in
    let! r := save original in
    match r with
    | Fail err => callback (AError err) AUndef
    | Ok originalSaved =>
        if strict_eq (get versDocObj (versionOfIdPath E))
                     (mget originalSaved "_id")
        then callback ANull AUndef
        else
          let versSaved :=
            mset versSaved (versionOfIdPath E) (mget originalSaved "_id") in
          let! r := save versSaved in
          match r with
          | Fail err => callback (AError err) AUndef
          | Ok versSavedAgain => callback ANull (ADoc versSavedAgain)
          end
    end.

(** [saveVersion], lines 299-346: the callback of [versDoc.save]. *)
Definition onVersionSaved (E : env) (d : dataObj) (r : reply mdoc) : M unit :=
  match r with
  | Fail err => callback (AError err) AUndef
  | Ok versSaved =>
      let! versDocObj := toObject versSaved in
      let! r := findById (primaryModel E) (versionOfId d) in
      match r with
      | Fail err => callback (AError err) AUndef
      | Ok found =>
          let! original :=
            match found with
            | Some original => ret original
            | None =>
                let! original := new_doc (primaryModel E) ∅ in
                ret (mset original (versionIdPath E) (mget versSaved "_id"))
            end in
          promote E versSaved original
      end
  end.

Definition saveVersion (E : env) (d : dataObj) : M unit :=
  let! r := saveSnapshot E d in
  onVersionSaved E d r.

Definition saveNewVersionOf (E : env) (versionOfId : value) (data : obj)
  : M unit :=
  saveVersion E (DataObj data VNull versionOfId).

Definition deleteVersion (E : env) (id : value) : M unit :=
  let! r := findOne (primaryModel E) {[versionIdPath E := id]} in
  match r with
  | Fail err => callback (AError err) AUndef
  | Ok (Some _) => callback ANull (AStatus false)
  | Ok None =>
      let! r := findById (shadowModel E) id in
      match r with
      | Fail err => callback (AError err) AUndef
      | Ok None => callback ANull (AStatus false)
      | Ok (Some version) =>
          let! r := remove version in
          match r with
          | Fail err => callback (AError err) AUndef
          | Ok _ => callback ANull (AStatus true)
          end
      end
  end.

Definition activateVersion (E : env) (id : value) : M unit :=
  let! r := findById (shadowModel E) id in
  match r with
  | Fail err => callback (AError err) AUndef
  | Ok None => callback (AStatus false) AUndef
  | Ok (Some result) =>
      let! r := findById (primaryModel E) (mget result (versionOfIdPath E)) in
      match r with
      | Fail err => callback (AError err) AUndef
      | Ok None => callback (AStatus false) AUndef
      | Ok (Some active) =>
          let! versDocObj := toObject result in
          let active := assign_all (copied E None versDocObj) active in
          let active := mset active (versionIdPath E) id in
          let! r := save active in
          match r with
          | Fail err => callback (AError err) AUndef
          | Ok activeSaved => callback ANull (ADoc activeSaved)
          end
      end
  end.

(** The query methods hand their callback what the store replies; they
    are written with that reply as their value, and called without a
    projection ([fields] and [options] are [null]). *)

(** The instance method [findVersions], lines 139-148. *)
Definition instanceFindVersions (E : env) (this : mdoc)
  : M (reply (list mdoc)) :=
  find (shadowModel E) {[versionOfIdPath E := mget this "_id"]}.

(** [findVersionById], lines 166-170. *)
Definition findVersionById (E : env) (id : value) : M (reply (option mdoc)) :=
  findById (shadowModel E) id.

(** The static [findVersions], lines 185-218. *)
Definition findVersions (E : env) (id : value) : M (reply versions) :=
  let! r := findById (primaryModel E) id in
  match r with
  | Fail err => ret (Fail err)
  | Ok None => ret (Ok (Versions VNull []))
  | Ok (Some activeDoc) =>
      let activeId := mget activeDoc (versionIdPath E) in
      let! r := find (shadowModel E)
                  {[versionOfIdPath E := mget activeDoc "_id"]} in
      match r with
      | Fail err => ret (Fail err)
      | Ok result => ret (Ok (Versions activeId result))
      end
  end.

End Index.

(** * src/unnamed/part_000, first module: the variant with
      [upsertVersion] and [deleteOriginal] *)
Module Fork.

(** The plugin body (lines 38-80). Without the mongoose reference it logs
    and returns, installing nothing ([None]); it has no [throw]. *)
Definition plugin (o : options) (paths : schema) : option (schema * schema) :=
  if negb (o_mongoose o) then None
  else
    let versionIdPath := or_default (o_versionIdPath o) "versionId" in
    let versionOfIdPath := or_default (o_versionOfIdPath o) "versionOfId" in
    let deleteFlag := or_default (o_delete_flag o) "" in
    let shadowFields : schema := filter (λ kv, kv.1 ≠ "_id") paths in
    let shadowFields :=
      if bool_decide (is_Some (shadowFields !! versionOfIdPath))
      then shadowFields
      else <[versionOfIdPath := oid_field]> shadowFields in
    let shadowFields :=
      if bool_decide (deleteFlag ≠ "")
         && negb (bool_decide (is_Some (shadowFields !! deleteFlag)))
      then <[deleteFlag := Field TOther None]> shadowFields
      else shadowFields in
    let fields : schema :=
      if bool_decide (is_Some (paths !! versionIdPath)) then ∅
      else {[versionIdPath := oid_field]} in
    Some (fields ∪ paths, shadowFields).

Definition setup (o : options) (vkey : option string) (paths : schema)
  : option env :=
  match plugin o paths with
  | None => None
  | Some (p, s) =>
      Some (Env (or_default (o_versionIdPath o) "versionId")
                (or_default (o_versionOfIdPath o) "versionOfId")
                vkey (o_append_only o)
                (match o_delete_flag o with
                 | Some f => if bool_decide (f = "") then None else Some f
                 | None => None
                 end)
                (compile vkey p) (compile vkey s))
  end.

(** [saveVersion], lines 182-198: the Version Record built and saved. *)
Definition saveSnapshot (E : env) (d : dataObj) : M (reply mdoc) :=
  let! r := findById (shadowModel E) (versionId d) in
  match r with
  | Fail err => ret (Fail err)
  | Ok found =>
      let! versDoc :=
        match found with
        | None => new_doc (shadowModel E) (data d)
        | Some versDoc => ret (assign_all (data d) versDoc)
        end in
      let versDoc :=
        mset versDoc "versionOfId"
             (if truthy (versionOfId d) then versionOfId d else VNull) in
      save versDoc
  end.

(** [saveVersion], lines 214-239: steps 4, 4a, 4b and 5, on the saved
    Version Record and the Active Document resolved or created for it. *)
Definition promote (E : env) (versSaved original : mdoc) : M unit :=
  let! a := toString (mget original (versionIdPath E)) in
  let! b := toString (mget versSaved "_id") in
  if bool_decide (a = b) then
    let! versDocObj := toObject versSaved in
    let original :=
      assign_all (copied E (versionKey E) versDocObj) original in
    let! r := save original in
    match r with
    | Fail err => callback (AError err) AUndef
    | Ok originalSaved =>
        if negb (strict_eq (get versDocObj (versionOfIdPath E))
                           (mget originalSaved "_id"))
        then
          let versSaved :=
            mset versSaved (versionOfIdPath E) (mget originalSaved "_id") in
          let! r := save versSaved in
          match r with
          | Fail err => callback (AError err) AUndef
          | Ok versSavedAgain => callback ANull (ADoc versSavedAgain)
          end
        else callback ANull (ADoc versSaved)
    end
  else callback ANull (ADoc versSaved).

(** [saveVersion], lines 198-243: the callback of [versDoc.save]. *)
Definition onVersionSaved (E : env) (d : dataObj) (r : reply mdoc) : M unit :=
  match r with
  | Fail err => callback (AError err) AUndef
  | Ok versSaved =>
      let! versDocObj := toObject versSaved in
      let! r := findById (primaryModel E) (versionOfId d) in
      match r with
      | Fail err => callback (AError err) AUndef
      | Ok found =>
          let! original :=
            match found with
            | Some original => ret original
            | None =>
                let! original := new_doc (primaryModel E) ∅ in
                ret (mset original (versionIdPath E) (mget versSaved "_id"))
            end in
          promote E versSaved original
      end
  end.

Definition saveVersion (E : env) (d : dataObj) : M unit :=
  let! r := saveSnapshot E d in
  onVersionSaved E d r.

(** What [upsertVersion] is handed: a plain object or a model instance. *)
Inductive subject :=
  | Plain (o : obj)
  | Instance (d : mdoc).

(** [dataObj[k]] *)
Definition sget (s : subject) (k : string) : value :=
  match s with Plain o => get o k | Instance d => mget d k end.

(** The fields an update or a constructor takes from it. *)
Definition sfields (s : subject) : obj :=
  match s with Plain o => o | Instance d => props d end.

(** [versSaved.remove()] with no callback: its outcome is dropped. *)
Definition discard (versSaved : mdoc) : M unit :=
  remove versSaved;; ret tt.

(** [create_shadow], lines 370-386. *)
Definition create_shadow (E : env) (originalObj : subject) : M (reply mdoc) :=
  let! input :=
    match originalObj with
    | Instance d => toObject d
    | Plain o => ret o
    end in
  let input := delete "_id" input in
  let! versDoc := new_doc (shadowModel E) input in
  let! s := toString (sget originalObj "_id") in
  save (mset versDoc (versionOfIdPath E) (VStr s)).

(** [upsertVersion], lines 363-431. *)
Definition upsertVersion (E : env) (dataObj : subject) (query : option obj)
  : M unit :=
  if negb (truthy (sget dataObj "_id")) then
    let! original := new_doc (primaryModel E) (sfields dataObj) in
    let! r := create_shadow E (Instance original) in
    match r with
    | Fail err => callback (AError err) AUndef
    | Ok versSaved =>
        let! s := toString (mget versSaved "_id") in
        let original := mset original (versionIdPath E) (VStr s) in
        let! r := findOneAndUpsert (primaryModel E)
                    (default {["_id" := mget original "_id"]} query)
                    (props original) in
        match r with
        | Fail err => discard versSaved;; callback (AError err) AUndef
        | Ok (Some doc) => discard versSaved;; callback AUndef (ADoc doc)
        | Ok None => callback AUndef (ADoc original)
        end
    end
  else if negb (append_only E) && negb (truthy (sget dataObj (versionIdPath E)))
  then callback (AError "Please specify the revision you would like to change.") AUndef
  else
    let! r := create_shadow E dataObj in
    match r with
    | Fail err => callback (AError err) AUndef
    | Ok versSaved =>
        let! i := toString (sget dataObj "_id") in
        let query : obj := {["_id" := VStr i]} in
        let query :=
          if append_only E then query
          else <[versionIdPath E := sget dataObj (versionIdPath E)]> query in
        let! s := toString (mget versSaved "_id") in
        let update := <[versionIdPath E := VStr s]> (sfields dataObj) in
        let! r := findOneAndUpdate (primaryModel E) query update in
        match r with
        | Fail err => discard versSaved;; callback (AError err) AUndef
        | Ok None =>
            discard versSaved;;
            callback (AError ("Your copy of the data set with revision "
                              +:+ js_concat (get query (versionIdPath E))
                              +:+ " is not up-to-date, please refresh first, then try again."))
                     AUndef
        | Ok (Some origSaved) => callback AUndef (ADoc origSaved)
        end
    end.

(** [deleteOriginal], lines 443-503. *)
Definition deleteOriginal (E : env) (queryObj : obj) (dataObj : option obj)
  : M unit :=
  if negb (append_only E) && negb (truthy (get queryObj (versionIdPath E)))
  then callback (AStr "Please specify the revision you would like to change.") AUndef
  else
    let! r := find (primaryModel E) queryObj in
    match r with
    | Fail err => callback (AError err) AUndef
    | Ok [] =>
        callback (AError ("Your copy of the data set with revision "
                          +:+ js_concat (get queryObj (versionIdPath E))
                          +:+ " is not up-to-date, please refresh first, then try again."))
                 AUndef
    | Ok (_ :: _ :: _) =>
        callback (AError "Cannot delete more than one document.") AUndef
    | Ok [origSaved] =>
        let! origObj := toObject origSaved in
        let! s := toString (get origObj "_id") in
        let origObj := <[versionOfIdPath E := VStr s]> origObj in
        let origObj := delete "_id" origObj in
        let origObj := delete (versionIdPath E) origObj in
        let origObj :=
          match versionKey E with Some k => delete k origObj | None => origObj end in
        let origObj :=
          match deleteFlag E with
          | Some f => <[f := VBool true]> origObj
          | None => origObj
          end in
        let origObj :=
          match dataObj with Some d => d ∪ origObj | None => origObj end in
        if append_only E then
          let! versDoc := new_doc (shadowModel E) origObj in
          let! r := save versDoc in
          match r with
          | Fail err => callback (AError err) AUndef
          | Ok versSaved =>
              let! i := toString (mget origSaved "_id") in
              let! r := removeWhere (primaryModel E) {["_id" := VStr i]} in
              match r with
              | Fail err => discard versSaved;; callback (AError err) AUndef
              | Ok _ => callback AUndef AUndef
              end
          end
        else
          match deleteFlag E with
          | Some flag =>
              let query : obj := {["_id" := get queryObj (versionIdPath E)]} in
              let data : obj := {[flag := VBool true]} in
              let! r := findOneAndUpdate (shadowModel E) query data in
              match r with
              | Fail err => callback (AError err) AUndef
              | Ok None =>
                  callback (AError "Your version documents are inconsistent.") AUndef
              | Ok (Some savedVersion) =>
                  let! i := toString (mget origSaved "_id") in
                  let! r := removeWhere (primaryModel E) {["_id" := VStr i]} in
                  match r with
                  | Fail err =>
                      (* [versSaved.remove()]: no [versSaved] is in scope here *)
                      throw (ReferenceError "versSaved is not defined")
                  | Ok _ => callback AUndef AUndef
                  end
              end
          | None =>
              callback (AError "Do not know what to do, both append_only and delete_flag are not set.")
                       AUndef
          end
    end.

(** The instance method [findVersions], lines 98-104; as in src/index.js
    the query methods have the store's reply as their value.  The second
    module of the file repeats the bodies of lines 98-336 word for word
    at lines 652-890. *)
Definition instanceFindVersions (E : env) (this : mdoc)
  : M (reply (list mdoc)) :=
  find (shadowModel E) {[versionOfIdPath E := mget this "_id"]}.

(** [findVersionById], lines 121-123. *)
Definition findVersionById (E : env) (id : value) : M (reply (option mdoc)) :=
  findById (shadowModel E) id.

(** The static [findVersions], lines 136-162. *)
Definition findVersions (E : env) (id : value) : M (reply versions) :=
  let! r := findById (primaryModel E) id in
  match r with
  | Fail err => ret (Fail err)
  | Ok None => ret (Ok (Versions VNull []))
  | Ok (Some activeDoc) =>
      let activeId := mget activeDoc (versionIdPath E) in
      let! r := find (shadowModel E)
                  {[versionOfIdPath E := mget activeDoc "_id"]} in
      match r with
      | Fail err => ret (Fail err)
      | Ok result => ret (Ok (Versions activeId result))
      end
  end.

(** [deleteVersion], lines 261-292. *)
Definition deleteVersion (E : env) (id : value) : M unit :=
  let! r := findOne (primaryModel E) {[versionIdPath E := id]} in
  match r with
  | Fail err => callback (AError err) AUndef
  | Ok None =>
      let! r := findById (shadowModel E) id in
      match r with
      | Fail err => callback (AError err) AUndef
      | Ok None => callback ANull (AStatus false)
      | Ok (Some version) =>
          let! r := remove version in
          match r with
          | Fail err => callback (AError err) AUndef
          | Ok _ => callback ANull (AStatus true)
          end
      end
  | Ok (Some _) => callback ANull (AStatus false)
  end.

(** [activateVersion], lines 304-336. *)
Definition activateVersion (E : env) (id : value) : M unit :=
  let! r := findById (shadowModel E) id in
  match r with
  | Fail err => callback (AError err) AUndef
  | Ok None => callback (AStatus false) AUndef
  | Ok (Some result) =>
      let! r := findById (primaryModel E) (mget result (versionOfIdPath E)) in
      match r with
      | Fail err => callback (AError err) AUndef
      | Ok None => callback (AStatus false) AUndef
      | Ok (Some active) =>
          let! versDocObj := toObject result in
          let active :=
            assign_all (copied E (versionKey E) versDocObj) active in
          let active := mset active (versionIdPath E) id in
          let! r := save active in
          match r with
          | Fail err => callback (AError err) AUndef
          | Ok activeSaved => callback ANull (ADoc activeSaved)
          end
      end
  end.

End Fork.

(** * src/unnamed/part_002: the routes of the example application

    [Story] is the model of src/unnamed/part_001, which installs the
    plugin of src/index.js. *)
Module Routes.

(** What a handler answers with. *)
Inductive response :=
  | Send (body : cbarg)
  | SendErrMsg (err : string)
  | Redirect (url : string)
  | Render (view : string) (item : mdoc) (listing : versions)
           (selectedId : string).

(** [item_read]: the route parameter [vid] is a string. *)
Definition item_read (E : env) (vid : string) : M response :=
  let! r := Index.findVersionById E (VStr vid) in
  match r with
  | Fail err => ret (SendErrMsg err)
  | Ok None => throw (TypeError "Cannot read property 'versionOfId' of null")
  | Ok (Some result) =>
      let! r := Index.findVersions E (mget result "versionOfId") in
      match r with
      | Fail err => ret (SendErrMsg err)
      | Ok versions => ret (Render "story" result versions vid)
      end
  end.

(** [if (err)] on what a callback was handed. *)
Definition given (a : cbarg) : bool :=
  match a with
  | AUndef | ANull => false
  | AStr s => bool_decide (s ≠ "")
  | AError _ | AStatus _ | ADoc _ => true
  end.

(** [result.name]; [None] where the read faults. *)
Definition field_of (result : cbarg) (name : string) : option value :=
  match result with
  | ADoc d => Some (mget d name)
  | AUndef | ANull => None
  | AError _ | AStr _ | AStatus _ => Some VUndef
  end.

(** [result === null] *)
Definition is_null (a : cbarg) : bool :=
  match a with ANull => true | _ => false end.

(** The callbacks [item_delete] and [item_activate] pass on. *)
Definition on_delete (err result : cbarg) : res response :=
  if given err then Done (Send (AStatus false)) else Done (Send result).

Definition on_activate (err result : cbarg) : res response :=
  if given err || is_null result
  then Done (Send (AStatus false))
  else
    match field_of result "_id", field_of result "versionId" with
    | Some i, Some v =>
        Done (Redirect ("/story/" +:+ js_concat i +:+ "/v/" +:+ js_concat v))
    | _, _ => Threw (TypeError "Cannot read property '_id' of undefined")
    end.

(** A handler's callback run on what the call handed it: the deliveries
    logged since [w]. *)
Definition answers (k : cbarg → cbarg → res response) (w w' : world)
  : list (res response) :=
  (λ c, k c.1 c.2) <$> drop (length (calls w)) (calls w').

Definition item_delete (E : env) (vid : string) (w : world)
  : res unit * world * list (res response) :=
  let r := Index.deleteVersion E (VStr vid) w in
  (r, answers on_delete w r.2).

Definition item_activate (E : env) (vid : string) (w : world)
  : res unit * world * list (res response) :=
  let r := Index.activateVersion E (VStr vid) w in
  (r, answers on_activate w r.2).

End Routes.

(** * Shapes the statements below speak about *)

(** A stored value a path of type [t] can hold. *)
Definition fits (t : ftype) (s : sval) : bool :=
  match t, s with
  | TObjectId, (SNull | SId _) => true
  | TObjectId, _ => false
  | TOther, _ => true
  end.

(** A stored document of schema [sch]: declared paths, typed values. *)
Definition conforms (sch : schema) (d : sdoc) : Prop :=
  map_Forall (λ k s, is_Some (sch !! k) ∧ fits (type_of sch k) s = true) d.

(** Both identifiers and both link paths are ObjectId paths, and neither
    link name is [_id]. *)
Definition linked (E : env) : Prop :=
  psch E !! "_id" = Some oid_field ∧
  ssch E !! "_id" = Some oid_field ∧
  psch E !! versionIdPath E = Some oid_field ∧
  ssch E !! versionOfIdPath E = Some oid_field ∧
  versionIdPath E ≠ "_id" ∧
  versionOfIdPath E ≠ "_id".

(** The environment the plugin of src/index.js leaves: [linked], the
    shadow shape has no [versionId], and every shadow path but [_id] and
    the back-reference mirrors the primary path of that name. *)
Definition well_formed (E : env) : Prop :=
  linked E ∧
  ssch E !! versionIdPath E = None ∧
  map_Forall (λ k f, k = "_id" ∨ k = versionOfIdPath E ∨ psch E !! k = Some f)
             (ssch E).

(** Some Active Document points at version [h]. *)
Definition referenced (E : env) (w : world) (h : oid) : Prop :=
  ∃ a A, primary w !! a = Some A ∧
         the_doc a A !! versionIdPath E = Some (SId h).

(** The failure result of [activateVersion]: [{success: false}] in the
    error position, both collections as they were. *)
Definition failure (w w' : world) : Prop :=
  calls w' = calls w ++ [(AStatus false, AUndef)] ∧
  primary w' = primary w ∧ shadow w' = shadow w.

(** [original[versionIdPath].toString()] for the stored Active Document
    [A] under [a]: the version it points at, if the call does not fault. *)
Definition pointer (E : env) (a : oid) (A : sdoc) : option string :=
  s ← the_doc a A !! versionIdPath E;
  js_toString (of_sval 0 (versionIdPath E) s).

(** What a call leaves alone. *)
Definition untouched (w w' : world) : Prop :=
  primary w' = primary w ∧ shadow w' = shadow w ∧ calls w' = calls w.

(** What a saved Version Record is, once [versDoc.save] has answered. *)
Definition snapshot_saved (E : env) (w w1 : world) (vs : mdoc) : Prop :=
  mmodel vs = shadowModel E ∧
  callable (own vs) "save" = true ∧
  primary w1 = primary w ∧ calls w1 = calls w ∧
  ∃ v, origin vs = Some v ∧ cast_oid (get (props vs) "_id") = Some v ∧
       shadow w1 !! v = Some (persist (ssch E) (props vs)).

(** The promoting copy and the two writes that follow it, for a variant
    given by its [promote] and the key its copy skips. *)
Definition promote_runs (skip : env → option string)
    (promote : env → mdoc → mdoc → M unit) : Prop :=
  ∀ E vs original v a g w,
  linked E →
  mmodel vs = shadowModel E → origin vs = Some v →
  cast_oid (get (props vs) "_id") = Some v →
  callable (own vs) "toObject" = true → callable (own vs) "save" = true →
  mmodel original = primaryModel E → own original = ∅ →
  get (props original) "_id" = VId g "_id" a →
  (origin original = Some a ∨ (origin original = None ∧ primary w !! a = None)) →
  js_toString (get (props original) (versionIdPath E)) = Some v →
  (∀ k x, copied E (skip E) (plain (ssch E) (gen w) (props vs)) !! k = Some x →
          is_Some (psch E !! k)) →
  faults w = [] →
  ∃ w',
    promote E vs original w = (Done tt, w') ∧
    primary w' =
      <[a := persist (psch E)
               (declared (psch E)
                  (copied E (skip E) (plain (ssch E) (gen w) (props vs)))
                ∪ props original)]> (primary w) ∧
    shadow w' =
      <[v := persist (ssch E) (<[versionOfIdPath E := VId g "_id" a]> (props vs))]>
        (shadow w) ∧
    calls w' =
      calls w ++ [(ANull, ADoc (MDoc (shadowModel E) (Some v)
                     (<[versionOfIdPath E := VId g "_id" a]> (props vs)) (own vs)))] ∧
    faults w' = [].

(** The promotion rule of [saveVersion], for a variant given by its two
    halves and the key its copy skips. *)
Definition promotion_rule (E : env) (skip : option string)
    (saveSnapshot : env → dataObj → M (reply mdoc))
    (saveVersion : env → dataObj → M unit) : Prop :=
  ∀ (d : dataObj) (w w1 : world) (versSaved : mdoc) (v a : oid) (A : sdoc),
    saveSnapshot E d w = (Done (Ok versSaved), w1) →
    origin versSaved = Some v →
    callable (own versSaved) "toObject" = true →
    conforms (ssch E) (persist (ssch E) (props versSaved)) →
    cast_oid (versionOfId d) = Some a → primary w !! a = Some A →
    faults w1 = [] →
    let w' := (saveVersion E d w).2 in
    (pointer E a A ≠ Some v → primary w' = primary w) ∧
    (∀ p, pointer E a A = Some p → p ≠ v →
          calls w' = calls w ++ [(ANull, ADoc versSaved)]) ∧
    (pointer E a A = Some v →
       ∃ A', primary w' = <[a := A']> (primary w) ∧
             (∀ k s, k ≠ "_id" → k ≠ versionOfIdPath E → Some k ≠ skip →
                     persist (ssch E) (props versSaved) !! k = Some s →
                     A' !! k = Some s) ∧
             (∀ k s, the_doc a A !! k = Some s →
                     fits (type_of (psch E) k) s = true →
                     k = "_id" ∨ k = versionOfIdPath E ∨ Some k = skip
                     ∨ persist (ssch E) (props versSaved) !! k = None →
                     A' !! k = Some s)).

(** The fields of a Version Record created from [data]. *)
Definition created (E : env) (g : N) (v : oid) (body : obj) (ide : value) : obj :=
  <["versionOfId" := ide]>
    (filter (λ kv, is_Some (ssch E !! kv.1) ∧ kv.2 ≠ VUndef) body
     ∪ <["_id" := VId g "_id" v]>
         (map_imap (λ k f, of_sval g k <$> fdefault f) (ssch E))).


(** What [findVersions] answers, for a variant given by its function:
    the empty result for an unknown entity, and otherwise the active
    pointer with the Version Records that refer to the entity, each once. *)
Definition lists_versions (E : env)
    (findVersions : env → value → M (reply versions)) : Prop :=
  ∀ (w : world) (id : value) (a : oid),
    cast_oid id = Some a → faults w = [] →
    (primary w !! a = None →
       (findVersions E id w).1 = Done (Ok (Versions VNull []))) ∧
    (∀ A, primary w !! a = Some A →
       ∃ active l,
         (findVersions E id w).1
         = Done (Ok (Versions active
                       ((λ p, found (shadowModel E) (N.succ (gen w)) p.1 p.2)
                          <$> l))) ∧
         js_toString active = pointer E a A ∧
         NoDup l ∧
         ∀ v V, (v, V) ∈ l ↔
                shadow w !! v = Some V ∧
                V !! versionOfIdPath E = Some (SId a)).

(** A query method that only reads: it returns, and leaves both
    collections and the caller's callback alone. *)
Definition reads_only {A} (m : M A) : Prop :=
  ∀ w, untouched w (m w).2 ∧ ∃ x, (m w).1 = Done x.

(** A [deleteVersion] that answers its caller exactly once whatever the
    store does, never touches the primary collection, reports success only
    when it has removed the Version Record it was asked to, and has removed
    nothing when it reports anything else. *)
Definition reports_deletion (deleteVersion : env → value → M unit) : Prop :=
  ∀ (E : env) (id : value) (w : world),
    (deleteVersion E id w).1 = Done tt ∧
    let w' := (deleteVersion E id w).2 in
    primary w' = primary w ∧
    ∃ err result,
      calls w' = calls w ++ [(err, result)] ∧
      match result with
      | AStatus true =>
          err = ANull ∧
          ∃ h, cast_oid id = Some h ∧ is_Some (shadow w !! h) ∧
               shadow w' = delete h (shadow w)
      | AStatus false => err = ANull ∧ shadow w' = shadow w
      | _ => (∃ e, err = AError e) ∧ result = AUndef ∧ shadow w' = shadow w
      end.

(** A call that is refused: the caller gets [err] and no result, and both
    collections are as before. *)
Definition refused (err : cbarg) (w w' : world) : Prop :=
  calls w' = calls w ++ [(err, AUndef)] ∧
  primary w' = primary w ∧ shadow w' = shadow w.

(** A computation that does not call back. *)
Definition silent {A} (m : M A) : Prop := ∀ w, calls (m w).2 = calls w.

(** A static method that calls back exactly once when it returns, and not
    at all when it throws. *)
Definition answers_once (m : M unit) : Prop :=
  ∀ w, match (m w).1 with
       | Done _ => ∃ err result, calls (m w).2 = calls w ++ [(err, result)]
       | Threw _ => calls (m w).2 = calls w
       end.

Module Example.

(** A story schema in the manner of the README: a title with a default
    and a deck without one. *)
Definition story : schema :=
  <["_id" := oid_field]>
    (<["title" := Field TOther (Some (SStr "Untitled"))]>
       {["deck" := Field TOther None]}).


(** What [StorySchema.plugin(versioner, opts)] leaves, both variants. *)
Definition E0 : env :=
  Env "versionId" "versionOfId" (Some "__v") false None
      (compile (Some "__v") (<["versionId" := oid_field]> story))
      (compile (Some "__v")
         (<["versionOfId" := oid_field]>
            (filter (λ kv, kv.1 ≠ "_id") story))).

(** The forked variant with a delete flag, and in append-only mode. *)
Definition flagged : env :=
  Env "versionId" "versionOfId" (Some "__v") false (Some "deleted")
      (psch E0) (<["deleted" := Field TOther None]> (ssch E0)).

Definition appending : env :=
  Env "versionId" "versionOfId" (Some "__v") true (Some "deleted")
      (psch E0) (<["deleted" := Field TOther None]> (ssch E0)).

(** Active Document [a1] pointing at its only version [v1]. *)
Definition A1 : sdoc :=
  <["title" := SStr "A"]> (<["deck" := SStr "d"]> {["versionId" := SId "v1"]}).

Definition V1 : sdoc :=
  <["title" := SStr "A"]> (<["deck" := SStr "d"]> {["versionOfId" := SId "a1"]}).

Definition w0 : world := World {["a1" := A1]} {["v1" := V1]} ∅ 0 [] [] [].

(** The same store when the third round trip is going to fail. *)
Definition w_fail : world :=
  World {["a1" := A1]} {["v1" := V1]} ∅ 0 [None; None; Some "remove failed"] [] [].

Definition title_B : obj := {["title" := VStr "B"]}.



(** The same store with an earlier, inactive version [v0] of [a1]. *)
Definition V0 : sdoc :=
  <["title" := SStr "first"]> {["versionOfId" := SId "a1"]}.

Definition w_two : world :=
  World {["a1" := A1]} (<["v0" := V0]> {["v1" := V1]}) ∅ 0 [] [] [].

(** An edit of [a1] made against its current version. *)
Definition edit_B : obj :=
  <["_id" := VStr "a1"]> (<["versionId" := VStr "v1"]> title_B).

(** The query [deleteOriginal] is given for [a1] at its current version. *)
Definition query_a1 : obj := <["_id" := VStr "a1"]> {["versionId" := VStr "v1"]}.

(** The store of [w0] when the second round trip is going to fail, and
    when the fourth is. *)
Definition w_second_fails : world :=
  World {["a1" := A1]} {["v1" := V1]} ∅ 0 [None; Some "update failed"] [] [].

Definition w_fourth_fails : world :=
  World {["a1" := A1]} {["v1" := V1]} ∅ 0
        [None; None; None; Some "save failed"] [] [].

End Example.

Import Example.

(** * Facts about the model of the store *)

Lemma select_nil sch q (m : gmap oid sdoc) :
  select sch q m = [] ↔
  ∀ i d, m !! i = Some d → matches sch q (the_doc i d) = false.
Proof.
  unfold select. split.
  - intros Hnil i d Hid.
    destruct (matches sch q (the_doc i d)) eqn:Hm; [|done].
    exfalso. eapply (filter_nil_not_elem_of _ _ (i, d)); [exact Hnil|exact Hm|].
    by apply elem_of_map_to_list.
  - intros Hall.
    destruct (filter _ (map_to_list m)) as [|[i d] l] eqn:Hf; [done|].
    assert (Hin : (i, d) ∈ filter (λ p, matches sch q (the_doc p.1 p.2) = true)
                                  (map_to_list m)).
    { rewrite Hf. left. }
    apply list_elem_of_filter in Hin as [Hm Hin]. simpl in Hm.
    apply elem_of_map_to_list in Hin. rewrite (Hall _ _ Hin) in Hm. done.
Qed.

Lemma select_cons sch q (m : gmap oid sdoc) i d l :
  select sch q m = (i, d) :: l →
  m !! i = Some d ∧ matches sch q (the_doc i d) = true.
Proof.
  unfold select. intros Hf.
  assert (Hin : (i, d) ∈ filter (λ p, matches sch q (the_doc p.1 p.2) = true)
                                (map_to_list m)).
  { rewrite Hf. left. }
  apply list_elem_of_filter in Hin as [Hm Hin]. simpl in Hm.
  by apply elem_of_map_to_list in Hin.
Qed.

Lemma matches_pointer sch k id h (d : sdoc) :
  type_of sch k = TObjectId → cast_oid id = Some h →
  matches sch {[k := id]} d = true ↔ d !! k = Some (SId h).
Proof.
  intros Ht Hc. unfold matches. rewrite bool_decide_eq_true, map_Forall_singleton.
  unfold match_field. rewrite Ht.
  destruct id; simplify_eq/=; by rewrite bool_decide_eq_true.
Qed.

Lemma castable_pointer sch k id h :
  cast_oid id = Some h → castable sch {[k := id]} = true.
Proof.
  intros Hc. unfold castable. rewrite bool_decide_eq_true, map_Forall_singleton.
  destruct id; simplify_eq/=; eauto.
Qed.

Lemma query_val_oid id h :
  cast_oid id = Some h → query_val TObjectId id = Some (SId h).
Proof. destruct id; intros; simplify_eq/=; done. Qed.

Lemma load_lookup g (d : sdoc) k : load g d !! k = of_sval g k <$> d !! k.
Proof. unfold load. rewrite map_lookup_imap. by destruct (d !! k). Qed.

Lemma persist_lookup sch (o : obj) k :
  persist sch o !! k = o !! k ≫= persist_as (type_of sch k).
Proof. unfold persist. by rewrite map_lookup_imap. Qed.

Lemma plain_lookup sch g (o : obj) k :
  plain sch g o !! k = of_sval g k <$> (o !! k ≫= persist_as (type_of sch k)).
Proof. unfold plain. by rewrite load_lookup, persist_lookup. Qed.

Lemma found_props_id m g i d : get (props (found m g i d)) "_id" = VId g "_id" i.
Proof.
  unfold found, get; simpl. rewrite load_lookup. unfold the_doc.
  by rewrite lookup_insert_eq.
Qed.

Lemma declared_lookup sch (o : obj) k :
  declared sch o !! k = if bool_decide (is_Some (sch !! k)) then o !! k else None.
Proof.
  unfold declared. rewrite map_lookup_filter.
  destruct (o !! k) as [v|] eqn:Hk; simpl.
  - case_bool_decide.
    + by rewrite option_guard_True.
    + by rewrite option_guard_False.
  - by case_bool_decide.
Qed.

Lemma undeclared_lookup sch (o : obj) k :
  undeclared sch o !! k = if bool_decide (sch !! k = None) then o !! k else None.
Proof.
  unfold undeclared. rewrite map_lookup_filter.
  destruct (o !! k) as [v|] eqn:Hk; simpl.
  - case_bool_decide.
    + by rewrite option_guard_True.
    + by rewrite option_guard_False.
  - by case_bool_decide.
Qed.

Lemma copied_lookup E skip (o : obj) k :
  copied E skip o !! k =
  if bool_decide (k ≠ "_id" ∧ k ≠ versionOfIdPath E ∧ Some k ≠ skip)
  then o !! k else None.
Proof.
  unfold copied. rewrite map_lookup_filter.
  destruct (o !! k) as [v|] eqn:Hk; simpl.
  - case_bool_decide.
    + by rewrite option_guard_True.
    + by rewrite option_guard_False.
  - by case_bool_decide.
Qed.

(** ** Running the store calls when no fault is planned *)

Lemma findById_hit m id h d w :
  cast_oid id = Some h → faults w = [] → store (mcoll m) w !! h = Some d →
  findById m id w
  = (Done (Ok (Some (found m (gen w) h d))), bumped (ticked (Find (mcoll m)) w)).
Proof.
  intros Hc Hf Hd. unfold findById. rewrite (query_val_oid _ _ Hc).
  unfold bind, trip, read. rewrite Hf. simpl.
  replace (store (mcoll m) (ticked (Find (mcoll m)) w)) with (store (mcoll m) w)
    by (by destruct (mcoll m)).
  by rewrite Hd.
Qed.

Lemma findById_miss m id h w :
  cast_oid id = Some h → faults w = [] → store (mcoll m) w !! h = None →
  findById m id w = (Done (Ok None), ticked (Find (mcoll m)) w).
Proof.
  intros Hc Hf Hd. unfold findById. rewrite (query_val_oid _ _ Hc).
  unfold bind, trip, read. rewrite Hf. simpl.
  replace (store (mcoll m) (ticked (Find (mcoll m)) w)) with (store (mcoll m) w)
    by (by destruct (mcoll m)).
  by rewrite Hd.
Qed.

Lemma findById_null m id w :
  id = VNull ∨ id = VUndef → faults w = [] →
  findById m id w = (Done (Ok None), ticked (Find (mcoll m)) w).
Proof.
  intros [-> | ->] Hf; unfold findById, bind, trip, read; simpl; by rewrite Hf.
Qed.

Lemma toObject_run d w :
  callable (own d) "toObject" = true →
  toObject d w = (Done (plain (msch (mmodel d)) (gen w) (props d)), bumped w).
Proof. intros Hc. unfold toObject, method, bind. by rewrite Hc. Qed.

Lemma save_update d i w :
  callable (own d) "save" = true →
  cast_oid (get (props d) "_id") = Some i → origin d = Some i →
  faults w = [] →
  save d w
  = (Done (Ok (MDoc (mmodel d) (Some i) (props d) (own d))),
     set_store (mcoll (mmodel d))
       (<[i := persist (msch (mmodel d)) (props d)]> (store (mcoll (mmodel d)) w))
       (ticked (Write (mcoll (mmodel d)) i) w)).
Proof.
  intros Hc Hi Ho Hf. unfold save, method, bind. rewrite Hc. simpl.
  rewrite Hi. unfold trip, read, write. rewrite Hf, Ho. simpl.
  rewrite bool_decide_eq_true_2 by done.
  by destruct (mcoll (mmodel d)).
Qed.

Lemma save_insert d i w :
  callable (own d) "save" = true →
  cast_oid (get (props d) "_id") = Some i → origin d = None →
  store (mcoll (mmodel d)) w !! i = None →
  faults w = [] →
  save d w
  = (Done (Ok (MDoc (mmodel d) (Some i) (props d) (own d))),
     set_store (mcoll (mmodel d))
       (<[i := persist (msch (mmodel d)) (props d)]> (store (mcoll (mmodel d)) w))
       (ticked (Write (mcoll (mmodel d)) i) w)).
Proof.
  intros Hc Hi Ho Hn Hf. unfold save, method, bind. rewrite Hc. simpl.
  rewrite Hi. unfold trip, read, write. rewrite Hf, Ho. simpl.
  replace (store (mcoll (mmodel d)) (ticked (Write (mcoll (mmodel d)) i) w))
    with (store (mcoll (mmodel d)) w) by (by destruct (mcoll (mmodel d))).
  rewrite Hn. rewrite bool_decide_eq_false_2 by (by intros [? ?]).
  by destruct (mcoll (mmodel d)).
Qed.

Lemma quiet_ticked e w : faults w = [] → faults (ticked e w) = [].
Proof. simpl. by intros ->. Qed.

Lemma quiet_bumped w : faults w = [] → faults (bumped w) = [].
Proof. done. Qed.

Lemma quiet_issuing i w : faults w = [] → faults (issuing i w) = [].
Proof. done. Qed.

Lemma quiet_set_store c m w : faults w = [] → faults (set_store c m w) = [].
Proof. by destruct c. Qed.

Ltac quiet :=
  repeat first
    [ assumption
    | apply quiet_ticked | apply quiet_bumped | apply quiet_issuing
    | apply quiet_set_store ].

Lemma untouched_refl w : untouched w w.
Proof. done. Qed.

Lemma untouched_trans w1 w2 w3 : untouched w1 w2 → untouched w2 w3 → untouched w1 w3.
Proof. intros (?&?&?) (?&?&?). repeat split; congruence. Qed.

Lemma findById_inv m id w r w' :
  findById m id w = (r, w') →
  untouched w w' ∧ (faults w = [] → faults w' = []) ∧
  ∀ d, r = Done (Ok (Some d)) →
       mmodel d = m ∧ own d = ∅ ∧
       ∃ i s, origin d = Some i ∧ store (mcoll m) w !! i = Some s ∧
              props d = load (gen w) (the_doc i s).
Proof.
  unfold findById, bind, trip, read, alloc, ret.
  destruct (query_val TObjectId id) as [s|]; [|by intros; simplify_eq].
  destruct (faults w) as [|[e|] fs] eqn:Hf; simpl.
  - replace (store (mcoll m) (ticked (Find (mcoll m)) w)) with (store (mcoll m) w)
      by (by destruct (mcoll m)).
    destruct s; try (intros; simplify_eq/=; rewrite ?Hf; done).
    destruct (store (mcoll m) w !! h) as [sd|] eqn:Hd; intros; simplify_eq/=;
      rewrite ?Hf; (split; [done|]); (split; [done|]); intros d0 ?; simplify_eq/=.
    repeat split; eauto.
  - intros; simplify_eq/=. done.
  - replace (store (mcoll m) (ticked (Find (mcoll m)) w)) with (store (mcoll m) w)
      by (by destruct (mcoll m)).
    destruct s; try (intros; simplify_eq/=; done).
    destruct (store (mcoll m) w !! h) as [sd|] eqn:Hd; intros; simplify_eq/=;
      (split; [done|]); (split; [done|]); intros d0 ?; simplify_eq/=.
    repeat split; eauto.
Qed.

Lemma new_doc_inv m data w r w' :
  new_doc m data w = (r, w') →
  untouched w w' ∧ faults w' = faults w ∧
  ∃ d, r = Done d ∧ mmodel d = m ∧ own d = ∅ ∧ origin d = None ∧
       props d = filter (λ kv, is_Some (msch m !! kv.1) ∧ kv.2 ≠ VUndef) data
                 ∪ <["_id" := VId (gen w) "_id" (next_oid (bumped w))]>
                     (map_imap (λ k f, of_sval (gen w) k <$> fdefault f) (msch m)).
Proof.
  unfold new_doc, bind, alloc, new_oid, ret. intros H. simplify_eq/=.
  repeat split; eauto 10.
Qed.

Lemma save_inv d w r w' :
  save d w = (r, w') →
  calls w' = calls w ∧ (faults w = [] → faults w' = []) ∧
  match r with
  | Done (Ok d') =>
      callable (own d) "save" = true ∧
      ∃ i, cast_oid (get (props d) "_id") = Some i ∧
           d' = MDoc (mmodel d) (Some i) (props d) (own d) ∧
           w' = set_store (mcoll (mmodel d))
                  (<[i := persist (msch (mmodel d)) (props d)]>
                     (store (mcoll (mmodel d)) w))
                  (ticked (Write (mcoll (mmodel d)) i) w)
  | _ => primary w' = primary w ∧ shadow w' = shadow w
  end.
Proof.
  unfold save, method, bind, trip, read, write, ret, throw.
  destruct (callable (own d) "save") eqn:Hc; [|by intros; simplify_eq].
  destruct (cast_oid (get (props d) "_id")) as [i|] eqn:Hi; [|by intros; simplify_eq].
  assert (Hq : faults w = [] → faults (ticked (Write (mcoll (mmodel d)) i) w) = [])
    by (simpl; by intros ->).
  replace (store (mcoll (mmodel d)) (ticked (Write (mcoll (mmodel d)) i) w))
    with (store (mcoll (mmodel d)) w) by (by destruct (mcoll (mmodel d))).
  destruct (faults w) as [|[e|] fs] eqn:Hf; simpl.
  1,3: destruct (origin d) as [j|]; simpl;
       [ destruct (bool_decide (i = j)) | destruct (bool_decide (is_Some _)) ];
       intros; simplify_eq/=;
       repeat split; try done; try (by destruct (mcoll (mmodel d)));
       eexists; repeat split; done.
  intros; simplify_eq/=. done.
Qed.

Lemma callable_None (o : obj) name : o !! name = None → callable o name = true.
Proof. unfold callable. by intros ->. Qed.

Lemma mget_declared d k :
  is_Some (msch (mmodel d) !! k) → mget d k = get (props d) k.
Proof. intros H. unfold mget. by rewrite bool_decide_eq_true_2. Qed.

Lemma mset_declared d k v :
  is_Some (msch (mmodel d) !! k) →
  mset d k v = MDoc (mmodel d) (origin d) (<[k := v]> (props d)) (own d).
Proof. intros H. unfold mset. by rewrite bool_decide_eq_true_2. Qed.

Lemma strict_eq_other_key g k h v g' :
  k ≠ "_id" → strict_eq (default VUndef (of_sval g k <$> v)) (VId g' "_id" h) = false.
Proof.
  intros Hk. destruct v as [[]|]; simpl; try done.
  apply bool_decide_eq_false_2. by intros [_ ?].
Qed.

Ltac promote_script unfold_promote take_branch :=
  intros E vs original v a g w (Hpid & Hsid & Hvid & Hvof & Hvi & Hvo)
         Hvm Hvor Hvc Hvt Hvs Hom Hoo Hoid Horig Hptr Hdecl Hf;
  unfold_promote; unfold bind;
  rewrite (mget_declared original) by (rewrite Hom; simpl; eauto);
  rewrite (mget_declared vs) by (rewrite Hvm; simpl; eauto);
  unfold toString; rewrite Hptr; simpl;
  assert (Hb : js_toString (get (props vs) "_id") = Some v)
    by (destruct (get (props vs) "_id"); simplify_eq/=; done);
  rewrite Hb; simpl; take_branch;
  rewrite toObject_run by done; rewrite Hvm; simpl;
  match goal with
  | |- context [assign_all (copied E ?skip ?vdo) original] =>
      set (versDocObj := vdo) in *;
      set (original' := assign_all (copied E skip versDocObj) original);
      assert (Hcall : callable (own original') "save" = true);
      [ apply callable_None; unfold original', assign_all; simpl;
        rewrite Hom, Hoo; simpl; rewrite right_id by apply _;
        rewrite undeclared_lookup; case_bool_decide as Hs; [|done];
        destruct (copied E skip versDocObj !! "save") eqn:Hcs; [|done];
        destruct (Hdecl _ _ Hcs) as [? ?]; congruence |];
      assert (Hid' : get (props original') "_id" = VId g "_id" a);
      [ unfold original', assign_all, get; simpl; rewrite Hom; simpl;
        rewrite lookup_union_r; [exact Hoid|];
        rewrite declared_lookup, copied_lookup;
        rewrite (bool_decide_eq_false_2 (_ ∧ _)) by (by intros [? ?]);
        by case_bool_decide |];
  assert (Hmod' : mmodel original' = primaryModel E) by done;
  assert (Hsave : save original' (bumped w)
    = (Done (Ok (MDoc (primaryModel E) (Some a) (props original') (own original'))),
       set_store Primary (<[a := persist (psch E) (props original')]> (primary w))
         (ticked (Write Primary a) (bumped w))));
  [ destruct Horig as [Ho | [Ho Hn]];
    [ rewrite (save_update original' a);
        [by rewrite Hmod'| done | by rewrite Hid' | done | quiet]
    | rewrite (save_insert original' a);
        [by rewrite Hmod'| done | by rewrite Hid' | done | by rewrite Hmod' | quiet] ] |];
  rewrite Hsave;
  rewrite !mget_declared by (simpl; eauto); cbn [props]; rewrite Hid';
  assert (Hne : strict_eq (get versDocObj (versionOfIdPath E)) (VId g "_id" a) = false)
    by (unfold get, versDocObj; rewrite plain_lookup; by apply strict_eq_other_key);
  rewrite Hne; cbn [negb];
  rewrite (mset_declared vs) by (rewrite Hvm; simpl; eauto);
  match goal with
  | |- context [save ?d] =>
      rewrite (save_update d v);
        [| done
         | unfold get; simpl; rewrite lookup_insert_ne by done; exact Hvc
         | done
         | quiet; by destruct (mcoll _)]
  end;
  rewrite Hvm, Hvor; simpl;
  eexists; split; [reflexivity|]; simpl; rewrite Hom, Hf; repeat split; done
  end.

Lemma index_promote_runs : promote_runs (λ _, None) Index.promote.
Proof.
  promote_script ltac:(unfold Index.promote)
                 ltac:(rewrite bool_decide_eq_false_2 by (by intros [])).
Qed.


Lemma mset_model d k v : mmodel (mset d k v) = mmodel d.
Proof. unfold mset. by case_bool_decide. Qed.

Lemma snapshot_world data w r w' : Index.snapshot data w = (r, w') → w' = w.
Proof.
  unfold Index.snapshot, Index.call_toObject, ret, throw.
  intros H. repeat case_match; by simplify_eq.
Qed.

Lemma save_snapshot_saved E versDoc k x w0 w w1 vs :
  mmodel versDoc = shadowModel E → untouched w w0 →
  save (mset versDoc k x) w0 = (Done (Ok vs), w1) →
  snapshot_saved E w w1 vs.
Proof.
  intros Hm (Hp & Hs & Hc) Hsave.
  apply save_inv in Hsave as (Hcalls & _ & Hcall & i & Hi & -> & ->).
  rewrite mset_model, Hm. simpl.
  assert (Hown : own (mset versDoc k x) = own (mset versDoc k x)) by done.
  repeat split; try done; try congruence.
  exists i. repeat split; try done. cbn [shadow props]. by rewrite lookup_insert_eq.
Qed.

Lemma index_saveSnapshot_inv E d w w1 vs :
  Index.saveSnapshot E d w = (Done (Ok vs), w1) → snapshot_saved E w w1 vs.
Proof.
  unfold Index.saveSnapshot, bind.
  destruct (findById _ _ w) as [r0 w0] eqn:Hfind.
  apply findById_inv in Hfind as (Hun & _ & Hd).
  destruct r0 as [[err|fd]|e]; try (intros; by simplify_eq).
  destruct (Index.snapshot (data d) w0) as [[data'|e] w0'] eqn:Hsnap;
    apply snapshot_world in Hsnap as ->; [|intros; by simplify_eq].
  destruct fd as [versDoc|].
  - destruct (Hd versDoc eq_refl) as (Hm & _). unfold ret.
    by apply save_snapshot_saved.
  - destruct (new_doc (shadowModel E) data' w0) as [r2 w2] eqn:Hnew.
    apply new_doc_inv in Hnew as (Hun2 & _ & nd & -> & Hm & _).
    apply save_snapshot_saved; [done|]. by eapply untouched_trans.
Qed.


Lemma fits_roundtrip t g k s : fits t s = true → persist_as t (of_sval g k s) = Some s.
Proof. destruct t, s; simpl; intros; done. Qed.

Lemma type_of_Some sch k f : sch !! k = Some f → type_of sch k = ftyp f.
Proof. unfold type_of. by intros ->. Qed.

Lemma js_toString_of_sval g k g' k' s :
  js_toString (of_sval g k s) = js_toString (of_sval g' k' s).
Proof. by destruct s. Qed.

Lemma plain_persist sch g (o : obj) k :
  plain sch g o !! k = of_sval g k <$> persist sch o !! k.
Proof. unfold plain. by rewrite load_lookup. Qed.

Lemma found_pointer E g a A :
  is_Some (psch E !! versionIdPath E) →
  js_toString (mget (found (primaryModel E) g a A) (versionIdPath E)) = pointer E a A.
Proof.
  intros Hd. rewrite mget_declared by done. unfold get, pointer, found. simpl.
  rewrite load_lookup. destruct (the_doc a A !! versionIdPath E) as [s|]; simpl; [|done].
  apply js_toString_of_sval.
Qed.

(** Every key the promoting copy moves is a declared primary path. *)
Lemma copied_declared E skip g (o : obj) k x :
  well_formed E → conforms (ssch E) (persist (ssch E) o) →
  copied E skip (plain (ssch E) g o) !! k = Some x → is_Some (psch E !! k).
Proof.
  intros (_ & _ & Hmir) Hconf. rewrite copied_lookup.
  case_bool_decide as Hk; [|done]. destruct Hk as (Hk1 & Hk2 & _).
  rewrite plain_persist. destruct (persist (ssch E) o !! k) as [s|] eqn:Hs; [|done].
  destruct (Hconf k s Hs) as [[f Hf] _].
  destruct (Hmir k f Hf) as [?|[?|Hp]]; [done|done|eauto].
Qed.

(** A field the promoting copy moves arrives in the stored Active
    Document unchanged. *)
Lemma copied_field E skip g (o rest : obj) k s :
  well_formed E → conforms (ssch E) (persist (ssch E) o) →
  k ≠ "_id" → k ≠ versionOfIdPath E → Some k ≠ skip →
  persist (ssch E) o !! k = Some s →
  persist (psch E) (declared (psch E) (copied E skip (plain (ssch E) g o)) ∪ rest)
    !! k = Some s.
Proof.
  intros (_ & _ & Hmir) Hconf Hk1 Hk2 Hk3 Hs.
  destruct (Hconf k s Hs) as [[f Hf] Hfit].
  destruct (Hmir k f Hf) as [?|[?|Hp]]; [done|done|].
  rewrite persist_lookup.
  erewrite lookup_union_Some_l; last first.
  { rewrite declared_lookup, Hp. rewrite bool_decide_eq_true_2 by eauto.
    rewrite copied_lookup. rewrite bool_decide_eq_true_2 by done.
    rewrite plain_persist, Hs. done. }
  simpl. apply fits_roundtrip.
  by rewrite (type_of_Some _ _ _ Hp), <- (type_of_Some _ _ _ Hf).
Qed.

(** A field the promoting copy does not move stays as it was stored. *)
Lemma kept_field E skip g g' (o : obj) (D : sdoc) k s :
  D !! k = Some s → fits (type_of (psch E) k) s = true →
  (k = "_id" ∨ k = versionOfIdPath E ∨ Some k = skip
   ∨ persist (ssch E) o !! k = None) →
  persist (psch E)
    (declared (psch E) (copied E skip (plain (ssch E) g o)) ∪ load g' D) !! k
  = Some s.
Proof.
  intros HD Hfit Hk. rewrite persist_lookup, lookup_union_r.
  - rewrite load_lookup, HD. simpl. by apply fits_roundtrip.
  - rewrite declared_lookup. case_bool_decide; [|done].
    rewrite copied_lookup. case_bool_decide as Hc; [|done].
    destruct Hc as (? & ? & ?).
    destruct Hk as [?|[?|[?|Hn]]]; try done.
    by rewrite plain_persist, Hn.
Qed.

Ltac promotion_script E inv runs unfold_outer unfold_promote skip_branch :=
  intros Hwf d w w1 vs v a A Hsnap Hor Hto Hconf Ha HA Hf w'; subst w';
  pose proof Hwf as ((Hpid & Hsid & Hvid & Hvof & Hvi & Hvo) & Hnov & Hmir);
  pose proof (inv _ _ _ _ _ Hsnap) as (Hm & Hsv & Hp1 & Hc1 & v' & Hor' & Hid & Hsh);
  assert (v' = v) as -> by congruence;
  unfold_outer; unfold bind; rewrite Hsnap;
  unfold bind;
  rewrite toObject_run by done;
  rewrite (findById_hit (primaryModel E) _ a A)
    by (done || quiet || by rewrite <- Hp1 in HA);
  unfold ret;
  lazymatch goal with
  | |- context [found (primaryModel E) ?g a A] =>
      assert (Hptr : js_toString (mget (found (primaryModel E) g a A) (versionIdPath E))
                     = pointer E a A) by (apply found_pointer; eauto);
      assert (Hb : js_toString (get (props vs) "_id") = Some v)
        by (destruct (get (props vs) "_id"); simplify_eq/=; done);
      split; [|split];
      [ intros Hne; unfold_promote; unfold bind, toString; rewrite Hptr;
        destruct (pointer E a A) as [p|]; simpl; [|done];
        rewrite (mget_declared vs) by (rewrite Hm; simpl; eauto);
        rewrite Hb; simpl;
        assert (p ≠ v) by (intros ->; by apply Hne);
        skip_branch; done
      | intros p Hp Hne; unfold_promote; unfold bind, toString; rewrite Hptr, Hp; simpl;
        rewrite (mget_declared vs) by (rewrite Hm; simpl; eauto);
        rewrite Hb; simpl; skip_branch; simpl; by rewrite Hc1
      | intros Hp;
        lazymatch goal with
        | |- context [?promote E vs (found (primaryModel E) g a A) ?w2] =>
            destruct (runs E vs (found (primaryModel E) g a A) v a g w2)
              as (w' & -> & Hpr & _);
            [ split; done | done | done | done | done | done | done | done
            | apply found_props_id
            | by left
            | rewrite <- (mget_declared (found (primaryModel E) g a A))
                by (simpl; eauto); congruence
            | intros k x; by apply copied_declared
            | quiet
            | simpl; rewrite Hpr; simpl; rewrite Hp1;
              eexists; split; [reflexivity|]; split;
              [ intros k s Hk1 Hk2 Hk3 Hs; by apply copied_field
              | intros k s Hk1 Hk2 Hk3; by apply kept_field ] ]
        end ]
  end.

Lemma index_promotion_rule E :
  well_formed E → promotion_rule E None Index.saveSnapshot Index.saveVersion.
Proof.
  promotion_script E index_saveSnapshot_inv index_promote_runs
    ltac:(unfold Index.saveVersion, Index.onVersionSaved) ltac:(unfold Index.promote)
    ltac:(rewrite bool_decide_eq_true_2 by done).
Qed.


Lemma persist_as_fits t v s : persist_as t v = Some s → fits t s = true.
Proof. destruct t, v; simpl; intros; simplify_eq; done. Qed.

(** Fields under declared names persist as a document of the schema. *)
Lemma conforms_persist sch (o : obj) :
  (∀ k, is_Some (o !! k) → is_Some (sch !! k)) → conforms sch (persist sch o).
Proof.
  intros Hk k s. rewrite persist_lookup.
  destruct (o !! k) as [x|] eqn:Hx; simpl; [|done].
  intros Hs. split; [by apply Hk|by eapply persist_as_fits].
Qed.

Lemma conforms_the_doc sch i d :
  sch !! "_id" = Some oid_field → conforms sch d → conforms sch (the_doc i d).
Proof.
  intros Hid Hc k s. unfold the_doc.
  destruct (decide (k = "_id")) as [->|Hne].
  - rewrite lookup_insert_eq. intros; simplify_eq.
    split; [eauto|]. unfold type_of. by rewrite Hid.
  - rewrite lookup_insert_ne by done. apply Hc.
Qed.

Lemma snapshot_run data w :
  strict_eq (VStr "function") (get data "toObject") = false →
  Index.snapshot data w = (Done data, w).
Proof. unfold Index.snapshot. by intros ->. Qed.

(** The first half of [saveVersion] when [versionId] names a stored
    Version Record: its fields are overwritten from [data] and saved. *)
Lemma index_saveSnapshot_overwrite E d v V w :
  linked E →
  cast_oid (versionId d) = Some v → shadow w !! v = Some V → faults w = [] →
  strict_eq (VStr "function") (get (data d) "toObject") = false →
  data d !! "_id" = None →
  let versDoc :=
    mset (assign_all (data d) (found (shadowModel E) (gen w) v V)) "versionOfId"
         (if truthy (versionOfId d) then versionOfId d else VNull) in
  callable (own versDoc) "save" = true →
  Index.saveSnapshot E d w
  = (Done (Ok (MDoc (shadowModel E) (Some v) (props versDoc) (own versDoc))),
     set_store Shadow (<[v := persist (ssch E) (props versDoc)]> (shadow w))
       (ticked (Write Shadow v) (bumped (ticked (Find Shadow) w)))).
Proof.
  intros (Hpid & Hsid & Hvid & Hvof & Hvi & Hvo) Hc HV Hf Hg Hid versDoc Hsv.
  unfold Index.saveSnapshot, bind.
  rewrite (findById_hit (shadowModel E) _ v V) by done.
  rewrite snapshot_run by done. unfold ret.
  fold versDoc.
  assert (Hm : mmodel versDoc = shadowModel E) by (unfold versDoc; by rewrite mset_model).
  assert (Ho : origin versDoc = Some v).
  { unfold versDoc, mset. by case_bool_decide. }
  assert (Hi : cast_oid (get (props versDoc) "_id") = Some v).
  { assert (Hbase : (declared (ssch E) (data d) ∪ load (gen w) (the_doc v V)) !! "_id"
                    = Some (VId (gen w) "_id" v)).
    { rewrite lookup_union_r.
      - rewrite load_lookup. unfold the_doc. by rewrite lookup_insert_eq.
      - rewrite declared_lookup, Hid. by case_bool_decide. }
    unfold versDoc, mset, get. case_bool_decide; simpl.
    + rewrite lookup_insert_ne by done. by rewrite Hbase.
    + by rewrite Hbase. }
  rewrite (save_update versDoc v) by (done || quiet).
  by rewrite Hm.
Qed.

Lemma mset_origin d k v : origin (mset d k v) = origin d.
Proof. unfold mset. by case_bool_decide. Qed.

Lemma mset_props_lookup d k v k' :
  k' ≠ k → props (mset d k v) !! k' = props d !! k'.
Proof.
  intros Hne. unfold mset. case_bool_decide; simpl; [|done].
  by rewrite lookup_insert_ne.
Qed.

Lemma mset_props_key d k v k' x :
  props (mset d k v) !! k' = Some x →
  (k' = k ∧ is_Some (msch (mmodel d) !! k)) ∨ props d !! k' = Some x.
Proof.
  unfold mset. case_bool_decide; simpl; [|by right].
  destruct (decide (k' = k)) as [->|Hne].
  - left. done.
  - rewrite lookup_insert_ne by done. by right.
Qed.

Lemma mset_own_lookup d k v k' :
  k' ≠ k → own (mset d k v) !! k' = own d !! k'.
Proof.
  intros Hne. unfold mset. case_bool_decide; simpl; [done|].
  by rewrite lookup_insert_ne.
Qed.

Lemma next_oid_shadow w : shadow w !! next_oid w = None.
Proof.
  apply not_elem_of_dom. unfold next_oid.
  pose proof (is_fresh (issued w ∪ dom (primary w) ∪ dom (shadow w))). set_solver.
Qed.

Lemma next_oid_primary w : primary w !! next_oid w = None.
Proof.
  apply not_elem_of_dom. unfold next_oid.
  pose proof (is_fresh (issued w ∪ dom (primary w) ∪ dom (shadow w))). set_solver.
Qed.

Lemma remove_run d i w :
  callable (own d) "remove" = true →
  cast_oid (get (props d) "_id") = Some i → faults w = [] →
  remove d w
  = (Done (Ok tt),
     set_store (mcoll (mmodel d)) (delete i (store (mcoll (mmodel d)) w))
       (ticked (Remove (mcoll (mmodel d)) i) w)).
Proof.
  intros Hc Hi Hf. unfold remove, method, bind. rewrite Hc. simpl.
  rewrite Hi. unfold trip, read, write. rewrite Hf. simpl.
  by destruct (mcoll (mmodel d)).
Qed.

Lemma findOneAndUpdate_miss m q upd w :
  castable (msch m) q = true → faults w = [] →
  select (msch m) q (store (mcoll m) w) = [] →
  findOneAndUpdate m q upd w = (Done (Ok None), ticked (Modify (mcoll m)) w).
Proof.
  intros Hc Hf Hs. unfold findOneAndUpdate, bind, trip, read.
  rewrite Hc, Hf. simpl.
  replace (store (mcoll m) (ticked (Modify (mcoll m)) w)) with (store (mcoll m) w)
    by (by destruct (mcoll m)).
  by rewrite Hs.
Qed.

(** [new Model(data)] run: the document and the world it leaves. *)
Lemma new_doc_run m data w :
  new_doc m data w
  = (Done (MDoc m None
             (filter (λ kv, is_Some (msch m !! kv.1) ∧ kv.2 ≠ VUndef) data
              ∪ <["_id" := VId (gen w) "_id" (next_oid (bumped w))]>
                  (map_imap (λ k f, of_sval (gen w) k <$> fdefault f) (msch m)))
             ∅),
     issuing (next_oid (bumped w)) (bumped w)).
Proof. done. Qed.

(** The query of an update guarded by the version token selects only the
    document with that identifier and that active pointer. *)
Lemma guarded_query_matches sch vid a token t i (d : sdoc) :
  sch !! "_id" = Some oid_field → sch !! vid = Some oid_field → vid ≠ "_id" →
  cast_oid token = Some t →
  matches sch (<[vid := token]> {["_id" := VStr a]}) (the_doc i d) = true →
  i = a ∧ the_doc i d !! vid = Some (SId t).
Proof.
  intros Hid Hvid Hne Hc. unfold matches. rewrite bool_decide_eq_true.
  rewrite map_Forall_insert by (by rewrite lookup_singleton_ne).
  rewrite map_Forall_singleton. unfold match_field.
  rewrite (type_of_Some _ _ _ Hid), (type_of_Some _ _ _ Hvid). simpl.
  intros [Hv Hi]. rewrite bool_decide_eq_true in Hi.
  unfold the_doc in Hi. rewrite lookup_insert_eq in Hi. simplify_eq.
  split; [done|].
  destruct token; simplify_eq/=; by rewrite bool_decide_eq_true in Hv.
Qed.

Lemma guarded_query_castable sch vid a token t :
  sch !! "_id" = Some oid_field → sch !! vid = Some oid_field → vid ≠ "_id" →
  cast_oid token = Some t →
  castable sch (<[vid := token]> {["_id" := VStr a]}) = true.
Proof.
  intros Hid Hvid Hne Hc. unfold castable. rewrite bool_decide_eq_true.
  rewrite map_Forall_insert by (by rewrite lookup_singleton_ne).
  rewrite map_Forall_singleton.
  rewrite (type_of_Some _ _ _ Hid), (type_of_Some _ _ _ Hvid). simpl.
  split; [|eauto]. destruct token; simplify_eq/=; eauto.
Qed.


Lemma created_declared E g v body ide k :
  linked E → versionOfIdPath E = "versionOfId" →
  is_Some (created E g v body ide !! k) → is_Some (ssch E !! k).
Proof.
  intros (Hpid & Hsid & Hvid & Hvof & Hvi & Hvo) Hname. unfold created.
  destruct (decide (k = "versionOfId")) as [->|Hne]; [rewrite <- Hname; eauto|].
  rewrite lookup_insert_ne by done. intros [x Hx].
  apply lookup_union_Some_raw in Hx as [Hx|[_ Hx]].
  - apply map_lookup_filter_Some in Hx as [_ [Hd _]]. done.
  - destruct (decide (k = "_id")) as [->|Hni]; [eauto|].
    rewrite lookup_insert_ne in Hx by done.
    rewrite map_lookup_imap in Hx. destruct (ssch E !! k); [eauto|done].
Qed.

Lemma created_field E g v body ide k x :
  k ≠ "versionOfId" → is_Some (ssch E !! k) → body !! k = Some x → x ≠ VUndef →
  created E g v body ide !! k = Some x.
Proof.
  intros Hne Hd Hk Hx. unfold created. rewrite lookup_insert_ne by done.
  apply lookup_union_Some_l. apply map_lookup_filter_Some. done.
Qed.

Lemma persist_as_id t id h :
  cast_oid id = Some h → t = TObjectId → persist_as t id = Some (SId h).
Proof. intros Hc ->. destruct id; simplify_eq/=; done. Qed.

Lemma persist_as_defined t x s : persist_as t x = Some s → x ≠ VUndef.
Proof. by destruct x. Qed.


Lemma callable_empty name : callable ∅ name = true.
Proof. unfold callable. by rewrite lookup_empty. Qed.

(** [findOne] on the active pointer finds a document exactly when some
    Active Document references the version. *)
Lemma pointer_query E w id h :
  linked E → cast_oid id = Some h →
  (referenced E w h ↔
   select (psch E) {[versionIdPath E := id]} (primary w) ≠ []).
Proof.
  intros (Hpid & Hsid & Hvid & Hvof & Hvi & Hvo) Hc.
  assert (Ht : type_of (psch E) (versionIdPath E) = TObjectId)
    by (by rewrite (type_of_Some _ _ _ Hvid)).
  split.
  - intros (a & A & Ha & HA) Hs. rewrite select_nil in Hs.
    specialize (Hs _ _ Ha).
    apply (matches_pointer _ _ _ _ (the_doc a A) Ht Hc) in HA. congruence.
  - intros Hs. destruct (select _ _ _) as [|[i d] l] eqn:Hsel; [done|].
    apply select_cons in Hsel as [Ha Hm].
    apply (matches_pointer _ _ _ _ _ Ht Hc) in Hm. by exists i, d.
Qed.

Lemma deleteVersion_runs (E : env) (w : world) (id : value) (h : oid) :
  linked E → cast_oid id = Some h →
  let w' := (Index.deleteVersion E id w).2 in
  (referenced E w h → shadow w' = shadow w) ∧
  (faults w = [] →
     (referenced E w h →
        calls w' = calls w ++ [(ANull, AStatus false)]) ∧
     (¬ referenced E w h → shadow w !! h = None →
        shadow w' = shadow w ∧ calls w' = calls w ++ [(ANull, AStatus false)]) ∧
     (¬ referenced E w h → is_Some (shadow w !! h) →
        shadow w' = delete h (shadow w) ∧
        calls w' = calls w ++ [(ANull, AStatus true)])).
Proof.
  intros Hl Hc w'. subst w'.
  pose proof (pointer_query E w id h Hl Hc) as Hq.
  unfold Index.deleteVersion, findOne, bind.
  rewrite (castable_pointer _ _ _ _ Hc).
  unfold trip, read, ret. cbn [primaryModel mcoll msch store].
  destruct (faults w) as [|[e|] fs] eqn:Hf; cbn beta iota;
    change (primary (ticked (Find Primary) w)) with (primary w);
    [ | by split | ];
    (destruct (select (psch E) {[versionIdPath E := id]} (primary w))
      as [|[i d] l] eqn:Hs;
     [ assert (Hnr : ¬ referenced E w h) by (rewrite Hq; by intros [])
     | assert (Hr : referenced E w h) by (rewrite Hq; by intros ?) ]).
  - split; [done|]. intros _. split; [done|].
    split.
    + intros _ Hn.
      rewrite (findById_miss (shadowModel E) id h) by (done || quiet). done.
    + intros _ [V HV].
      rewrite (findById_hit (shadowModel E) id h V) by (done || quiet).
      rewrite (remove_run _ h); [done | apply callable_empty | | quiet].
      by rewrite found_props_id.
  - split; [done|]. intros _. repeat split; done.
  - split; [done|]. intros ?; simplify_eq.
  - split; [done|]. intros ?; simplify_eq.
Qed.

Lemma activateVersion_runs (E : env) (w : world) (id : value) (h : oid) :
  well_formed E → cast_oid id = Some h → faults w = [] →
  let w' := (Index.activateVersion E id w).2 in
  (shadow w !! h = None → failure w w') ∧
  (∀ V a, shadow w !! h = Some V →
          V !! versionOfIdPath E = Some (SId a) → primary w !! a = None →
          failure w w') ∧
  (∀ V a A, shadow w !! h = Some V → conforms (ssch E) V →
            V !! versionOfIdPath E = Some (SId a) → primary w !! a = Some A →
     ∃ saved A',
       calls w' = calls w ++ [(ANull, ADoc saved)] ∧
       origin saved = Some a ∧ persist (psch E) (props saved) = A' ∧
       primary w' = <[a := A']> (primary w) ∧ shadow w' = shadow w ∧
       A' !! versionIdPath E = Some (SId h) ∧
       ∀ k s, k ≠ "_id" → k ≠ versionOfIdPath E → k ≠ versionIdPath E →
              V !! k = Some s → A' !! k = Some s).
Proof.
  intros ((Hpid & Hsid & Hvid & Hvof & Hvi & Hvo) & Hnov & Hmir) Hc Hf w'. subst w'.
  unfold Index.activateVersion.
  split; [|split].
  - intros Hn. unfold bind. 
    rewrite (findById_miss (shadowModel E) id h w Hc Hf Hn). simpl. done.
  - intros V a HV Hb Ha. unfold bind.
    rewrite (findById_hit (shadowModel E) id h V w Hc Hf HV).
    set (result := found (shadowModel E) (gen w) h V).
    assert (Hback : mget result (versionOfIdPath E) = VId (gen w) (versionOfIdPath E) a).
    { unfold mget, result. simpl. rewrite Hvof. 
      rewrite bool_decide_eq_true_2 by eauto.
      unfold get. rewrite load_lookup. unfold the_doc.
      rewrite lookup_insert_ne by done. by rewrite Hb. }
    rewrite Hback.
    rewrite (findById_miss (primaryModel E) _ a) by (done || quiet). done.
  - intros V a A HV Hconf Hb Ha. unfold bind.
    rewrite (findById_hit (shadowModel E) id h V w Hc Hf HV).
    set (result := found (shadowModel E) (gen w) h V).
    assert (Hback : mget result (versionOfIdPath E) = VId (gen w) (versionOfIdPath E) a).
    { unfold mget, result. simpl. rewrite Hvof. 
      rewrite bool_decide_eq_true_2 by eauto.
      unfold get. rewrite load_lookup. unfold the_doc.
      rewrite lookup_insert_ne by done. by rewrite Hb. }
    rewrite Hback.
    rewrite (findById_hit (primaryModel E) _ a A) by (done || quiet). 
    rewrite toObject_run by apply callable_empty.
    set (w2 := bumped (bumped _)).
    set (versDocObj := plain _ _ _).
    set (active := mset _ _ _).
    assert (Hcop : ∀ k v, copied E None versDocObj !! k = Some v → is_Some (psch E !! k)).
    { intros k v. rewrite copied_lookup. case_bool_decide as Hk; [|done].
      destruct Hk as (Hk1 & Hk2 & _).
      unfold versDocObj. rewrite plain_lookup. unfold result; simpl.
      rewrite load_lookup. unfold the_doc. rewrite lookup_insert_ne by done.
      destruct (V !! k) as [s|] eqn:HVk; [|done]. 
      destruct (Hconf k s HVk) as [[f Hfk] _]. 
      destruct (Hmir k f Hfk) as [?|[?|Hp]]; [done|done|]. 
      intros _. eauto. }
    assert (Hprops : props active = <[versionIdPath E := id]> (declared (psch E) (copied E None versDocObj) ∪ load (gen (bumped (ticked (Find Shadow) w))) (the_doc a A))).
    { unfold active, mset. simpl. rewrite Hvid. by rewrite bool_decide_eq_true_2 by eauto. }
    assert (Hown : own active = undeclared (psch E) (copied E None versDocObj) ∪ ∅).
    { unfold active, mset. simpl. rewrite Hvid. by rewrite bool_decide_eq_true_2 by eauto. }
    assert (Horig : origin active = Some a).
    { unfold active, mset. simpl. rewrite Hvid. by rewrite bool_decide_eq_true_2 by eauto. }
    assert (Hmod : mmodel active = primaryModel E).
    { unfold active, mset. simpl. rewrite Hvid. by rewrite bool_decide_eq_true_2 by eauto. }
    assert (Hcall : callable (own active) "save" = true).
    { apply callable_None. rewrite Hown. rewrite right_id by apply _.
      rewrite undeclared_lookup. case_bool_decide as Hs; [|done].
      destruct (copied E None versDocObj !! "save") eqn:Hcs; [|done].
      destruct (Hcop _ _ Hcs) as [? ?]. congruence. }
    assert (Hid : cast_oid (get (props active) "_id") = Some a).
    { rewrite Hprops. unfold get. rewrite lookup_insert_ne by done.
      rewrite lookup_union_r.
      - rewrite load_lookup. unfold the_doc. by rewrite lookup_insert_eq.
      - rewrite declared_lookup, copied_lookup. 
        rewrite (bool_decide_eq_false_2 (_ ∧ _)) by (by intros [? ?]).
        by case_bool_decide. }
    rewrite (save_update active a w2 Hcall Hid Horig) by (unfold w2; quiet).
    rewrite Hmod. simpl.
    eexists _, _. split; [reflexivity|]. split; [done|]. split; [reflexivity|].
    split; [done|]. split; [done|].
    split.
    + cbn [props]. rewrite persist_lookup, Hprops, lookup_insert_eq. simpl.
      apply persist_as_id; [done|]. by rewrite (type_of_Some _ _ _ Hvid).
    + intros k s Hk1 Hk2 Hk3 HVk.
      destruct (Hconf k s HVk) as [[f Hfk] Hfit].
      destruct (Hmir k f Hfk) as [?|[?|Hp]]; [done|done|]. 
      assert (Hvd : versDocObj !! k = Some (of_sval (N.succ (N.succ (gen w))) k s)).
      { unfold versDocObj. rewrite plain_lookup. unfold result; simpl.
        rewrite load_lookup. unfold the_doc. rewrite lookup_insert_ne by done.
        rewrite HVk. simpl. by rewrite fits_roundtrip by done. }
      cbn [props]. rewrite persist_lookup, Hprops, lookup_insert_ne by done.
      erewrite lookup_union_Some_l; last first.
      { rewrite declared_lookup, Hp. rewrite bool_decide_eq_true_2 by eauto.
        rewrite copied_lookup. rewrite bool_decide_eq_true_2 by done. exact Hvd. }
      simpl. apply fits_roundtrip.
      by rewrite (type_of_Some _ _ _ Hp), <- (type_of_Some _ _ _ Hfk).
Qed.

Lemma guard_false (body : obj) :
  get body "toObject" ≠ VStr "function" →
  strict_eq (VStr "function") (get body "toObject") = false.
Proof.
  intros Hne. destruct (get body "toObject"); simpl; try done.
  apply bool_decide_eq_false_2. congruence.
Qed.



Lemma linked_E0 : linked E0.
Proof. repeat split; done. Defined.

Lemma well_formed_E0 : well_formed E0.
Proof.
  split; [exact linked_E0|]. split; [done|].
  apply (bool_decide_unpack _). vm_compute. exact I.
Defined.

Lemma conforms_V1 : conforms (ssch E0) V1.
Proof. apply (bool_decide_unpack _). vm_compute. exact I. Defined.

(** * Properties of the protocol *)



(** C2: [deleteVersion] (src/index.js 367-407).  If some Active Document
    points at the version, the shadow collection is not modified, and when
    the store answers the caller receives [{success: false}].  If none
    does, the caller receives [{success: false}] when no such version
    exists, and otherwise the version is removed and the caller receives
    [{success: true}]. *)
Theorem deleteVersion_guards_active (E : env) (w : world) (id : value) (h : oid) :
  linked E → cast_oid id = Some h →
  let w' := (Index.deleteVersion E id w).2 in
  (referenced E w h → shadow w' = shadow w) ∧
  (faults w = [] →
     (referenced E w h →
        calls w' = calls w ++ [(ANull, AStatus false)]) ∧
     (¬ referenced E w h → shadow w !! h = None →
        shadow w' = shadow w ∧ calls w' = calls w ++ [(ANull, AStatus false)]) ∧
     (¬ referenced E w h → is_Some (shadow w !! h) →
        shadow w' = delete h (shadow w) ∧
        calls w' = calls w ++ [(ANull, AStatus true)])).
Proof. apply deleteVersion_runs. Qed.

(** [v1] is the active version of [a1]: it survives the call. *)
Lemma deleteVersion_guards_active_witness :
  linked E0 ∧ cast_oid (VStr "v1") = Some "v1" ∧ referenced E0 w0 "v1" ∧
  shadow (Index.deleteVersion E0 (VStr "v1") w0).2 = shadow w0 ∧
  calls (Index.deleteVersion E0 (VStr "v1") w0).2 = [(ANull, AStatus false)].
Proof.
  assert (Hr : referenced E0 w0 "v1") by (exists "a1", A1; split; reflexivity).
  destruct (deleteVersion_guards_active E0 w0 (VStr "v1") "v1" linked_E0 eq_refl)
    as [H1 H2].
  split; [exact linked_E0|]. split; [reflexivity|]. split; [exact Hr|].
  split; [exact (H1 Hr)|].
  destruct (H2 eq_refl) as [H3 _]. exact (H3 Hr).
Defined.





(** C5: [activateVersion] (src/index.js 420-465).  When no Version Record
    has the given id, or the Active Document it refers to does not exist,
    the caller receives a failure result and both collections are as
    before.  Otherwise the stored Active Document is overwritten in place
    and handed to the caller: its pointer is the given id, and every field
    of the Version Record other than [_id] and the two links has the
    record's value. *)
Theorem activateVersion_spec (E : env) (w : world) (id : value) (h : oid) :
  well_formed E → cast_oid id = Some h → faults w = [] →
  let w' := (Index.activateVersion E id w).2 in
  (shadow w !! h = None → failure w w') ∧
  (∀ V a, shadow w !! h = Some V →
          V !! versionOfIdPath E = Some (SId a) → primary w !! a = None →
          failure w w') ∧
  (∀ V a A, shadow w !! h = Some V → conforms (ssch E) V →
            V !! versionOfIdPath E = Some (SId a) → primary w !! a = Some A →
     ∃ saved A',
       calls w' = calls w ++ [(ANull, ADoc saved)] ∧
       origin saved = Some a ∧ persist (psch E) (props saved) = A' ∧
       primary w' = <[a := A']> (primary w) ∧ shadow w' = shadow w ∧
       A' !! versionIdPath E = Some (SId h) ∧
       ∀ k s, k ≠ "_id" → k ≠ versionOfIdPath E → k ≠ versionIdPath E →
              V !! k = Some s → A' !! k = Some s).
Proof. apply activateVersion_runs. Qed.

(** Activating [v1] at the running example. *)
Lemma activateVersion_spec_witness :
  well_formed E0 ∧ cast_oid (VStr "v1") = Some "v1" ∧ faults w0 = [] ∧
  ∃ saved A',
    calls (Index.activateVersion E0 (VStr "v1") w0).2 = [(ANull, ADoc saved)] ∧
    primary (Index.activateVersion E0 (VStr "v1") w0).2 = <["a1" := A']> (primary w0) ∧
    A' !! "versionId" = Some (SId "v1") ∧ A' !! "title" = Some (SStr "A").
Proof.
  split; [exact well_formed_E0|]. split; [reflexivity|]. split; [reflexivity|].
  destruct (activateVersion_spec E0 w0 (VStr "v1") "v1" well_formed_E0 eq_refl eq_refl)
    as (_ & _ & H3).
  destruct (H3 V1 "a1" A1 eq_refl conforms_V1 eq_refl eq_refl)
    as (saved & A' & Hc & _ & _ & Hp & _ & Hv & Hcopy).
  exists saved, A'. split; [exact Hc|]. split; [exact Hp|]. split; [exact Hv|].
  apply Hcopy; [discriminate|discriminate|discriminate|reflexivity].
Defined.




(** C7: the conflict branch of [upsertVersion] (src/unnamed/part_000
    408-430), outside append-only mode.  When the caller supplies a
    version token, the Active Document of that id exists, its pointer is
    not the token, and the store answers every round trip: the caller
    receives the "not up-to-date" error, the Active Document and both
    collections are as before, and the Version Record the call had just
    written is removed again. *)
Theorem upsert_conflict (E : env) (w : world) (dataObj : Fork.subject)
    (query : option obj) (a t : oid) (A : sdoc) :
  linked E → append_only E = false →
  match dataObj with
  | Fork.Plain _ => True
  | Fork.Instance d => callable (own d) "toObject" = true
  end →
  truthy (Fork.sget dataObj "_id") = true →
  js_toString (Fork.sget dataObj "_id") = Some a →
  truthy (Fork.sget dataObj (versionIdPath E)) = true →
  cast_oid (Fork.sget dataObj (versionIdPath E)) = Some t →
  primary w !! a = Some A → A !! versionIdPath E ≠ Some (SId t) →
  faults w = [] →
  let w' := (Fork.upsertVersion E dataObj query w).2 in
  calls w'
  = calls w ++
    [(AError ("Your copy of the data set with revision "
              +:+ js_concat (Fork.sget dataObj (versionIdPath E))
              +:+ " is not up-to-date, please refresh first, then try again."),
      AUndef)] ∧
  primary w' = primary w ∧ shadow w' = shadow w ∧
  ∃ i, shadow w !! i = None ∧
       trips w' = trips w ++ [Write Shadow i; Modify Primary; Remove Shadow i].
Proof.
  intros Hl Hao Hok Hti Hida Htt Htok HA Hmis Hf w'. subst w'.
  pose proof Hl as (Hpid & Hsid & Hvid & Hvof & Hvi & Hvo).
  unfold Fork.upsertVersion.
  rewrite Hti, Hao, Htt. cbn [negb andb].
  unfold Fork.create_shadow, bind.
  set (token := Fork.sget dataObj (versionIdPath E)) in *.
  assert (∃ input w0,
    match dataObj with
    | Fork.Instance d => toObject d
    | Fork.Plain o => ret o
    end w = (Done input, w0) ∧ untouched w w0 ∧ trips w0 = trips w
            ∧ issued w0 = issued w ∧ faults w0 = [])
    as (input & w0 & Hin & (Hp0 & Hs0 & Hc0) & Ht0 & Hi0 & Hf0).
  { destruct dataObj as [o|d].
    - by exists o, w.
    - rewrite toObject_run by done. by eexists _, _. }
  rewrite Hin.
  unfold ret. rewrite new_doc_run. unfold toString. rewrite Hida.
  unfold ret. cbn beta iota.
  rewrite mset_declared by (simpl; eauto). cbn [mmodel origin props own].
  set (i := next_oid (bumped w0)).
  set (versDoc := MDoc _ _ _ _).
  assert (Hid : get (props versDoc) "_id" = VId (gen w0) "_id" i).
  { unfold versDoc, get; simpl. rewrite lookup_insert_ne by done.
    rewrite lookup_union_r; [by rewrite lookup_insert_eq|].
    rewrite map_lookup_filter, lookup_delete_eq. done. }
  assert (Hfresh : shadow w0 !! i = None) by apply (next_oid_shadow (bumped w0)).
  rewrite (save_insert versDoc i); [| done | by rewrite Hid | done | done | quiet].
  cbn [mmodel mcoll msch shadowModel origin props own store].
  rewrite mget_declared by (simpl; eauto). cbn [props]. rewrite Hid.
  cbn [js_toString]. cbn beta iota.
  change (mmodel versDoc) with (shadowModel E).
  cbn [mcoll msch shadowModel store].
  set (q := <[versionIdPath E := token]> {["_id" := VStr a]}).
  rewrite (findOneAndUpdate_miss (primaryModel E) q); first last.
  - apply select_nil. intros j dj Hj.
    destruct (matches _ _ _) eqn:Hmt; [|done]. exfalso.
    eapply guarded_query_matches in Hmt as [-> Hp]; try done.
    simpl in Hj. rewrite Hp0, HA in Hj. simplify_eq.
    unfold the_doc in Hp. rewrite lookup_insert_ne in Hp by done. done.
  - simpl. by rewrite Hf0.
  - by eapply guarded_query_castable.
  - unfold Fork.discard, bind.
    rewrite (remove_run _ i); [| done | cbn [props]; by rewrite Hid | by simpl; rewrite Hf0].
    simpl. unfold q, get. rewrite lookup_insert_eq. simpl.
    rewrite delete_insert_id by done. rewrite Hp0, Hs0, Hc0, Ht0.
    repeat split; try done. exists i. split; [by rewrite <- Hs0|].
    by rewrite <- !app_assoc.
Qed.

(** A stale token at the running example. *)
Lemma upsert_conflict_witness :
  linked flagged ∧ append_only flagged = false ∧
  let dataObj :=
    Fork.Plain (<["_id" := VStr "a1"]>
                  (<["versionId" := VStr "stale"]> title_B)) in
  let w' := (Fork.upsertVersion flagged dataObj None w0).2 in
  calls w'
  = [(AError "Your copy of the data set with revision stale is not up-to-date, please refresh first, then try again.",
      AUndef)] ∧
  primary w' = primary w0 ∧ shadow w' = shadow w0.
Proof.
  assert (Hl : linked flagged) by (repeat split; done).
  split; [exact Hl|]. split; [reflexivity|]. cbv zeta.
  destruct (upsert_conflict flagged w0
              (Fork.Plain (<["_id" := VStr "a1"]>
                             (<["versionId" := VStr "stale"]> title_B)))
              None "a1" "stale" A1 Hl eq_refl I)
    as (Hc & Hp & Hs & _).
  - vm_compute. reflexivity.
  - vm_compute. reflexivity.
  - vm_compute. reflexivity.
  - vm_compute. reflexivity.
  - reflexivity.
  - vm_compute. discriminate.
  - reflexivity.
  - split; [exact Hc|]. split; [exact Hp|exact Hs].
Defined.

(** C8: editing the active version (src/index.js).  When the Active
    Document [a] points at version [v], [saveVersion] with
    [{title: "B"}], [versionId = v] and [versionOfId = a] leaves [a] with
    title ["B"] and its pointer still at [v]. *)
Theorem edit_of_active_version (E : env) (w : world) (idv ida : value)
    (v a : oid) (A V : sdoc) (f : field) :
  well_formed E →
  cast_oid idv = Some v → cast_oid ida = Some a →
  primary w !! a = Some A → A !! versionIdPath E = Some (SId v) →
  shadow w !! v = Some V → conforms (ssch E) V →
  ssch E !! "title" = Some f → ftyp f = TOther →
  faults w = [] →
  let w' := (Index.saveVersion E (DataObj {["title" := VStr "B"]} idv ida) w).2 in
  ∃ A', primary w' !! a = Some A' ∧
        A' !! "title" = Some (SStr "B") ∧
        A' !! versionIdPath E = Some (SId v).
Proof.
  intros Hwf Hcv Hca HA Hptr HV Hconf Htitle Hty Hf w'. subst w'.
  pose proof Hwf as (Hl & Hnov & Hmir).
  pose proof Hl as (Hpid & Hsid & Hvid & Hvof & Hvi & Hvo).
  set (d := DataObj {["title" := VStr "B"]} idv ida).
  set (versDoc :=
    mset (assign_all (data d) (found (shadowModel E) (gen w) v V)) "versionOfId"
         (if truthy (versionOfId d) then versionOfId d else VNull)).
  assert (Hown : ∀ name, name ≠ "versionOfId" → own versDoc !! name = None).
  { intros name Hne. unfold versDoc. rewrite mset_own_lookup by done.
    unfold assign_all; simpl. rewrite right_id by apply _.
    rewrite undeclared_lookup. case_bool_decide as Hu; [|done].
    destruct (decide (name = "title")) as [->|Hnt]; [congruence|].
    by rewrite lookup_singleton_ne. }
  assert (Hsnap := index_saveSnapshot_overwrite E d v V w Hl Hcv HV Hf).
  cbv zeta in Hsnap. fold versDoc in Hsnap.
  specialize (Hsnap eq_refl eq_refl (callable_None _ _ (Hown "save" ltac:(done)))).
  set (vs := MDoc _ _ _ _) in Hsnap. set (w1 := set_store _ _ _) in Hsnap.
  assert (Hprops : ∀ k x, props versDoc !! k = Some x → is_Some (ssch E !! k)).
  { intros k x Hk. unfold versDoc in Hk.
    apply mset_props_key in Hk as [[-> Hd]|Hk]; [done|].
    unfold assign_all in Hk; simpl in Hk.
    apply lookup_union_Some_raw in Hk as [Hk|[_ Hk]].
    - rewrite declared_lookup in Hk. by case_bool_decide.
    - rewrite load_lookup in Hk.
      destruct (the_doc v V !! k) as [s|] eqn:Hs; [|done].
      by destruct (conforms_the_doc _ v V Hsid Hconf k s Hs). }
  assert (Hnovid : props versDoc !! versionIdPath E = None).
  { destruct (props versDoc !! versionIdPath E) eqn:Hk; [|done].
    destruct (Hprops _ _ Hk) as [? ?]. congruence. }
  assert (Hne : "title" ≠ versionOfIdPath E).
  { intros Heq. rewrite <- Heq in Hvof. rewrite Htitle in Hvof.
    by simplify_eq. }
  assert (Htit : props versDoc !! "title" = Some (VStr "B")).
  { unfold versDoc. rewrite mset_props_lookup by done.
    unfold assign_all; simpl. apply lookup_union_Some_l.
    rewrite declared_lookup, Htitle. rewrite bool_decide_eq_true_2 by eauto.
    by rewrite lookup_singleton_eq. }
  destruct (index_promotion_rule E Hwf d w w1 vs v a A Hsnap) as (_ & _ & Hpro);
    try done.
  - apply callable_None. apply Hown. done.
  - apply conforms_persist. intros k [x Hk]. by eapply Hprops.
  - unfold w1. quiet.
  - destruct Hpro as (A' & Hprim & Hcopy & Hkeep).
    + unfold pointer, the_doc. rewrite lookup_insert_ne by done. by rewrite Hptr.
    + exists A'. split; [|split].
      * rewrite Hprim. by rewrite lookup_insert_eq.
      * apply Hcopy; try done. simpl. rewrite persist_lookup, Htit. simpl.
        by rewrite (type_of_Some _ _ _ Htitle), Hty.
      * apply Hkeep.
        -- unfold the_doc. by rewrite lookup_insert_ne.
        -- by rewrite (type_of_Some _ _ _ Hvid).
        -- right; right; right. simpl. by rewrite persist_lookup, Hnovid.
Qed.

(** Scenario 2 at the running example. *)
Lemma edit_of_active_version_witness :
  well_formed E0 ∧ primary w0 !! "a1" = Some A1 ∧
  A1 !! versionIdPath E0 = Some (SId "v1") ∧ shadow w0 !! "v1" = Some V1 ∧
  ∃ A', primary (Index.saveVersion E0 (DataObj {["title" := VStr "B"]}
                                         (VStr "v1") (VStr "a1")) w0).2
          !! "a1" = Some A' ∧
        A' !! "title" = Some (SStr "B") ∧
        A' !! versionIdPath E0 = Some (SId "v1").
Proof.
  split; [exact well_formed_E0|]. split; [reflexivity|]. split; [reflexivity|].
  split; [reflexivity|].
  apply (edit_of_active_version E0 w0 (VStr "v1") (VStr "a1") "v1" "a1" A1 V1
           (Field TOther (Some (SStr "Untitled"))) well_formed_E0);
    try reflexivity.
  exact conforms_V1.
Defined.

(** C9: the flagged branch of [deleteOriginal] (src/unnamed/part_000
    482-497) when the removal of the Active Document fails.  The branch
    evaluates [versSaved.remove()], and no [versSaved] is in scope there:
    the call throws a ReferenceError and the caller's callback is never
    invoked, so the store error is lost.  The append-only branch next to
    it hands the same error to the caller once. *)
Theorem flagged_delete_loses_store_error :
  let q : obj := <["_id" := VStr "a1"]> {["versionId" := VStr "v1"]} in
  (Fork.deleteOriginal flagged q None w_fail).1
  = Threw (ReferenceError "versSaved is not defined") ∧
  calls (Fork.deleteOriginal flagged q None w_fail).2 = [] ∧
  trips (Fork.deleteOriginal flagged q None w_fail).2
  = [Find Primary; Modify Shadow; RemoveAll Primary] ∧
  calls (Fork.deleteOriginal appending q None w_fail).2
  = [(AError "remove failed", AUndef)].
Proof. cbv zeta. repeat split; vm_compute; reflexivity. Qed.

(** C10 as stated fails: the guard is true for [{toObject: "function"}],
    and the guarded branch is entered. *)
Lemma snapshot_guard_reached :
  let body : obj := {["toObject" := VStr "function"]} in
  strict_eq (VStr "function") (get body "toObject") = true ∧
  Index.snapshot body w0 = Index.call_toObject body w0 ∧
  Index.snapshot body w0
  = (Threw (TypeError "data.toObject is not a function"), w0).
Proof. cbv zeta. repeat split; vm_compute; reflexivity. Qed.

(** C10, amended: the [toObject] guard of [saveVersion] (src/index.js
    282-296).  The guard holds exactly when [data.toObject] is the string
    ["function"], and the call it guards then throws a TypeError; for all
    other data, model instances included, [data] is used as it is.  No
    input is ever converted. *)
Theorem snapshot_never_converts (body : obj) (w : world) :
  Index.snapshot body w
  = if bool_decide (get body "toObject" = VStr "function")
    then (Threw (TypeError "data.toObject is not a function"), w)
    else (Done body, w).
Proof.
  unfold Index.snapshot, Index.call_toObject.
  case_bool_decide as Hg.
  - rewrite Hg. simpl. done.
  - destruct (get body "toObject"); simpl; try done.
    case_bool_decide; [congruence|done].
Qed.

(** * Facts about the remaining methods *)

(** ** The query methods *)

Lemma find_run m q w :
  castable (msch m) q = true → faults w = [] →
  find m q w
  = (Done (Ok ((λ p, found m (gen w) p.1 p.2)
                 <$> select (msch m) q (store (mcoll m) w))),
     bumped (ticked (Find (mcoll m)) w)).
Proof.
  intros Hc Hf. unfold find. rewrite Hc. unfold bind, trip, read, alloc, ret.
  rewrite Hf. by destruct (mcoll m).
Qed.

Lemma find_inv {m q w} r w' :
  find m q w = (r, w') → untouched w w' ∧ ∃ x, r = Done x.
Proof.
  unfold find, bind, trip, read, alloc, ret.
  destruct (castable _ _); [|intros [= <- <-]; split; [apply untouched_refl|eauto]].
  destruct (faults w) as [|[e|] fs]; intros [= <- <-]; (split; [done|eauto]).
Qed.

Lemma elem_of_select sch q (c : gmap oid sdoc) i d :
  (i, d) ∈ select sch q c ↔ c !! i = Some d ∧ matches sch q (the_doc i d) = true.
Proof.
  unfold select. rewrite list_elem_of_filter, elem_of_map_to_list. simpl. tauto.
Qed.

Lemma NoDup_select sch q (c : gmap oid sdoc) : NoDup (select sch q c).
Proof. apply NoDup_filter, NoDup_map_to_list. Qed.

Ltac lists_script unfold_it :=
  intros (Hpid & Hsid & Hvid & Hvof & Hvi & Hvo) w id a Hc Hf;
  assert (Ht : type_of (ssch _) (versionOfIdPath _) = TObjectId)
    by (by rewrite (type_of_Some _ _ _ Hvof));
  unfold_it; unfold bind; split;
  [ intros Hn; by rewrite (findById_miss (primaryModel _) id a w Hc Hf Hn)
  | intros A HA;
    rewrite (findById_hit (primaryModel _) id a A w Hc Hf HA);
    rewrite mget_declared by (simpl; eauto);
    rewrite found_props_id;
    rewrite find_run by (first [by eapply castable_pointer | quiet]);
    simpl;
    eexists _, _; split; [reflexivity|];
    split; [by apply found_pointer; eauto|];
    split; [apply NoDup_select|];
    intros v V; rewrite elem_of_select;
    rewrite (matches_pointer _ _ (VId _ _ a) a (the_doc v V) Ht eq_refl);
    unfold the_doc; by rewrite lookup_insert_ne by done ].

Lemma index_lists_versions E : linked E → lists_versions E Index.findVersions.
Proof. lists_script ltac:(unfold Index.findVersions). Qed.

Lemma fork_lists_versions E : linked E → lists_versions E Fork.findVersions.
Proof. lists_script ltac:(unfold Fork.findVersions). Qed.

Lemma findById_done m id w : ∃ x, (findById m id w).1 = Done x.
Proof.
  unfold findById, bind, trip, read, alloc, ret.
  destruct (query_val _ _) as [s|]; [|simpl; eauto].
  destruct (faults w) as [|[e|] fs]; simpl; eauto;
    destruct s; simpl; eauto;
    destruct (store _ _ !! _); simpl; eauto.
Qed.

Lemma findById_reads m id : reads_only (findById m id).
Proof.
  intros w. split; [|apply findById_done].
  destruct (findById m id w) as [r w'] eqn:Hrun.
  by apply findById_inv in Hrun as [? _].
Qed.

Lemma find_reads m q : reads_only (find m q).
Proof.
  intros w. destruct (find m q w) as [r w'] eqn:Hrun.
  by apply find_inv in Hrun.
Qed.

Ltac findVersions_reads :=
  intros w; unfold bind;
  lazymatch goal with
  | |- context [findById ?m ?id w] =>
      destruct (findById_reads m id w) as [Hu [x Hx]];
      destruct (findById m id w) as [r w1]; simpl in Hx; subst r;
      destruct x as [e|[d|]]; simpl; [eauto| |eauto];
      lazymatch goal with
      | |- context [find ?m' ?q w1] =>
          destruct (find_reads m' q w1) as [Hu' [y Hy]];
          destruct (find m' q w1) as [r w2]; simpl in Hy; subst r;
          destruct y; simpl; (split; [by eapply untouched_trans|eauto])
      end
  end.

Lemma index_findVersions_reads E id : reads_only (Index.findVersions E id).
Proof. unfold Index.findVersions. findVersions_reads. Qed.

Lemma fork_findVersions_reads E id : reads_only (Fork.findVersions E id).
Proof. unfold Fork.findVersions. findVersions_reads. Qed.

(** ** [deleteVersion] under any fault plan *)

Lemma findOne_reads m q : reads_only (findOne m q).
Proof.
  intros w. unfold findOne, bind, trip, read, alloc, ret.
  destruct (castable _ _); [|split; [apply untouched_refl|simpl; eauto]].
  destruct (faults w) as [|[e|] fs]; simpl; try (split; [done|eauto]);
    destruct (select _ _ _) as [|[i d] l]; simpl; (split; [done|eauto]).
Qed.

Lemma findById_found m id w d w' :
  findById m id w = (Done (Ok (Some d)), w') →
  untouched w w' ∧ mmodel d = m ∧ own d = ∅ ∧
  ∃ i, cast_oid id = Some i ∧ cast_oid (get (props d) "_id") = Some i ∧
       origin d = Some i ∧ is_Some (store (mcoll m) w !! i).
Proof.
  unfold findById, bind, trip, read, alloc, ret.
  destruct (query_val _ _) as [s|] eqn:Hq; [|done].
  destruct (faults w) as [|[e|] fs]; try done;
    destruct s; try done;
    destruct (store _ _ !! _) eqn:Hs; try done;
    intros [= <- <-]; (split; [done|]; split; [done|]; split; [done|]);
    exists h; rewrite found_props_id;
    (split; [|split; [done|split; [done|]]]);
    try (destruct id; simpl in Hq; try done; by simplify_eq);
    destruct (mcoll m); simpl in *; eauto.
Qed.

Lemma remove_shadow d w i :
  mcoll (mmodel d) = Shadow → own d = ∅ →
  cast_oid (get (props d) "_id") = Some i →
  calls (remove d w).2 = calls w ∧
  primary (remove d w).2 = primary w ∧
  ((∃ e, (remove d w).1 = Done (Fail e) ∧ shadow (remove d w).2 = shadow w) ∨
   ((remove d w).1 = Done (Ok tt) ∧
    shadow (remove d w).2 = delete i (shadow w))).
Proof.
  intros Hm Ho Hi. unfold remove, method, bind, trip, read, write, ret.
  rewrite Ho, callable_empty, Hi, Hm. simpl.
  destruct (faults w) as [|[e|] fs]; simpl; eauto 10.
Qed.

(** The fork's [deleteVersion] has the branches of src/index.js in another
    order. *)
Lemma fork_deleteVersion_eq E id w :
  Fork.deleteVersion E id w = Index.deleteVersion E id w.
Proof.
  unfold Fork.deleteVersion, Index.deleteVersion, bind.
  destruct (findOne _ _ w) as [[[e|[d|]]|e] w1]; reflexivity.
Qed.

Lemma index_reports_deletion : reports_deletion Index.deleteVersion.
Proof.
  intros E id w. unfold Index.deleteVersion, bind.
  destruct (findOne_reads (primaryModel E) {[versionIdPath E := id]} w)
    as [(Hp1 & Hs1 & Hc1) [x Hx]].
  destruct (findOne _ _ w) as [r w1]. simpl in Hx, Hp1, Hs1, Hc1. subst r.
  destruct x as [e|[d|]]; simpl;
    try (rewrite ?Hp1, ?Hs1, ?Hc1; split; [done|]; split; [done|];
         eexists _, _; split; [reflexivity|]; simpl; by eauto).
  destruct (findById_reads (shadowModel E) id w1) as [(Hp2 & Hs2 & Hc2) [y Hy]].
  destruct (findById _ _ w1) as [r w2] eqn:Hrun.
  simpl in Hy, Hp2, Hs2, Hc2. subst r.
  destruct y as [e|[version|]]; simpl;
    try (rewrite ?Hp2, ?Hs2, ?Hc2, ?Hp1, ?Hs1, ?Hc1;
         split; [done|]; split; [done|];
         eexists _, _; split; [reflexivity|]; simpl; by eauto).
  apply findById_found in Hrun as (_ & Hm & Ho & i & Hci & Hpi & _ & Hin).
  simpl in Hin. rewrite Hs1 in Hin.
  destruct (remove_shadow version w2 i) as (Hc3 & Hp3 & Hs3);
    [by rewrite Hm|done|done|].
  destruct (remove version w2) as [r' w3]. simpl in Hc3, Hp3, Hs3.
  destruct Hs3 as [(msg & -> & Hs3) | [-> Hs3]]; simpl;
    rewrite ?Hc3, ?Hc2, ?Hc1, ?Hp3, ?Hp2, ?Hp1, ?Hs3, ?Hs2, ?Hs1;
    (split; [done|]); (split; [done|]);
    eexists _, _; (split; [reflexivity|]); simpl; eauto 10.
Qed.

Lemma fork_reports_deletion : reports_deletion Fork.deleteVersion.
Proof.
  intros E id w. rewrite fork_deleteVersion_eq. apply index_reports_deletion.
Qed.

(** ** [activateVersion] in the fork *)

Lemma found_backref E g h V a :
  linked E → V !! versionOfIdPath E = Some (SId a) →
  mget (found (shadowModel E) g h V) (versionOfIdPath E)
  = VId g (versionOfIdPath E) a.
Proof.
  intros (Hpid & Hsid & Hvid & Hvof & Hvi & Hvo) Hb.
  unfold mget. simpl. rewrite Hvof.
  rewrite bool_decide_eq_true_2 by eauto.
  unfold get. rewrite load_lookup. unfold the_doc.
  rewrite lookup_insert_ne by done. by rewrite Hb.
Qed.


(** ** [saveVersion] creating *)

(** The first half of [saveVersion] when no version is named, whatever
    the entity it is given. *)
Lemma index_saveSnapshot_fresh E body ide w :
  linked E → versionOfIdPath E = "versionOfId" → faults w = [] →
  strict_eq (VStr "function") (get body "toObject") = false →
  body !! "_id" = None →
  let v := next_oid (bumped (ticked (Find Shadow) w)) in
  let ref := if truthy ide then ide else VNull in
  Index.saveSnapshot E (DataObj body VNull ide) w
  = (Done (Ok (MDoc (shadowModel E) (Some v) (created E (gen w) v body ref) ∅)),
     set_store Shadow
       (<[v := persist (ssch E) (created E (gen w) v body ref)]> (shadow w))
       (ticked (Write Shadow v)
          (issuing v (bumped (ticked (Find Shadow) w))))).
Proof.
  intros (Hpid & Hsid & Hvid & Hvof & Hvi & Hvo) Hname Hf Hg Hid v ref.
  unfold Index.saveSnapshot, bind. cbn [versionId data versionOfId].
  rewrite (findById_null (shadowModel E) VNull) by auto.
  rewrite snapshot_run by done. rewrite new_doc_run.
  rewrite mset_declared by (simpl; rewrite <- Hname; eauto).
  cbn [mmodel origin props own shadowModel mcoll msch gen ticked].
  fold v. fold ref. fold (created E (gen w) v body ref).
  set (versDoc := MDoc _ _ _ _).
  assert (Hi : get (props versDoc) "_id" = VId (gen w) "_id" v).
  { unfold versDoc, created, get; simpl. rewrite lookup_insert_ne by done.
    rewrite lookup_union_r; [by rewrite lookup_insert_eq|].
    rewrite map_lookup_filter, Hid. done. }
  rewrite (save_insert versDoc v); [done | done | by rewrite Hi | done | | quiet].
  apply (next_oid_shadow (bumped (ticked (Find Shadow) w))).
Qed.

(** ** Calls in sequence *)

Lemma findOne_quiet m q w : faults w = [] → faults (findOne m q w).2 = [].
Proof.
  intros Hf. unfold findOne, bind, trip, read, alloc, ret.
  destruct (castable _ _); [|done]. rewrite Hf. simpl.
  destruct (select _ _ _) as [|[i d] l]; simpl; by rewrite Hf.
Qed.

Lemma findById_quiet m id w : faults w = [] → faults (findById m id w).2 = [].
Proof.
  intros Hf. destruct (findById m id w) as [r w'] eqn:Hrun.
  apply findById_inv in Hrun as (_ & Hq & _). by apply Hq.
Qed.

Lemma save_quiet d w : faults w = [] → faults (save d w).2 = [].
Proof.
  intros Hf. destruct (save d w) as [r w'] eqn:Hrun.
  apply save_inv in Hrun as (_ & Hq & _). by apply Hq.
Qed.

Lemma remove_quiet d w : faults w = [] → faults (remove d w).2 = [].
Proof.
  intros Hf. unfold remove, method, bind, trip, read, write, ret, throw.
  destruct (callable _ _); [|done].
  destruct (cast_oid _); [|done]. rewrite Hf. simpl.
  destruct (mcoll _); simpl; by rewrite Hf.
Qed.

Lemma toObject_quiet d w : faults w = [] → faults (toObject d w).2 = [].
Proof.
  intros Hf. unfold toObject, method, bind, alloc, ret, throw.
  by destruct (callable _ _).
Qed.

Lemma index_deleteVersion_quiet E id w :
  faults w = [] → faults (Index.deleteVersion E id w).2 = [].
Proof.
  intros Hf. unfold Index.deleteVersion, bind.
  pose proof (findOne_quiet (primaryModel E) {[versionIdPath E := id]} w Hf) as H1.
  destruct (findOne _ _ w) as [[[e|[d|]]|e] w1]; simpl in *; try done.
  pose proof (findById_quiet (shadowModel E) id w1 H1) as H2.
  destruct (findById _ _ w1) as [[[e|[d|]]|e] w2]; simpl in *; try done.
  pose proof (remove_quiet d w2 H2) as H3.
  destruct (remove d w2) as [[[e|[]]|e] w3]; simpl in *; done.
Qed.

Lemma index_activateVersion_quiet E id w :
  faults w = [] → faults (Index.activateVersion E id w).2 = [].
Proof.
  intros Hf. unfold Index.activateVersion, bind.
  pose proof (findById_quiet (shadowModel E) id w Hf) as H1.
  destruct (findById _ _ w) as [[[e|[result|]]|e] w1]; simpl in *; try done.
  pose proof (findById_quiet (primaryModel E)
                (mget result (versionOfIdPath E)) w1 H1) as H2.
  destruct (findById _ _ w1) as [[[e|[active|]]|e] w2]; simpl in *; try done.
  pose proof (toObject_quiet result w2 H2) as H3.
  destruct (toObject result w2) as [[o|e] w3]; simpl in *; try done.
  match goal with
  | |- context [save ?d w3] =>
      pose proof (save_quiet d w3 H3) as H4;
      destruct (save d w3) as [[[e|saved]|e] w4]; simpl in *; done
  end.
Qed.

(** ** [upsertVersion] when it goes through *)

Lemma findOneAndUpdate_hit m q upd w i d l :
  castable (msch m) q = true → faults w = [] →
  select (msch m) q (store (mcoll m) w) = (i, d) :: l →
  let d' := delete "_id" (persist (msch m) (declared (msch m) upd))
            ∪ the_doc i d in
  findOneAndUpdate m q upd w
  = (Done (Ok (Some (found m (gen w) i d'))),
     bumped (set_store (mcoll m) (<[i := d']> (store (mcoll m) w))
               (ticked (Modify (mcoll m)) w))).
Proof.
  intros Hc Hf Hs d'. unfold findOneAndUpdate, bind, trip, read, write, alloc, ret.
  rewrite Hc, Hf. simpl.
  replace (store (mcoll m) (ticked (Modify (mcoll m)) w)) with (store (mcoll m) w)
    by (by destruct (mcoll m)).
  rewrite Hs. by destruct (mcoll m).
Qed.

Lemma guarded_query_hit sch vid a token t (d : sdoc) :
  sch !! "_id" = Some oid_field → sch !! vid = Some oid_field → vid ≠ "_id" →
  cast_oid token = Some t → d !! vid = Some (SId t) →
  matches sch (<[vid := token]> {["_id" := VStr a]}) (the_doc a d) = true.
Proof.
  intros Hid Hvid Hne Hc Hd. unfold matches. rewrite bool_decide_eq_true.
  rewrite map_Forall_insert by (by rewrite lookup_singleton_ne).
  rewrite map_Forall_singleton. unfold match_field.
  rewrite (type_of_Some _ _ _ Hid), (type_of_Some _ _ _ Hvid). simpl.
  unfold the_doc. rewrite lookup_insert_eq, lookup_insert_ne by done.
  split; [|by rewrite bool_decide_eq_true].
  destruct token; simplify_eq/=; by rewrite bool_decide_eq_true.
Qed.

(** ** [upsertVersion] creating *)

Lemma id_query_matches sch id a i (d : sdoc) :
  sch !! "_id" = Some oid_field → cast_oid id = Some a →
  matches sch {["_id" := id]} (the_doc i d) = true ↔ i = a.
Proof.
  intros Hid Hc.
  rewrite (matches_pointer sch "_id" id a); [|by rewrite (type_of_Some _ _ _ Hid)|done].
  unfold the_doc. rewrite lookup_insert_eq. split; [congruence|by intros ->].
Qed.

Lemma findOneAndUpsert_insert m id a ins w :
  msch m !! "_id" = Some oid_field → cast_oid id = Some a →
  cast_oid (get ins "_id") = Some a →
  store (mcoll m) w !! a = None → faults w = [] →
  let d := persist (msch m) (declared (msch m) ins)
           ∪ persist (msch m) (declared (msch m) {["_id" := id]}) in
  findOneAndUpsert m {["_id" := id]} ins w
  = (Done (Ok None),
     set_store (mcoll m) (<[a := the_doc a d]> (store (mcoll m) w))
       (ticked (Modify (mcoll m)) w)).
Proof.
  intros Hid Hc Hins Hfresh Hf d.
  unfold findOneAndUpsert, bind, trip, read, write, ret.
  rewrite (castable_pointer _ _ _ _ Hc), Hf. simpl.
  replace (store (mcoll m) (ticked (Modify (mcoll m)) w)) with (store (mcoll m) w)
    by (by destruct (mcoll m)).
  assert (Hsel : select (msch m) {["_id" := id]} (store (mcoll m) w) = []).
  { apply select_nil. intros i di Hi.
    destruct (matches _ _ _) eqn:Hm; [|done].
    apply (id_query_matches _ _ a) in Hm; [|done..]. congruence. }
  rewrite Hsel.
  assert (Hd : d !! "_id" = Some (SId a)).
  { unfold d. apply lookup_union_Some_l.
    rewrite persist_lookup, declared_lookup, Hid.
    rewrite bool_decide_eq_true_2 by eauto.
    unfold get in Hins. destruct (ins !! "_id") as [x|]; [|done]. simpl.
    apply persist_as_id; [done|]. by rewrite (type_of_Some _ _ _ Hid). }
  fold d. rewrite Hd. simpl.
  replace (store (mcoll m) (ticked (Modify (mcoll m)) w)) with (store (mcoll m) w)
    by (by destruct (mcoll m)).
  rewrite Hfresh. rewrite bool_decide_eq_false_2 by (by intros [? ?]).
  by destruct (mcoll m).
Qed.

(** ** [deleteOriginal] *)

Lemma removeWhere_id m (a : oid) w :
  msch m !! "_id" = Some oid_field → faults w = [] →
  removeWhere m {["_id" := VStr a]} w
  = (Done (Ok tt),
     set_store (mcoll m) (delete a (store (mcoll m) w))
       (ticked (RemoveAll (mcoll m)) w)).
Proof.
  intros Hid Hf. unfold removeWhere, bind, trip, read, write, ret.
  rewrite (castable_pointer _ _ (VStr a) a eq_refl), Hf. simpl.
  replace (store (mcoll m) (ticked (RemoveAll (mcoll m)) w))
    with (store (mcoll m) w) by (by destruct (mcoll m)).
  assert (Heq : ∀ c : gmap oid sdoc,
            filter (λ p : oid * sdoc,
                      matches (msch m) {["_id" := VStr a]} (the_doc p.1 p.2) = false) c
            = delete a c).
  { intros c. apply map_eq. intros i. rewrite map_lookup_filter.
    destruct (decide (i = a)) as [->|Hne].
    - rewrite lookup_delete_eq.
      destruct (c !! a) as [d|]; [|done]. simpl.
      rewrite option_guard_False; [done|].
      rewrite (proj2 (id_query_matches (msch m) (VStr a) a a d Hid eq_refl) eq_refl).
      done.
    - rewrite lookup_delete_ne by done.
      destruct (c !! i) as [d|]; [|done]. simpl.
      rewrite option_guard_True; [done|].
      destruct (matches _ _ _) eqn:Hm; [|done].
      apply (id_query_matches _ _ a) in Hm; done. }
  rewrite Heq. by destruct (mcoll m).
Qed.

Lemma find_one m q w a A :
  castable (msch m) q = true → faults w = [] →
  select (msch m) q (store (mcoll m) w) = [(a, A)] →
  find m q w
  = (Done (Ok [found m (gen w) a A]), bumped (ticked (Find (mcoll m)) w)).
Proof. intros Hc Hf Hs. rewrite find_run by done. by rewrite Hs. Qed.

Lemma plain_found_id m g g' (a : oid) A :
  get (plain (msch m) g' (props (found m g a A))) "_id" = VId g' "_id" a.
Proof.
  unfold get. rewrite plain_lookup. simpl. rewrite load_lookup.
  unfold the_doc. by rewrite lookup_insert_eq.
Qed.

(** ** What the plugin leaves *)



(** ** The routes of the example application *)

Lemma answers_one k w w' c :
  calls w' = calls w ++ [c] → Routes.answers k w w' = [k c.1 c.2].
Proof.
  intros Hc. unfold Routes.answers. rewrite Hc.
  by rewrite drop_app_length.
Qed.

Lemma no_delivery {A} (l : list A) x : l ≠ l ++ [x].
Proof.
  intros Heq. rewrite <- (app_nil_r l) in Heq at 1.
  by apply app_inv_head in Heq.
Qed.

Lemma one_delivery {A} (l : list A) x y : l ++ [x] = l ++ [y] → x = y.
Proof. intros Heq. apply app_inv_head in Heq. by simplify_eq. Qed.

Lemma toObject_calls d w : calls (toObject d w).2 = calls w.
Proof.
  unfold toObject, method, bind, alloc, ret, throw. by destruct (callable _ _).
Qed.

(** What [activateVersion] hands back on success is the saved Active
    Document, with the pointer it was given. *)
Lemma activateVersion_delivered E id w saved :
  linked E →
  calls (Index.activateVersion E id w).2 = calls w ++ [(ANull, ADoc saved)] →
  mmodel saved = primaryModel E ∧
  ∃ i, origin saved = Some i ∧ cast_oid (get (props saved) "_id") = Some i ∧
       get (props saved) (versionIdPath E) = id.
Proof.
  intros (Hpid & Hsid & Hvid & Hvof & Hvi & Hvo).
  unfold Index.activateVersion, bind.
  destruct (findById (shadowModel E) id w) as [r w1] eqn:H1.
  apply findById_inv in H1 as ((_ & _ & Hc1) & _ & _).
  destruct r as [[e|[result|]]|e]; simpl;
    try (rewrite Hc1; intros Heq; apply one_delivery in Heq; done);
    try (rewrite Hc1; intros Heq; by apply no_delivery in Heq).
  destruct (findById (primaryModel E) _ w1) as [r w2] eqn:H2.
  apply findById_inv in H2 as ((_ & _ & Hc2) & _ & Hact).
  destruct r as [[e|[active|]]|e]; simpl;
    try (rewrite Hc2, Hc1; intros Heq; apply one_delivery in Heq; done);
    try (rewrite Hc2, Hc1; intros Heq; by apply no_delivery in Heq).
  destruct (Hact active eq_refl) as (Hm & _).
  pose proof (toObject_calls result w2) as Hc3.
  destruct (toObject result w2) as [[o|e] w3]; simpl in *;
    [|rewrite Hc3, Hc2, Hc1; intros Heq; by apply no_delivery in Heq].
  match goal with
  | |- context [save ?d w3] =>
      destruct (save d w3) as [r w4] eqn:H4; set (doc := d) in *
  end.
  apply save_inv in H4 as (Hc4 & _ & Hres).
  destruct r as [[e|d']|e]; simpl;
    try (rewrite Hc4, Hc3, Hc2, Hc1; intros Heq; apply one_delivery in Heq; done);
    try (rewrite Hc4, Hc3, Hc2, Hc1; intros Heq; by apply no_delivery in Heq).
  destruct Hres as (_ & i & Hi & -> & _).
  rewrite Hc4, Hc3, Hc2, Hc1. intros Heq. apply one_delivery in Heq.
  injection Heq as <-.
  assert (Hmd : mmodel doc = primaryModel E)
    by (unfold doc; by rewrite mset_model).
  split; [done|].
  exists i. split; [done|]. split; [done|].
  cbn [props]. unfold doc, mset. simpl. rewrite Hm. simpl. rewrite Hvid.
  rewrite bool_decide_eq_true_2 by eauto. simpl.
  unfold get. by rewrite lookup_insert_eq.
Qed.

Lemma js_concat_oid v i : cast_oid v = Some i → js_concat v = i.
Proof. destruct v; simpl; congruence. Qed.

Lemma item_read_untouched E vid w : untouched w (Routes.item_read E vid w).2.
Proof.
  unfold Routes.item_read, Index.findVersionById, bind.
  destruct (findById_reads (shadowModel E) (VStr vid) w) as [Hu [x Hx]].
  destruct (findById _ _ w) as [r w1]. simpl in Hx, Hu. subst r.
  destruct x as [e|[result|]]; simpl; try done.
  destruct (index_findVersions_reads E (mget result "versionOfId") w1)
    as [Hu' [y Hy]].
  destruct (Index.findVersions _ _ w1) as [r w2]. simpl in Hy, Hu'. subst r.
  destruct y; simpl; by eapply untouched_trans.
Qed.

(** ** One callback per call *)

Lemma silent_ret {A} (a : A) : silent (ret a).
Proof. done. Qed.

Lemma silent_throw {A} e : silent (@throw A e).
Proof. done. Qed.

Lemma silent_bind {A B} (m : M A) (k : A → M B) :
  silent m → (∀ a, silent (k a)) → silent (bind m k).
Proof.
  intros Hm Hk w. unfold bind. specialize (Hm w).
  destruct (m w) as [[a|e] w1]; simpl in *; [|done].
  by rewrite Hk.
Qed.

Lemma silent_alloc : silent alloc.
Proof. done. Qed.

Lemma silent_new_oid : silent new_oid.
Proof. done. Qed.

Lemma silent_trip e : silent (trip e).
Proof. done. Qed.

Lemma silent_read c : silent (read c).
Proof. done. Qed.

Lemma silent_write c m : silent (write c m).
Proof. intros w. by destruct c. Qed.

Lemma silent_method o name : silent (method o name).
Proof. unfold method. by destruct (callable _ _). Qed.

Lemma silent_toString v : silent (toString v).
Proof. unfold toString. by destruct (js_toString _). Qed.

Ltac hush :=
  repeat first
    [ apply silent_ret | apply silent_throw | apply silent_alloc
    | apply silent_new_oid | apply silent_trip | apply silent_read
    | apply silent_write | apply silent_method | apply silent_toString
    | apply silent_bind; [|intros ?]
    | match goal with
      | |- silent (match ?x with _ => _ end) => destruct x
      | |- silent (if ?b then _ else _) => destruct b
      | |- silent (let _ := _ in _) => cbv zeta
      end ].

Lemma silent_new_doc m o : silent (new_doc m o).
Proof. unfold new_doc. hush. Qed.

Lemma silent_findById m id : silent (findById m id).
Proof. unfold findById. hush. Qed.

Lemma silent_findOne m q : silent (findOne m q).
Proof. unfold findOne. hush. Qed.

Lemma silent_find m q : silent (find m q).
Proof. unfold find. hush. Qed.

Lemma silent_save d : silent (save d).
Proof. unfold save. hush. Qed.

Lemma silent_remove d : silent (remove d).
Proof. unfold remove. hush. Qed.

Lemma silent_toObject d : silent (toObject d).
Proof. unfold toObject. hush. Qed.

Lemma silent_findOneAndUpdate m q u : silent (findOneAndUpdate m q u).
Proof. unfold findOneAndUpdate. hush. Qed.

Lemma silent_findOneAndUpsert m q u : silent (findOneAndUpsert m q u).
Proof. unfold findOneAndUpsert. hush. Qed.

Lemma silent_removeWhere m q : silent (removeWhere m q).
Proof. unfold removeWhere. hush. Qed.

Lemma silent_snapshot o : silent (Index.snapshot o).
Proof. unfold Index.snapshot, Index.call_toObject. hush. Qed.

Ltac hush' :=
  repeat first
    [ apply silent_new_doc | apply silent_findById | apply silent_findOne
    | apply silent_find | apply silent_save | apply silent_remove
    | apply silent_toObject | apply silent_findOneAndUpdate
    | apply silent_findOneAndUpsert | apply silent_removeWhere
    | apply silent_snapshot
    | apply silent_ret | apply silent_throw | apply silent_toString
    | apply silent_method
    | apply silent_bind; [|intros ?]
    | match goal with
      | |- silent (match ?x with _ => _ end) => destruct x
      | |- silent (if ?b then _ else _) => destruct b
      | |- silent (let _ := _ in _) => cbv zeta
      end ].

Lemma silent_index_saveSnapshot E d : silent (Index.saveSnapshot E d).
Proof. unfold Index.saveSnapshot. hush'. Qed.

Lemma silent_fork_saveSnapshot E d : silent (Fork.saveSnapshot E d).
Proof. unfold Fork.saveSnapshot. hush'. Qed.

Lemma silent_discard d : silent (Fork.discard d).
Proof. unfold Fork.discard. hush'. Qed.

Lemma silent_create_shadow E s : silent (Fork.create_shadow E s).
Proof. unfold Fork.create_shadow. hush'. Qed.

Lemma once_callback err result : answers_once (callback err result).
Proof. intros w. simpl. eauto. Qed.

Lemma once_throw e : answers_once (throw e).
Proof. done. Qed.

Lemma once_bind {A} (m : M A) (k : A → M unit) :
  silent m → (∀ a, answers_once (k a)) → answers_once (bind m k).
Proof.
  intros Hm Hk w. unfold bind. specialize (Hm w).
  destruct (m w) as [[a|e] w1]; simpl in *; [|done].
  specialize (Hk a w1). by rewrite Hm in Hk.
Qed.

Ltac single :=
  repeat first
    [ apply once_callback | apply once_throw
    | apply once_bind;
        [ first [ apply silent_index_saveSnapshot
                | apply silent_fork_saveSnapshot
                | apply silent_discard | apply silent_create_shadow
                | hush' ]
        | intros ? ]
    | match goal with
      | |- answers_once (match ?x with _ => _ end) => destruct x
      | |- answers_once (if ?b then _ else _) => destruct b
      | |- answers_once (let _ := _ in _) => cbv zeta
      end ].

Lemma once_index_promote E vs original : answers_once (Index.promote E vs original).
Proof. unfold Index.promote. single. Qed.

Lemma once_fork_promote E vs original : answers_once (Fork.promote E vs original).
Proof. unfold Fork.promote. single. Qed.

(** ** The forked configurations of the running example *)

Lemma linked_flagged : linked flagged.
Proof. repeat split; done. Defined.

Lemma linked_appending : linked appending.
Proof. repeat split; done. Defined.

(** ** When the store fails halfway *)

(** The next round trip is not going to fail. *)
Lemma next_clear_cases (w : world) :
  default None (head (faults w)) = None →
  faults w = [] ∨ ∃ fs, faults w = None :: fs.
Proof. destruct (faults w) as [|[e|] fs]; simpl; eauto; done. Qed.

Lemma findById_hit_next m id h d w :
  cast_oid id = Some h → default None (head (faults w)) = None →
  store (mcoll m) w !! h = Some d →
  findById m id w
  = (Done (Ok (Some (found m (gen w) h d))), bumped (ticked (Find (mcoll m)) w)).
Proof.
  intros Hc Hf Hd. unfold findById. rewrite (query_val_oid _ _ Hc).
  unfold bind, trip, read.
  destruct (next_clear_cases w Hf) as [Hq | [fs Hq]]; rewrite Hq; simpl;
    (replace (store (mcoll m) (ticked (Find (mcoll m)) w))
       with (store (mcoll m) w) by (by destruct (mcoll m)));
    by rewrite Hd.
Qed.

Lemma save_next d i w :
  callable (own d) "save" = true →
  cast_oid (get (props d) "_id") = Some i →
  origin d = Some i ∨ (origin d = None ∧ store (mcoll (mmodel d)) w !! i = None) →
  default None (head (faults w)) = None →
  save d w
  = (Done (Ok (MDoc (mmodel d) (Some i) (props d) (own d))),
     set_store (mcoll (mmodel d))
       (<[i := persist (msch (mmodel d)) (props d)]> (store (mcoll (mmodel d)) w))
       (ticked (Write (mcoll (mmodel d)) i) w)).
Proof.
  intros Hc Hi Ho Hf. unfold save, method, bind. rewrite Hc. simpl.
  rewrite Hi. unfold trip, read, write.
  destruct Ho as [Ho | [Ho Hn]]; rewrite Ho;
    destruct (next_clear_cases w Hf) as [Hq | [fs Hq]]; rewrite Hq; simpl;
    (replace (store (mcoll (mmodel d)) (ticked (Write (mcoll (mmodel d)) i) w))
       with (store (mcoll (mmodel d)) w) by (by destruct (mcoll (mmodel d))));
    rewrite ?Hn, ?bool_decide_eq_true_2, ?bool_decide_eq_false_2
      by (done || by intros [? ?]);
    by destruct (mcoll (mmodel d)).
Qed.

Lemma save_fails d i w e fs :
  callable (own d) "save" = true →
  cast_oid (get (props d) "_id") = Some i → faults w = Some e :: fs →
  save d w = (Done (Fail e), ticked (Write (mcoll (mmodel d)) i) w).
Proof.
  intros Hc Hi Hf. unfold save, method, bind. rewrite Hc. simpl.
  rewrite Hi. unfold trip. by rewrite Hf.
Qed.

Lemma findOneAndUpdate_fails m q upd w e fs :
  castable (msch m) q = true → faults w = Some e :: fs →
  findOneAndUpdate m q upd w = (Done (Fail e), ticked (Modify (mcoll m)) w).
Proof.
  intros Hc Hf. unfold findOneAndUpdate, bind, trip. by rewrite Hc, Hf.
Qed.

Lemma remove_next d i w :
  callable (own d) "remove" = true →
  cast_oid (get (props d) "_id") = Some i →
  default None (head (faults w)) = None →
  remove d w
  = (Done (Ok tt),
     set_store (mcoll (mmodel d)) (delete i (store (mcoll (mmodel d)) w))
       (ticked (Remove (mcoll (mmodel d)) i) w)).
Proof.
  intros Hc Hi Hf. unfold remove, method, bind. rewrite Hc. simpl.
  rewrite Hi. unfold trip, read, write.
  destruct (next_clear_cases w Hf) as [Hq | [fs Hq]]; rewrite Hq; simpl;
    by destruct (mcoll (mmodel d)).
Qed.

(** * Further properties of the code *)

(** X1: the static [findVersions] (src/index.js 185-218,
    src/unnamed/part_000 136-162).  When the store answers, an entity
    that does not exist gives [{activeId: null, docs: []}]; an entity that
    exists gives its active pointer and the Version Records whose
    back-reference is the entity, each exactly once and no other. *)
Theorem findVersions_lists (E : env) :
  linked E →
  lists_versions E Index.findVersions ∧ lists_versions E Fork.findVersions.
Proof.
  intros Hl. split; [by apply index_lists_versions|by apply fork_lists_versions].
Qed.

(** The listing of [a1] at the running example contains [v1]. *)
Lemma findVersions_lists_witness :
  linked E0 ∧
  ∃ active l,
    (Index.findVersions E0 (VStr "a1") w0).1
    = Done (Ok (Versions active
                  ((λ p, found (shadowModel E0) 1 p.1 p.2) <$> l))) ∧
    js_toString active = Some "v1" ∧ ("v1", V1) ∈ l.
Proof.
  split; [exact linked_E0|].
  destruct (findVersions_lists E0 linked_E0) as [Hi _].
  unfold lists_versions in Hi.
  destruct (Hi w0 (VStr "a1") "a1" eq_refl eq_refl) as [_ H].
  destruct (H A1 eq_refl) as (active & l & Hrun & Hact & _ & Hmem).
  exists active, l. split; [exact Hrun|]. split; [exact Hact|].
  apply Hmem. split; reflexivity.
Defined.

(** X2: the instance method [findVersions] (src/index.js 139-148,
    src/unnamed/part_000 98-104).  Called on a document whose [_id] is
    [a], it hands back the Version Records whose back-reference is [a],
    each exactly once and no other; both variants answer alike. *)
Theorem instance_method_lists (E : env) (w : world) (this : mdoc)
    (a : oid) :
  linked E → cast_oid (mget this "_id") = Some a → faults w = [] →
  ∃ l,
    (Index.instanceFindVersions E this w).1
    = Done (Ok ((λ p, found (shadowModel E) (gen w) p.1 p.2) <$> l)) ∧
    (Fork.instanceFindVersions E this w).1
    = Done (Ok ((λ p, found (shadowModel E) (gen w) p.1 p.2) <$> l)) ∧
    NoDup l ∧
    ∀ v V, (v, V) ∈ l ↔
           shadow w !! v = Some V ∧ V !! versionOfIdPath E = Some (SId a).
Proof.
  intros (Hpid & Hsid & Hvid & Hvof & Hvi & Hvo) Hc Hf.
  assert (Ht : type_of (ssch E) (versionOfIdPath E) = TObjectId)
    by (by rewrite (type_of_Some _ _ _ Hvof)).
  unfold Index.instanceFindVersions, Fork.instanceFindVersions.
  rewrite find_run by (first [by eapply castable_pointer | done]).
  eexists. split; [reflexivity|]. split; [reflexivity|].
  split; [apply NoDup_select|].
  intros v V. rewrite elem_of_select. simpl.
  rewrite (matches_pointer _ _ _ a (the_doc v V) Ht Hc).
  unfold the_doc. by rewrite lookup_insert_ne by done.
Qed.

(** The versions of the loaded [a1]. *)
Lemma instance_method_lists_witness :
  linked E0 ∧ faults w0 = [] ∧
  ∃ l,
    (Index.instanceFindVersions E0 (found (primaryModel E0) 0 "a1" A1) w0).1
    = Done (Ok ((λ p, found (shadowModel E0) 0 p.1 p.2) <$> l)) ∧
    ("v1", V1) ∈ l.
Proof.
  split; [exact linked_E0|]. split; [reflexivity|].
  destruct (instance_method_lists E0 w0 (found (primaryModel E0) 0 "a1" A1)
              "a1" linked_E0)
    as (l & Hrun & _ & _ & Hmem).
  - vm_compute. reflexivity.
  - reflexivity.
  - exists l. split; [exact Hrun|]. apply Hmem. split; reflexivity.
Defined.

(** X3: the query methods (src/index.js 139-218, src/unnamed/part_000
    98-162).  Whatever the identifier and whatever the store does,
    [findVersions], [findVersionById] and the instance [findVersions]
    return without throwing and leave both collections as they were. *)
Theorem queries_only_read (E : env) (id : value) (this : mdoc) :
  (reads_only (Index.findVersions E id) ∧
   reads_only (Index.findVersionById E id) ∧
   reads_only (Index.instanceFindVersions E this)) ∧
  (reads_only (Fork.findVersions E id) ∧
   reads_only (Fork.findVersionById E id) ∧
   reads_only (Fork.instanceFindVersions E this)).
Proof.
  repeat split;
    first [ apply index_findVersions_reads | apply fork_findVersions_reads
          | apply findById_reads | apply find_reads
          | apply (findById_reads _ _ _) | apply (find_reads _ _ _) ].
Qed.

(** X4: [saveVersion] for an entity that does not exist yet
    (src/index.js 270-350).  With no version and no entity named, the
    call inserts one Version Record and one Active Document under new
    identifiers and links them in both directions: the Active Document
    points at the version and the version refers back to the Active
    Document.  Every declared field that [data] supplies is in both, and
    the caller receives the Version Record as stored. *)
Theorem saveVersion_creates_entity (E : env) (w : world) (body : obj)
    (ide : value) :
  well_formed E → versionOfIdPath E = "versionOfId" → faults w = [] →
  get body "toObject" ≠ VStr "function" → body !! "_id" = None →
  ide = VNull ∨ ide = VUndef →
  let w' := (Index.saveVersion E (DataObj body VNull ide) w).2 in
  ∃ a v A V vs,
    primary w !! a = None ∧ shadow w !! v = None ∧
    primary w' = <[a := A]> (primary w) ∧
    shadow w' = <[v := V]> (shadow w) ∧
    A !! versionIdPath E = Some (SId v) ∧
    V !! versionOfIdPath E = Some (SId a) ∧
    calls w' = calls w ++ [(ANull, ADoc vs)] ∧
    origin vs = Some v ∧ persist (ssch E) (props vs) = V ∧
    ∀ k x s, k ≠ "_id" → k ≠ versionIdPath E → k ≠ versionOfIdPath E →
             is_Some (ssch E !! k) → body !! k = Some x →
             persist_as (type_of (ssch E) k) x = Some s →
             V !! k = Some s ∧ A !! k = Some s.
Proof.
  intros Hwf Hname Hf Hguard Hid Hide w'. subst w'.
  pose proof (guard_false body Hguard) as Hg.
  pose proof Hwf as (Hl & Hnov & Hmir).
  pose proof Hl as (Hpid & Hsid & Hvid & Hvof & Hvi & Hvo).
  pose proof (index_saveSnapshot_fresh E body ide w Hl Hname Hf Hg Hid) as Hsnap.
  cbv zeta in Hsnap.
  assert (Hfalsy : (if truthy ide then ide else VNull) = VNull)
    by (by destruct Hide as [-> | ->]).
  rewrite Hfalsy in Hsnap.
  set (v := next_oid (bumped (ticked (Find Shadow) w))) in *.
  set (P := created E (gen w) v body VNull) in *.
  set (vs := MDoc (shadowModel E) (Some v) P ∅) in *.
  set (w1 := set_store Shadow _ _) in Hsnap.
  assert (Hf1 : faults w1 = []) by (unfold w1; quiet).
  assert (HPid : get P "_id" = VId (gen w) "_id" v).
  { unfold P, created, get. rewrite lookup_insert_ne by done.
    rewrite lookup_union_r; [by rewrite lookup_insert_eq|].
    rewrite map_lookup_filter, Hid. done. }
  assert (Hvsid : mget vs "_id" = VId (gen w) "_id" v).
  { rewrite mget_declared by (simpl; eauto). done. }
  assert (HPdecl : ∀ k, is_Some (P !! k) → is_Some (ssch E !! k)).
  { intros k. by apply created_declared. }
  assert (Hconf : conforms (ssch E) (persist (ssch E) P))
    by (by apply conforms_persist).
  assert (Hfield : ∀ k x s, k ≠ "_id" → k ≠ versionOfIdPath E →
             is_Some (ssch E !! k) → body !! k = Some x →
             persist_as (type_of (ssch E) k) x = Some s →
             persist (ssch E) P !! k = Some s).
  { intros k x s Hk1 Hk2 Hd Hb Hs. rewrite persist_lookup.
    unfold P. erewrite created_field; eauto; [by rewrite <- Hname|].
    by eapply persist_as_defined. }
  unfold Index.saveVersion, bind. rewrite Hsnap.
  unfold Index.onVersionSaved, bind.
  rewrite toObject_run by done. cbn [versionOfId].
  rewrite (findById_null (primaryModel E) ide) by (done || quiet).
  rewrite new_doc_run. unfold ret.
  rewrite mset_declared by (simpl; eauto). cbn [mmodel origin props own].
  set (w2 := ticked (Find (mcoll (primaryModel E))) (bumped w1)).
  set (a := next_oid (bumped w2)).
  set (original := MDoc _ _ _ _).
  destruct (index_promote_runs E vs original v a (gen w2) (issuing a (bumped w2)))
    as (w' & Hrun & Hpr & Hsh & Hcl & Hfl); try done.
  - simpl. by rewrite HPid.
  - unfold original, get; simpl. rewrite lookup_insert_ne by done.
    rewrite lookup_union_r; [by rewrite lookup_insert_eq|].
    by rewrite map_lookup_filter, lookup_empty.
  - right. split; [done|]. apply (next_oid_primary (bumped w2)).
  - unfold original, get; simpl. rewrite lookup_insert_eq. by rewrite Hvsid.
  - intros k x. by apply copied_declared.
  - unfold w2; quiet.
  - rewrite Hrun. cbn [snd].
    eexists a, v, _, _, _.
    split; [apply (next_oid_primary (bumped w2))|].
    split; [apply (next_oid_shadow (bumped (ticked (Find Shadow) w)))|].
    split; [exact Hpr|].
    split; [rewrite Hsh; simpl; by rewrite insert_insert_eq|].
    split.
    { rewrite persist_lookup.
      rewrite lookup_union_r.
      - unfold original; simpl. rewrite lookup_insert_eq. simpl.
        rewrite Hvsid. done.
      - rewrite declared_lookup, copied_lookup.
        case_bool_decide; [|done]. case_bool_decide; [|done].
        rewrite plain_lookup.
        destruct (props vs !! versionIdPath E) eqn:Hp; [|done].
        destruct (HPdecl (versionIdPath E)) as [f Hfd]; [eauto|]. congruence. }
    split; [by rewrite persist_lookup, lookup_insert_eq, (type_of_Some _ _ _ Hvof)|].
    split; [exact Hcl|]. split; [done|]. split; [reflexivity|].
    intros k x s Hk1 Hk2 Hk3 Hd Hb Hs.
    split.
    + cbn [props]. rewrite persist_lookup, lookup_insert_ne by done.
      rewrite <- persist_lookup. by eapply Hfield.
    + apply copied_field; try done. by eapply Hfield.
Qed.

(** A first story with title ["B"]. *)
Lemma saveVersion_creates_entity_witness :
  well_formed E0 ∧ versionOfIdPath E0 = "versionOfId" ∧ faults w0 = [] ∧
  ∃ a v A V,
    primary w0 !! a = None ∧ shadow w0 !! v = None ∧
    primary (Index.saveVersion E0 (DataObj title_B VNull VNull) w0).2
    = <[a := A]> (primary w0) ∧
    shadow (Index.saveVersion E0 (DataObj title_B VNull VNull) w0).2
    = <[v := V]> (shadow w0) ∧
    A !! "versionId" = Some (SId v) ∧ V !! "versionOfId" = Some (SId a) ∧
    A !! "title" = Some (SStr "B").
Proof.
  split; [exact well_formed_E0|]. split; [reflexivity|]. split; [reflexivity|].
  destruct (saveVersion_creates_entity E0 w0 title_B VNull well_formed_E0
              eq_refl eq_refl)
    as (a & v & A & V & vs & Ha & Hv & Hp & Hs & Hptr & Hback & _ & _ & _ & Hfld).
  - vm_compute. discriminate.
  - reflexivity.
  - by left.
  - exists a, v, A, V. split; [exact Ha|]. split; [exact Hv|].
    split; [exact Hp|]. split; [exact Hs|]. split; [exact Hptr|].
    split; [exact Hback|].
    apply (Hfld "title" (VStr "B") (SStr "B"));
      [discriminate|discriminate|discriminate|vm_compute; eauto
      |reflexivity|reflexivity].
Defined.





(** X7: [deleteVersion] under any store behaviour (src/index.js 367-406,
    src/unnamed/part_000 261-292).  For every identifier and every fault
    plan the call returns, calls back exactly once and leaves the primary
    collection alone.  It reports [{success: true}] only when the Version
    Record of that identifier existed and has been removed, and when it
    reports [{success: false}] or an error the shadow collection is as
    before. *)
Theorem deleteVersion_reports :
  reports_deletion Index.deleteVersion ∧ reports_deletion Fork.deleteVersion.
Proof. split; [apply index_reports_deletion|apply fork_reports_deletion]. Qed.

(** X8: the guard of [deleteVersion] in the fork (src/unnamed/part_000
    261-292).  A version some Active Document points at is never removed
    and, when the store answers, is reported [{success: false}]; a version
    nobody points at is removed and reported [{success: true}] when it
    exists, and reported [{success: false}] when it does not. *)
Theorem fork_delete_guards_active (E : env) (w : world) (id : value)
    (h : oid) :
  linked E → cast_oid id = Some h →
  let w' := (Fork.deleteVersion E id w).2 in
  (referenced E w h → shadow w' = shadow w) ∧
  (faults w = [] →
     (referenced E w h →
        calls w' = calls w ++ [(ANull, AStatus false)]) ∧
     (¬ referenced E w h → shadow w !! h = None →
        shadow w' = shadow w ∧ calls w' = calls w ++ [(ANull, AStatus false)]) ∧
     (¬ referenced E w h → is_Some (shadow w !! h) →
        shadow w' = delete h (shadow w) ∧
        calls w' = calls w ++ [(ANull, AStatus true)])).
Proof.
  intros Hl Hc. rewrite fork_deleteVersion_eq. by apply deleteVersion_runs.
Qed.

(** [v1] is active at the running example. *)
Lemma fork_delete_guards_active_witness :
  linked E0 ∧ cast_oid (VStr "v1") = Some "v1" ∧ referenced E0 w0 "v1" ∧
  shadow (Fork.deleteVersion E0 (VStr "v1") w0).2 = shadow w0 ∧
  calls (Fork.deleteVersion E0 (VStr "v1") w0).2 = [(ANull, AStatus false)].
Proof.
  assert (Hr : referenced E0 w0 "v1") by (exists "a1", A1; split; reflexivity).
  destruct (fork_delete_guards_active E0 w0 (VStr "v1") "v1"
              linked_E0 eq_refl) as [H1 H2].
  split; [exact linked_E0|]. split; [reflexivity|]. split; [exact Hr|].
  split; [exact (H1 Hr)|].
  destruct (H2 eq_refl) as [H3 _]. exact (H3 Hr).
Defined.



(** X10: [activateVersion] then [deleteVersion] of the same version
    (src/index.js 420-464, 367-406).  After a successful activation some
    Active Document points at the version, so the deletion is refused
    with [{success: false}] and the shadow collection is still the
    original one. *)
Theorem activated_version_is_kept (E : env) (w : world) (id : value)
    (h a : oid) (V A : sdoc) :
  well_formed E → cast_oid id = Some h → faults w = [] →
  shadow w !! h = Some V → conforms (ssch E) V →
  V !! versionOfIdPath E = Some (SId a) → primary w !! a = Some A →
  let w1 := (Index.activateVersion E id w).2 in
  let w2 := (Index.deleteVersion E id w1).2 in
  referenced E w1 h ∧
  calls w2 = calls w1 ++ [(ANull, AStatus false)] ∧
  shadow w2 = shadow w ∧ primary w2 = primary w1.
Proof.
  intros Hwf Hc Hf HV Hconf Hb HA w1 w2.
  pose proof Hwf as (Hl & _).
  pose proof Hl as (Hpid & Hsid & Hvid & Hvof & Hvi & Hvo).
  destruct (activateVersion_runs E w id h Hwf Hc Hf) as (_ & _ & Hact).
  destruct (Hact V a A HV Hconf Hb HA)
    as (saved & A' & _ & _ & _ & Hp1 & Hs1 & Hptr & _).
  fold w1 in Hp1, Hs1.
  assert (Href : referenced E w1 h).
  { exists a, A'. split; [by rewrite Hp1, lookup_insert_eq|].
    unfold the_doc. by rewrite lookup_insert_ne. }
  assert (Hf1 : faults w1 = []) by (by apply index_activateVersion_quiet).
  destruct (deleteVersion_runs E w1 id h Hl Hc) as (Hkeep & Hrun).
  destruct (Hrun Hf1) as (Hcalls & _).
  fold w2 in Hkeep, Hcalls.
  split; [done|]. split; [by apply Hcalls|].
  split; [by rewrite Hkeep|].
  destruct (index_reports_deletion E id w1) as (_ & Hprim & _). done.
Qed.

(** [v1] after its activation. *)
Lemma activated_version_is_kept_witness :
  well_formed E0 ∧ shadow w0 !! "v1" = Some V1 ∧
  calls (Index.deleteVersion E0 (VStr "v1")
           (Index.activateVersion E0 (VStr "v1") w0).2).2
  = calls (Index.activateVersion E0 (VStr "v1") w0).2
    ++ [(ANull, AStatus false)] ∧
  shadow (Index.deleteVersion E0 (VStr "v1")
            (Index.activateVersion E0 (VStr "v1") w0).2).2
  = shadow w0.
Proof.
  split; [exact well_formed_E0|]. split; [reflexivity|].
  destruct (activated_version_is_kept E0 w0 (VStr "v1") "v1" "a1" V1 A1
              well_formed_E0 eq_refl eq_refl eq_refl conforms_V1 eq_refl eq_refl)
    as (_ & Hc & Hs & _).
  split; [exact Hc|exact Hs].
Defined.

(** X11: [deleteVersion] then [activateVersion] of the same version
    (src/index.js 367-406, 420-464).  Once an unreferenced version has
    been deleted, activating it gives the failure result and changes
    nothing. *)
Theorem deleted_version_is_gone (E : env) (w : world) (id : value) (h : oid) :
  well_formed E → cast_oid id = Some h → faults w = [] →
  ¬ referenced E w h → is_Some (shadow w !! h) →
  let w1 := (Index.deleteVersion E id w).2 in
  let w2 := (Index.activateVersion E id w1).2 in
  calls w1 = calls w ++ [(ANull, AStatus true)] ∧
  shadow w1 = delete h (shadow w) ∧
  failure w1 w2.
Proof.
  intros Hwf Hc Hf Hnr HV w1 w2.
  pose proof Hwf as (Hl & _).
  destruct (deleteVersion_runs E w id h Hl Hc) as (_ & Hrun).
  destruct (Hrun Hf) as (_ & _ & Hdel).
  destruct (Hdel Hnr HV) as [Hs1 Hc1]. fold w1 in Hs1, Hc1.
  assert (Hf1 : faults w1 = []) by (by apply index_deleteVersion_quiet).
  destruct (activateVersion_runs E w1 id h Hwf Hc Hf1) as (Hmiss & _).
  split; [done|]. split; [done|].
  apply Hmiss. by rewrite Hs1, lookup_delete_eq.
Qed.

(** The earlier version [v0] of [a1]. *)
Lemma deleted_version_is_gone_witness :
  well_formed E0 ∧ ¬ referenced E0 w_two "v0" ∧
  is_Some (shadow w_two !! "v0") ∧
  calls (Index.deleteVersion E0 (VStr "v0") w_two).2 = [(ANull, AStatus true)] ∧
  shadow (Index.deleteVersion E0 (VStr "v0") w_two).2 = {["v1" := V1]} ∧
  failure (Index.deleteVersion E0 (VStr "v0") w_two).2
          (Index.activateVersion E0 (VStr "v0")
             (Index.deleteVersion E0 (VStr "v0") w_two).2).2.
Proof.
  assert (Hnr : ¬ referenced E0 w_two "v0").
  { intros (a & A & Ha & HA). simpl in Ha.
    apply lookup_singleton_Some in Ha as [<- <-]. vm_compute in HA.
    discriminate. }
  assert (Hin : is_Some (shadow w_two !! "v0")) by (vm_compute; eauto).
  split; [exact well_formed_E0|]. split; [exact Hnr|]. split; [exact Hin|].
  destruct (deleted_version_is_gone E0 w_two (VStr "v0") "v0" well_formed_E0
              eq_refl eq_refl Hnr Hin) as (Hc & Hs & Hfail).
  split; [exact Hc|]. split; [|exact Hfail].
  rewrite Hs. vm_compute. reflexivity.
Defined.

(** X12: one callback per call (src/index.js 230-464,
    src/unnamed/part_000 179-503).  For every input and every store
    behaviour, each static method that takes a callback calls it exactly
    once when it returns, and has not called it when it throws; none ever
    calls back twice. *)
Theorem static_methods_answer_once (E : env) :
  (∀ d, answers_once (Index.saveVersion E d)) ∧
  (∀ id data, answers_once (Index.saveNewVersionOf E id data)) ∧
  (∀ id, answers_once (Index.deleteVersion E id)) ∧
  (∀ id, answers_once (Index.activateVersion E id)) ∧
  (∀ d, answers_once (Fork.saveVersion E d)) ∧
  (∀ id, answers_once (Fork.deleteVersion E id)) ∧
  (∀ id, answers_once (Fork.activateVersion E id)) ∧
  (∀ s q, answers_once (Fork.upsertVersion E s q)) ∧
  (∀ q d, answers_once (Fork.deleteOriginal E q d)).
Proof.
  repeat split; intros.
  - unfold Index.saveVersion, Index.onVersionSaved. single.
    all: apply once_index_promote.
  - unfold Index.saveNewVersionOf, Index.saveVersion, Index.onVersionSaved. single.
    all: apply once_index_promote.
  - unfold Index.deleteVersion. single.
  - unfold Index.activateVersion. single.
  - unfold Fork.saveVersion, Fork.onVersionSaved. single.
    all: apply once_fork_promote.
  - unfold Fork.deleteVersion. single.
  - unfold Fork.activateVersion. single.
  - unfold Fork.upsertVersion. single.
  - unfold Fork.deleteOriginal. single.
Qed.

(** X13: [upsertVersion] with the current revision (src/unnamed/part_000
    363-431), outside append-only mode.  When the token the caller
    supplies is the pointer of the Active Document, the call inserts a
    new Version Record that refers to the entity and carries the declared
    fields of the data, moves the pointer of the Active Document to it,
    sets the declared fields the data supplies, keeps the others, and
    hands back the Active Document as stored. *)
Theorem upsert_updates_active (E : env) (w : world) (o : obj)
    (query : option obj) (a t : oid) (A : sdoc) :
  linked E → append_only E = false →
  truthy (get o "_id") = true → js_toString (get o "_id") = Some a →
  truthy (get o (versionIdPath E)) = true →
  cast_oid (get o (versionIdPath E)) = Some t →
  primary w !! a = Some A → A !! versionIdPath E = Some (SId t) →
  faults w = [] →
  let w' := (Fork.upsertVersion E (Fork.Plain o) query w).2 in
  ∃ i V A' g,
    shadow w !! i = None ∧
    shadow w' = <[i := V]> (shadow w) ∧
    V !! versionOfIdPath E = Some (SId a) ∧
    primary w' = <[a := A']> (primary w) ∧
    A' !! versionIdPath E = Some (SId i) ∧
    calls w' = calls w ++ [(AUndef, ADoc (found (primaryModel E) g a A'))] ∧
    (∀ k x s, k ≠ "_id" → k ≠ versionIdPath E → is_Some (psch E !! k) →
              o !! k = Some x → persist_as (type_of (psch E) k) x = Some s →
              A' !! k = Some s) ∧
    (∀ k s, k ≠ "_id" → k ≠ versionIdPath E → o !! k = None →
            A !! k = Some s → A' !! k = Some s) ∧
    (∀ k x s, k ≠ "_id" → k ≠ versionOfIdPath E → is_Some (ssch E !! k) →
              o !! k = Some x → persist_as (type_of (ssch E) k) x = Some s →
              V !! k = Some s).
Proof.
  intros Hl Hao Hti Hida Htt Htok HA Hcur Hf w'. subst w'.
  pose proof Hl as (Hpid & Hsid & Hvid & Hvof & Hvi & Hvo).
  unfold Fork.upsertVersion. cbn [Fork.sget Fork.sfields].
  rewrite Hti, Hao, Htt. cbn [negb andb].
  unfold Fork.create_shadow, bind. cbn [Fork.sget].
  unfold ret. rewrite new_doc_run. unfold toString. rewrite Hida.
  unfold ret. cbn beta iota.
  rewrite mset_declared by (simpl; eauto). cbn [mmodel origin props own].
  set (token := get o (versionIdPath E)) in *.
  set (i := next_oid (bumped w)).
  set (versDoc := MDoc _ _ _ _).
  assert (Hid : get (props versDoc) "_id" = VId (gen w) "_id" i).
  { unfold versDoc, get; simpl. rewrite lookup_insert_ne by done.
    rewrite lookup_union_r; [by rewrite lookup_insert_eq|].
    rewrite map_lookup_filter, lookup_delete_eq. done. }
  assert (Hfresh : shadow w !! i = None) by apply (next_oid_shadow (bumped w)).
  rewrite (save_insert versDoc i); [| done | by rewrite Hid | done | done | quiet].
  cbn [mmodel mcoll msch shadowModel origin props own store].
  rewrite mget_declared by (simpl; eauto). cbn [props]. rewrite Hid.
  cbn [js_toString]. cbn beta iota.
  change (mmodel versDoc) with (shadowModel E).
  cbn [mcoll msch shadowModel store].
  set (q := <[versionIdPath E := token]> {["_id" := VStr a]}).
  set (upd := <[versionIdPath E := VStr i]> o).
  set (w1 := set_store Shadow _ _).
  assert (Hsel : ∃ l, select (msch (primaryModel E)) q
                        (store (mcoll (primaryModel E)) w1) = (a, A) :: l).
  { simpl. destruct (select (psch E) q (primary w)) as [|[j dj] l] eqn:Hs.
    - rewrite select_nil in Hs. specialize (Hs a A HA).
      assert (Hh : matches (psch E) q (the_doc a A) = true)
        by (by eapply guarded_query_hit).
      congruence.
    - apply select_cons in Hs as [Hj Hm].
      eapply guarded_query_matches in Hm as [-> _]; try done.
      rewrite HA in Hj. simplify_eq. eauto. }
  destruct Hsel as [l Hsel].
  rewrite (findOneAndUpdate_hit (primaryModel E) q upd w1 a A l);
    [| by eapply guarded_query_castable | unfold w1; quiet | done].
  cbv zeta. unfold callback. cbn [snd].
  set (A' := delete "_id" _ ∪ the_doc a A).
  assert (HA'k : ∀ k, k ≠ "_id" →
            A' !! k = match persist (psch E) (declared (psch E) upd) !! k with
                      | Some s => Some s
                      | None => A !! k
                      end).
  { intros k Hk. unfold A'. rewrite lookup_union, lookup_delete_ne by done.
    unfold the_doc. rewrite lookup_insert_ne by done. simpl.
    destruct (persist _ _ !! k), (A !! k); done. }
  assert (Hupd : ∀ k, persist (psch E) (declared (psch E) upd) !! k
            = if bool_decide (is_Some (psch E !! k))
              then upd !! k ≫= persist_as (type_of (psch E) k) else None).
  { intros k. rewrite persist_lookup, declared_lookup. by case_bool_decide. }
  exists i, (persist (ssch E) (props versDoc)), A', (gen w1).
  split; [done|]. split; [done|].
  split.
  { rewrite persist_lookup. unfold versDoc; simpl. rewrite lookup_insert_eq.
    simpl. by rewrite (type_of_Some _ _ _ Hvof). }
  split; [done|].
  split.
  { rewrite HA'k, Hupd by done. rewrite bool_decide_eq_true_2 by eauto.
    unfold upd. rewrite lookup_insert_eq. simpl.
    by rewrite (type_of_Some _ _ _ Hvid). }
  split; [done|].
  split.
  { intros k x s Hk1 Hk2 Hd Ho Hs. rewrite HA'k, Hupd by done.
    rewrite bool_decide_eq_true_2 by done.
    unfold upd. rewrite lookup_insert_ne by done. rewrite Ho. simpl.
    by rewrite Hs. }
  split.
  { intros k s Hk1 Hk2 Ho HAk. rewrite HA'k, Hupd by done.
    unfold upd. rewrite lookup_insert_ne by done. rewrite Ho. simpl.
    by case_bool_decide. }
  intros k x s Hk1 Hk2 Hd Ho Hs.
  rewrite persist_lookup. unfold versDoc; simpl.
  rewrite lookup_insert_ne by done.
  erewrite lookup_union_Some_l; [exact Hs|].
  apply map_lookup_filter_Some. split; [by rewrite lookup_delete_ne|].
  split; [done|]. by eapply persist_as_defined.
Qed.

(** An edit of [a1] made against [v1]. *)
Lemma upsert_updates_active_witness :
  linked E0 ∧ append_only E0 = false ∧ primary w0 !! "a1" = Some A1 ∧
  A1 !! versionIdPath E0 = Some (SId "v1") ∧
  ∃ i V A',
    shadow w0 !! i = None ∧
    shadow (Fork.upsertVersion E0 (Fork.Plain edit_B) None w0).2
    = <[i := V]> (shadow w0) ∧
    primary (Fork.upsertVersion E0 (Fork.Plain edit_B) None w0).2
    = <["a1" := A']> (primary w0) ∧
    A' !! "versionId" = Some (SId i) ∧ A' !! "title" = Some (SStr "B") ∧
    A' !! "deck" = Some (SStr "d") ∧ V !! "title" = Some (SStr "B").
Proof.
  split; [exact linked_E0|]. split; [reflexivity|]. split; [reflexivity|].
  split; [reflexivity|].
  destruct (upsert_updates_active E0 w0 edit_B None "a1" "v1" A1 linked_E0 eq_refl)
    as (i & V & A' & g & Hi & Hs & _ & Hp & Hptr & _ & Hset & Hkeep & Hver).
  - vm_compute. reflexivity.
  - vm_compute. reflexivity.
  - vm_compute. reflexivity.
  - vm_compute. reflexivity.
  - reflexivity.
  - reflexivity.
  - reflexivity.
  - exists i, V, A'. split; [exact Hi|]. split; [exact Hs|]. split; [exact Hp|].
    split; [exact Hptr|].
    split; [apply (Hset "title" (VStr "B") (SStr "B"));
            [discriminate|discriminate|vm_compute; eauto
            |vm_compute; reflexivity|reflexivity]|].
    split; [apply Hkeep; [discriminate|discriminate|vm_compute; reflexivity
                         |reflexivity]|].
    apply (Hver "title" (VStr "B") (SStr "B"));
      [discriminate|discriminate|vm_compute; eauto
      |vm_compute; reflexivity|reflexivity].
Defined.

(** X14: [upsertVersion] without an identifier (src/unnamed/part_000
    363-431).  With no query given, the call inserts a new Active
    Document and a new Version Record, linked in both directions, each
    carrying the declared fields the data supplies, and hands back the
    new document with its identifier and pointer. *)
Theorem upsert_creates_entity (E : env) (w : world) (o : obj) :
  linked E → o !! "_id" = None → faults w = [] →
  let w' := (Fork.upsertVersion E (Fork.Plain o) None w).2 in
  ∃ a v A V original,
    primary w !! a = None ∧ shadow w !! v = None ∧
    primary w' = <[a := A]> (primary w) ∧
    shadow w' = <[v := V]> (shadow w) ∧
    A !! versionIdPath E = Some (SId v) ∧
    V !! versionOfIdPath E = Some (SId a) ∧
    calls w' = calls w ++ [(AUndef, ADoc original)] ∧
    cast_oid (mget original "_id") = Some a ∧
    cast_oid (mget original (versionIdPath E)) = Some v ∧
    (∀ k x s, k ≠ "_id" → k ≠ versionIdPath E → is_Some (psch E !! k) →
              o !! k = Some x → persist_as (type_of (psch E) k) x = Some s →
              A !! k = Some s) ∧
    (∀ k x s, k ≠ "_id" → k ≠ versionOfIdPath E →
              is_Some (psch E !! k) → is_Some (ssch E !! k) →
              type_of (ssch E) k = type_of (psch E) k →
              o !! k = Some x → persist_as (type_of (psch E) k) x = Some s →
              V !! k = Some s).
Proof.
  intros Hl Hnoid Hf w'. subst w'.
  pose proof Hl as (Hpid & Hsid & Hvid & Hvof & Hvi & Hvo).
  unfold Fork.upsertVersion. cbn [Fork.sget Fork.sfields].
  assert (Hund : get o "_id" = VUndef) by (unfold get; by rewrite Hnoid).
  rewrite Hund. cbn [truthy negb].
  unfold bind. rewrite new_doc_run.
  set (a := next_oid (bumped w)).
  set (original := MDoc _ _ _ _).
  set (wA := issuing a (bumped w)).
  assert (Hoid : get (props original) "_id" = VId (gen w) "_id" a).
  { unfold original, get; simpl.
    rewrite lookup_union_r; [by rewrite lookup_insert_eq|].
    rewrite map_lookup_filter, Hnoid. done. }
  assert (Hafresh : primary w !! a = None) by apply (next_oid_primary (bumped w)).
  unfold bind. unfold Fork.create_shadow, bind.
  rewrite toObject_run by apply callable_empty.
  unfold bind. rewrite new_doc_run.
  unfold bind. cbn [Fork.sget].
  rewrite mget_declared by (simpl; eauto). rewrite Hoid.
  unfold toString. cbn [js_toString]. unfold ret.
  rewrite mset_declared by (simpl; eauto). cbn [mmodel origin props own].
  set (wB := bumped wA).
  set (v := next_oid (bumped wB)).
  set (input := delete "_id" _).
  set (versDoc := MDoc _ _ _ _).
  assert (Hvid' : get (props versDoc) "_id" = VId (gen wB) "_id" v).
  { unfold versDoc, get; simpl. rewrite lookup_insert_ne by done.
    rewrite lookup_union_r; [by rewrite lookup_insert_eq|].
    unfold input. rewrite map_lookup_filter, lookup_delete_eq. done. }
  assert (Hvfresh : shadow w !! v = None) by apply (next_oid_shadow (bumped wB)).
  rewrite (save_insert versDoc v);
    [| done | by rewrite Hvid' | done | done | unfold wB, wA; quiet].
  change (mmodel versDoc) with (shadowModel E).
  cbn [mcoll msch shadowModel store].
  change (props versDoc) with (props versDoc).
  unfold bind.
  rewrite mget_declared by (simpl; eauto). cbn [props]. rewrite Hvid'.
  unfold toString. cbn [js_toString]. unfold ret.
  rewrite mset_declared by (simpl; eauto). cbn [mmodel origin props own].
  cbn [default].
  rewrite mget_declared by (simpl; eauto). cbn [props].
  assert (Hoid' : get (<[versionIdPath E := VStr v]> (props original)) "_id"
                  = VId (gen w) "_id" a).
  { unfold get. rewrite lookup_insert_ne by done. exact Hoid. }
  rewrite Hoid'.
  set (original' := MDoc (mmodel original) _ _ _).
  set (wD := set_store Shadow _ _).
  unfold bind.
  rewrite (findOneAndUpsert_insert (primaryModel E) _ a);
    [| done | done | by rewrite Hoid' | done | unfold wD, wB, wA; quiet].
  cbv zeta. unfold callback. cbn [snd].
  set (d := persist _ _ ∪ persist _ _).
  assert (Hdk : ∀ k x, k ≠ versionIdPath E → is_Some (psch E !! k) →
            props original !! k = Some x →
            d !! k = persist_as (type_of (psch E) k) x
            ∨ (persist_as (type_of (psch E) k) x = None)).
  { intros k x Hk Hd Hx.
    destruct (persist_as (type_of (psch E) k) x) as [s|] eqn:Hs; [left|by right].
    unfold d. apply lookup_union_Some_l.
    rewrite persist_lookup, declared_lookup.
    change (msch (primaryModel E)) with (psch E).
    rewrite bool_decide_eq_true_2 by done.
    rewrite lookup_insert_ne by done. rewrite Hx. done. }
  exists a, v, (the_doc a d), (persist (ssch E) (props versDoc)), original'.
  split; [done|]. split; [done|]. split; [done|]. split; [done|].
  split.
  { unfold the_doc. rewrite lookup_insert_ne by done.
    unfold d. apply lookup_union_Some_l.
    rewrite persist_lookup, declared_lookup.
    change (msch (primaryModel E)) with (psch E). rewrite Hvid.
    rewrite bool_decide_eq_true_2 by eauto.
    rewrite lookup_insert_eq. simpl. by rewrite (type_of_Some _ _ _ Hvid). }
  split.
  { rewrite persist_lookup. unfold versDoc; simpl. rewrite lookup_insert_eq.
    simpl. by rewrite (type_of_Some _ _ _ Hvof). }
  split; [done|].
  split.
  { rewrite mget_declared by (simpl; eauto). unfold original'. cbn [props].
    by rewrite Hoid'. }
  split.
  { rewrite mget_declared by (simpl; eauto). unfold original', get. cbn [props].
    by rewrite lookup_insert_eq. }
  assert (Hok : ∀ k x s, k ≠ "_id" → is_Some (psch E !! k) → o !! k = Some x →
             persist_as (type_of (psch E) k) x = Some s →
             props original !! k = Some x).
  { intros k x s Hk Hd Ho Hs. unfold original; simpl.
    apply lookup_union_Some_l. apply map_lookup_filter_Some.
    split; [done|]. split; [done|]. by eapply persist_as_defined. }
  split.
  - intros k x s Hk1 Hk2 Hd Ho Hs.
    unfold the_doc. rewrite lookup_insert_ne by done.
    destruct (Hdk k x Hk2 Hd (Hok k x s Hk1 Hd Ho Hs)) as [-> | Hn]; congruence.
  - intros k x s Hk1 Hk2 Hdp Hds Hty Ho Hs.
    rewrite persist_lookup. unfold versDoc; simpl.
    rewrite lookup_insert_ne by done.
    erewrite lookup_union_Some_l; last first.
    { apply map_lookup_filter_Some. split.
      - unfold input. rewrite lookup_delete_ne by done.
        rewrite plain_lookup. rewrite (Hok k x s Hk1 Hdp Ho Hs). simpl.
        rewrite Hs. simpl. reflexivity.
      - split; [done|]. by destruct s. }
    simpl. rewrite Hty. apply fits_roundtrip. by eapply persist_as_fits.
Qed.

(** A first story with title ["B"], through the fork. *)
Lemma upsert_creates_entity_witness :
  linked E0 ∧ title_B !! "_id" = None ∧ faults w0 = [] ∧
  ∃ a v A V,
    primary w0 !! a = None ∧ shadow w0 !! v = None ∧
    primary (Fork.upsertVersion E0 (Fork.Plain title_B) None w0).2
    = <[a := A]> (primary w0) ∧
    shadow (Fork.upsertVersion E0 (Fork.Plain title_B) None w0).2
    = <[v := V]> (shadow w0) ∧
    A !! "versionId" = Some (SId v) ∧ V !! "versionOfId" = Some (SId a) ∧
    A !! "title" = Some (SStr "B") ∧ V !! "title" = Some (SStr "B").
Proof.
  split; [exact linked_E0|]. split; [reflexivity|]. split; [reflexivity|].
  destruct (upsert_creates_entity E0 w0 title_B linked_E0 eq_refl eq_refl)
    as (a & v & A & V & original & Ha & Hv & Hp & Hs & Hptr & Hback & _ & _ & _
        & HA & HV).
  exists a, v, A, V. split; [exact Ha|]. split; [exact Hv|].
  split; [exact Hp|]. split; [exact Hs|]. split; [exact Hptr|].
  split; [exact Hback|].
  split; [apply (HA "title" (VStr "B") (SStr "B"));
          [discriminate|discriminate|vm_compute; eauto|reflexivity|reflexivity]|].
  apply (HV "title" (VStr "B") (SStr "B"));
    [discriminate|discriminate|vm_compute; eauto|vm_compute; eauto
    |reflexivity|reflexivity|reflexivity].
Defined.

(** X15: [upsertVersion] in append-only mode (src/unnamed/part_000
    363-431).  No revision is checked: whatever token the data carries,
    or none, an existing Active Document gets a new Version Record, its
    pointer moves to it and the declared fields of the data are set. *)
Theorem upsert_appends_unchecked (E : env) (w : world) (o : obj)
    (query : option obj) (a : oid) (A : sdoc) :
  linked E → append_only E = true →
  truthy (get o "_id") = true → js_toString (get o "_id") = Some a →
  primary w !! a = Some A → faults w = [] →
  let w' := (Fork.upsertVersion E (Fork.Plain o) query w).2 in
  ∃ i V A' g,
    shadow w !! i = None ∧
    shadow w' = <[i := V]> (shadow w) ∧
    V !! versionOfIdPath E = Some (SId a) ∧
    primary w' = <[a := A']> (primary w) ∧
    A' !! versionIdPath E = Some (SId i) ∧
    calls w' = calls w ++ [(AUndef, ADoc (found (primaryModel E) g a A'))] ∧
    (∀ k x s, k ≠ "_id" → k ≠ versionIdPath E → is_Some (psch E !! k) →
              o !! k = Some x → persist_as (type_of (psch E) k) x = Some s →
              A' !! k = Some s) ∧
    (∀ k s, k ≠ "_id" → k ≠ versionIdPath E → o !! k = None →
            A !! k = Some s → A' !! k = Some s).
Proof.
  intros Hl Hao Hti Hida HA Hf w'. subst w'.
  pose proof Hl as (Hpid & Hsid & Hvid & Hvof & Hvi & Hvo).
  unfold Fork.upsertVersion. cbn [Fork.sget Fork.sfields].
  rewrite Hti, Hao. cbn [negb andb].
  unfold Fork.create_shadow, bind. cbn [Fork.sget].
  unfold ret. rewrite new_doc_run. unfold toString. rewrite Hida.
  unfold ret. cbn beta iota.
  rewrite mset_declared by (simpl; eauto). cbn [mmodel origin props own].
  set (i := next_oid (bumped w)).
  set (versDoc := MDoc _ _ _ _).
  assert (Hid : get (props versDoc) "_id" = VId (gen w) "_id" i).
  { unfold versDoc, get; simpl. rewrite lookup_insert_ne by done.
    rewrite lookup_union_r; [by rewrite lookup_insert_eq|].
    rewrite map_lookup_filter, lookup_delete_eq. done. }
  assert (Hfresh : shadow w !! i = None) by apply (next_oid_shadow (bumped w)).
  rewrite (save_insert versDoc i); [| done | by rewrite Hid | done | done | quiet].
  cbn [mmodel mcoll msch shadowModel origin props own store].
  rewrite mget_declared by (simpl; eauto). cbn [props]. rewrite Hid.
  cbn [js_toString]. cbn beta iota.
  change (mmodel versDoc) with (shadowModel E).
  cbn [mcoll msch shadowModel store].
  set (q := {["_id" := VStr a]} : obj).
  set (upd := <[versionIdPath E := VStr i]> o).
  set (w1 := set_store Shadow _ _).
  assert (Hsel : ∃ l, select (msch (primaryModel E)) q
                        (store (mcoll (primaryModel E)) w1) = (a, A) :: l).
  { simpl. destruct (select (psch E) q (primary w)) as [|[j dj] l] eqn:Hs.
    - rewrite select_nil in Hs. specialize (Hs a A HA).
      assert (Hh : matches (psch E) q (the_doc a A) = true)
        by (by apply (id_query_matches (psch E) (VStr a) a a A Hpid eq_refl)).
      congruence.
    - apply select_cons in Hs as [Hj Hm].
      apply (id_query_matches _ _ a) in Hm as ->; [|done..].
      rewrite HA in Hj. simplify_eq. eauto. }
  destruct Hsel as [l Hsel].
  rewrite (findOneAndUpdate_hit (primaryModel E) q upd w1 a A l);
    [| by eapply castable_pointer | unfold w1; quiet | done].
  cbv zeta. unfold callback. cbn [snd].
  set (A' := delete "_id" _ ∪ the_doc a A).
  assert (HA'k : ∀ k, k ≠ "_id" →
            A' !! k = match persist (psch E) (declared (psch E) upd) !! k with
                      | Some s => Some s
                      | None => A !! k
                      end).
  { intros k Hk. unfold A'. rewrite lookup_union, lookup_delete_ne by done.
    unfold the_doc. rewrite lookup_insert_ne by done. simpl.
    destruct (persist _ _ !! k), (A !! k); done. }
  assert (Hupd : ∀ k, persist (psch E) (declared (psch E) upd) !! k
            = if bool_decide (is_Some (psch E !! k))
              then upd !! k ≫= persist_as (type_of (psch E) k) else None).
  { intros k. rewrite persist_lookup, declared_lookup. by case_bool_decide. }
  exists i, (persist (ssch E) (props versDoc)), A', (gen w1).
  split; [done|]. split; [done|].
  split.
  { rewrite persist_lookup. unfold versDoc; simpl. rewrite lookup_insert_eq.
    simpl. by rewrite (type_of_Some _ _ _ Hvof). }
  split; [done|].
  split.
  { rewrite HA'k, Hupd by done. rewrite bool_decide_eq_true_2 by eauto.
    unfold upd. rewrite lookup_insert_eq. simpl.
    by rewrite (type_of_Some _ _ _ Hvid). }
  split; [done|].
  split.
  { intros k x s Hk1 Hk2 Hd Ho Hs. rewrite HA'k, Hupd by done.
    rewrite bool_decide_eq_true_2 by done.
    unfold upd. rewrite lookup_insert_ne by done. rewrite Ho. simpl.
    by rewrite Hs. }
  intros k s Hk1 Hk2 Ho HAk. rewrite HA'k, Hupd by done.
  unfold upd. rewrite lookup_insert_ne by done. rewrite Ho. simpl.
  by case_bool_decide.
Qed.

(** The stale edit that the checked mode refuses goes through. *)
Lemma upsert_appends_unchecked_witness :
  linked appending ∧ append_only appending = true ∧
  primary w0 !! "a1" = Some A1 ∧
  ∃ i A',
    shadow w0 !! i = None ∧
    primary (Fork.upsertVersion appending
               (Fork.Plain (<["_id" := VStr "a1"]>
                              (<["versionId" := VStr "stale"]> title_B)))
               None w0).2
    = <["a1" := A']> (primary w0) ∧
    A' !! "versionId" = Some (SId i) ∧ A' !! "title" = Some (SStr "B").
Proof.
  split; [exact linked_appending|]. split; [reflexivity|]. split; [reflexivity|].
  destruct (upsert_appends_unchecked appending w0
              (<["_id" := VStr "a1"]> (<["versionId" := VStr "stale"]> title_B))
              None "a1" A1 linked_appending eq_refl)
    as (i & V & A' & g & Hi & _ & _ & Hp & Hptr & _ & Hset & _).
  - vm_compute. reflexivity.
  - vm_compute. reflexivity.
  - reflexivity.
  - reflexivity.
  - exists i, A'. split; [exact Hi|]. split; [exact Hp|]. split; [exact Hptr|].
    apply (Hset "title" (VStr "B") (SStr "B"));
      [discriminate|discriminate|vm_compute; eauto
      |vm_compute; reflexivity|reflexivity].
Defined.

(** X16: calls without a revision (src/unnamed/part_000 410 and 450).
    Outside append-only mode, [upsertVersion] on data with an identifier
    but no version token, and [deleteOriginal] on a query without one,
    are refused before the store is asked anything: no round trip, both
    collections unchanged.  [upsertVersion] passes an Error,
    [deleteOriginal] the bare message string. *)
Theorem revision_is_required (E : env) (w : world) :
  append_only E = false →
  (∀ dataObj query,
     truthy (Fork.sget dataObj "_id") = true →
     truthy (Fork.sget dataObj (versionIdPath E)) = false →
     let w' := (Fork.upsertVersion E dataObj query w).2 in
     refused (AError "Please specify the revision you would like to change.")
             w w' ∧
     trips w' = trips w) ∧
  (∀ queryObj dataObj,
     truthy (get queryObj (versionIdPath E)) = false →
     let w' := (Fork.deleteOriginal E queryObj dataObj w).2 in
     calls w'
     = calls w ++ [(AStr "Please specify the revision you would like to change.",
                    AUndef)] ∧
     primary w' = primary w ∧ shadow w' = shadow w ∧ trips w' = trips w).
Proof.
  intros Hao. split.
  - intros dataObj query Hid Hrev. unfold Fork.upsertVersion.
    rewrite Hid, Hao, Hrev. by repeat split.
  - intros queryObj dataObj Hrev. unfold Fork.deleteOriginal.
    rewrite Hao, Hrev. by repeat split.
Qed.

(** Both refusals at the running example. *)
Lemma revision_is_required_witness :
  append_only E0 = false ∧
  calls (Fork.upsertVersion E0
           (Fork.Plain (<["_id" := VStr "a1"]> title_B)) None w0).2
  = [(AError "Please specify the revision you would like to change.", AUndef)] ∧
  trips (Fork.upsertVersion E0
           (Fork.Plain (<["_id" := VStr "a1"]> title_B)) None w0).2 = [] ∧
  calls (Fork.deleteOriginal E0 {["_id" := VStr "a1"]} None w0).2
  = [(AStr "Please specify the revision you would like to change.", AUndef)].
Proof.
  split; [reflexivity|].
  destruct (revision_is_required E0 w0 eq_refl) as [Hu Hd].
  destruct (Hu (Fork.Plain (<["_id" := VStr "a1"]> title_B)) None)
    as ((Hc & _ & _) & Ht).
  - vm_compute. reflexivity.
  - vm_compute. reflexivity.
  - split; [exact Hc|]. split; [exact Ht|].
    destruct (Hd {["_id" := VStr "a1"]} None) as (Hc' & _).
    + vm_compute. reflexivity.
    + exact Hc'.
Defined.

(** X17: [deleteOriginal] with a delete flag (src/unnamed/part_000
    443-503), outside append-only mode.  When the query selects exactly
    one Active Document and the revision names an existing Version
    Record, the Active Document is removed from the primary collection,
    the Version Record stays with its fields and gets the flag set, and
    the callback is called with no argument. *)
Theorem deleteOriginal_flags_version (E : env) (w : world) (queryObj : obj)
    (dataObj : option obj) (flag : string) (a v : oid) (A V : sdoc) :
  linked E → append_only E = false → deleteFlag E = Some flag →
  truthy (get queryObj (versionIdPath E)) = true →
  cast_oid (get queryObj (versionIdPath E)) = Some v →
  castable (psch E) queryObj = true →
  select (psch E) queryObj (primary w) = [(a, A)] →
  shadow w !! v = Some V → faults w = [] →
  let w' := (Fork.deleteOriginal E queryObj dataObj w).2 in
  ∃ V',
    calls w' = calls w ++ [(AUndef, AUndef)] ∧
    primary w' = delete a (primary w) ∧
    shadow w' = <[v := V']> (shadow w) ∧
    (∀ k, k ≠ flag → k ≠ "_id" → V' !! k = V !! k) ∧
    (∀ f, flag ≠ "_id" → ssch E !! flag = Some f → ftyp f = TOther →
          V' !! flag = Some (SBool true)).
Proof.
  intros Hl Hao Hflag Htt Htok Hcast Hsel HV Hf w'. subst w'.
  pose proof Hl as (Hpid & Hsid & Hvid & Hvof & Hvi & Hvo).
  unfold Fork.deleteOriginal. rewrite Hao, Htt, Hflag. cbn [negb andb].
  unfold bind.
  rewrite (find_one (primaryModel E) queryObj w a A) by done.
  rewrite toObject_run by apply callable_empty.
  cbn [mmodel found]. rewrite plain_found_id.
  unfold toString. cbn [js_toString]. unfold ret.
  set (token := get queryObj (versionIdPath E)) in *.
  set (w2 := bumped (bumped _)).
  assert (Hs2 : ∃ l, select (msch (shadowModel E)) {["_id" := token]}
                       (store (mcoll (shadowModel E)) w2) = (v, V) :: l).
  { simpl. destruct (select (ssch E) _ (shadow w)) as [|[j dj] l] eqn:Hs.
    - rewrite select_nil in Hs. specialize (Hs v V HV).
      rewrite (proj2 (id_query_matches (ssch E) token v v V Hsid Htok) eq_refl) in Hs.
      done.
    - apply select_cons in Hs as [Hj Hm].
      apply (id_query_matches _ _ v) in Hm as ->; [|done..].
      rewrite HV in Hj. simplify_eq. eauto. }
  destruct Hs2 as [l Hs2].
  rewrite (findOneAndUpdate_hit (shadowModel E) _ _ w2 v V l);
    [| by eapply castable_pointer | unfold w2; quiet | done].
  cbv zeta.
  rewrite mget_declared by (simpl; eauto). rewrite found_props_id.
  cbn [js_toString].
  set (V' := delete "_id" _ ∪ the_doc v V).
  set (w3 := bumped (set_store _ _ _)).
  rewrite (removeWhere_id (primaryModel E) a w3) by (done || unfold w3, w2; quiet).
  unfold callback. cbn [snd].
  exists V'. split; [done|]. split; [done|]. split; [done|].
  split.
  - intros k Hk1 Hk2. unfold V'. rewrite lookup_union_r.
    + unfold the_doc. by rewrite lookup_insert_ne.
    + rewrite lookup_delete_ne by done.
      rewrite persist_lookup, declared_lookup.
      case_bool_decide; [|done]. by rewrite lookup_singleton_ne.
  - intros f Hk Hd Ht. unfold V'. apply lookup_union_Some_l.
    rewrite lookup_delete_ne by done.
    rewrite persist_lookup, declared_lookup.
    change (msch (shadowModel E)) with (ssch E). rewrite Hd.
    rewrite bool_decide_eq_true_2 by eauto.
    rewrite lookup_singleton_eq. simpl.
    by rewrite (type_of_Some _ _ _ Hd), Ht.
Qed.

(** Deleting [a1] at revision [v1]. *)
Lemma deleteOriginal_flags_version_witness :
  linked flagged ∧ deleteFlag flagged = Some "deleted" ∧
  select (psch flagged) query_a1 (primary w0) = [("a1", A1)] ∧
  ∃ V',
    calls (Fork.deleteOriginal flagged query_a1 None w0).2 = [(AUndef, AUndef)] ∧
    primary (Fork.deleteOriginal flagged query_a1 None w0).2 = ∅ ∧
    shadow (Fork.deleteOriginal flagged query_a1 None w0).2
    = <["v1" := V']> (shadow w0) ∧
    V' !! "title" = Some (SStr "A") ∧ V' !! "deleted" = Some (SBool true).
Proof.
  assert (Hsel : select (psch flagged) query_a1 (primary w0) = [("a1", A1)])
    by (vm_compute; reflexivity).
  split; [exact linked_flagged|]. split; [reflexivity|]. split; [exact Hsel|].
  destruct (deleteOriginal_flags_version flagged w0 query_a1 None "deleted"
              "a1" "v1" A1 V1 linked_flagged eq_refl eq_refl)
    as (V' & Hc & Hp & Hs & Hkeep & Hflag).
  - vm_compute. reflexivity.
  - vm_compute. reflexivity.
  - vm_compute. reflexivity.
  - exact Hsel.
  - reflexivity.
  - reflexivity.
  - exists V'. split; [exact Hc|].
    split; [rewrite Hp; vm_compute; reflexivity|]. split; [exact Hs|].
    split; [rewrite Hkeep; [reflexivity|discriminate|discriminate]|].
    apply (Hflag (Field TOther None)); [discriminate|reflexivity|reflexivity].
Defined.

(** X18: [deleteOriginal] in append-only mode (src/unnamed/part_000
    443-503).  When the query selects exactly one Active Document, a new
    Version Record is inserted that refers to the entity, carries the
    delete flag and the fields of the Active Document other than its
    identifier, pointer and version key; the Active Document is removed,
    every earlier Version Record stays, and the callback is called with no
    argument. *)
Theorem deleteOriginal_appends_version (E : env) (w : world) (queryObj : obj)
    (dataObj : option obj) (a : oid) (A : sdoc) :
  linked E → append_only E = true →
  deleteFlag E ≠ Some "_id" → default ∅ dataObj !! "_id" = None →
  castable (psch E) queryObj = true →
  select (psch E) queryObj (primary w) = [(a, A)] →
  faults w = [] →
  let extra : obj := default ∅ dataObj in
  let w' := (Fork.deleteOriginal E queryObj dataObj w).2 in
  ∃ i V,
    shadow w !! i = None ∧
    calls w' = calls w ++ [(AUndef, AUndef)] ∧
    primary w' = delete a (primary w) ∧
    shadow w' = <[i := V]> (shadow w) ∧
    (extra !! versionOfIdPath E = None →
     versionOfIdPath E ≠ versionIdPath E →
     versionKey E ≠ Some (versionOfIdPath E) →
     deleteFlag E ≠ Some (versionOfIdPath E) →
     V !! versionOfIdPath E = Some (SId a)) ∧
    (∀ flag f, deleteFlag E = Some flag → extra !! flag = None →
               ssch E !! flag = Some f → ftyp f = TOther →
               V !! flag = Some (SBool true)) ∧
    (∀ k s, A !! k = Some s →
            k ≠ "_id" → k ≠ versionIdPath E → k ≠ versionOfIdPath E →
            versionKey E ≠ Some k → deleteFlag E ≠ Some k →
            extra !! k = None →
            is_Some (ssch E !! k) →
            type_of (ssch E) k = type_of (psch E) k →
            fits (type_of (psch E) k) s = true →
            V !! k = Some s).
Proof.
  intros Hl Hao Hflagid Hxid Hcast Hsel Hf extra w'. subst w'.
  pose proof Hl as (Hpid & Hsid & Hvid & Hvof & Hvi & Hvo).
  unfold Fork.deleteOriginal. rewrite Hao. cbn [negb andb].
  unfold bind.
  rewrite (find_one (primaryModel E) queryObj w a A) by done.
  rewrite toObject_run by apply callable_empty.
  cbn [mmodel found]. rewrite plain_found_id.
  unfold toString. cbn [js_toString]. unfold ret.
  set (w2 := bumped (bumped _)).
  set (o0 := plain _ _ _).
  set (o1 := <[versionOfIdPath E := VStr a]> o0).
  set (o3 := delete (versionIdPath E) (delete "_id" o1)).
  set (o4 := match versionKey E with Some k => delete k o3 | None => o3 end).
  set (o5 := match deleteFlag E with
             | Some f => <[f := VBool true]> o4
             | None => o4
             end).
  set (o6 := match dataObj with Some d => d ∪ o5 | None => o5 end).
  assert (Ho6 : ∀ k, extra !! k = None → o6 !! k = o5 !! k).
  { intros k Hk. unfold o6, extra in *. destruct dataObj as [d|]; [|done].
    simpl in Hk. by rewrite lookup_union_r. }
  assert (Ho5 : ∀ k, deleteFlag E ≠ Some k → o5 !! k = o4 !! k).
  { intros k Hk. unfold o5. destruct (deleteFlag E) as [f|]; [|done].
    rewrite lookup_insert_ne; [done|congruence]. }
  assert (Ho4 : ∀ k, versionKey E ≠ Some k → o4 !! k = o3 !! k).
  { intros k Hk. unfold o4. destruct (versionKey E) as [f|]; [|done].
    rewrite lookup_delete_ne; [done|congruence]. }
  assert (Ho4n : ∀ k, o3 !! k = None → o4 !! k = None).
  { intros k Hk. unfold o4. destruct (versionKey E) as [f|]; [|done].
    destruct (decide (f = k)) as [->|Hne];
      [by rewrite lookup_delete_eq|by rewrite lookup_delete_ne]. }
  assert (Hno_id : o6 !! "_id" = None).
  { rewrite Ho6, Ho5 by done. apply Ho4n. unfold o3.
    rewrite lookup_delete_ne by done. by rewrite lookup_delete_eq. }
  rewrite new_doc_run.
  set (i := next_oid (bumped w2)).
  set (versDoc := MDoc _ _ _ _).
  assert (Hid : get (props versDoc) "_id" = VId (gen w2) "_id" i).
  { unfold versDoc, get; simpl.
    rewrite lookup_union_r; [by rewrite lookup_insert_eq|].
    rewrite map_lookup_filter, Hno_id. done. }
  assert (Hfresh : shadow w !! i = None) by apply (next_oid_shadow (bumped w2)).
  rewrite (save_insert versDoc i);
    [| done | by rewrite Hid | done | done | unfold w2; quiet].
  change (mmodel versDoc) with (shadowModel E).
  cbn [mcoll msch shadowModel store].
  rewrite mget_declared by (simpl; eauto). rewrite found_props_id.
  cbn [js_toString].
  set (w3 := set_store Shadow _ _).
  rewrite (removeWhere_id (primaryModel E) a w3) by (done || unfold w3, w2; quiet).
  unfold callback. cbn [snd].
  assert (Hsupplied : ∀ k x s, is_Some (ssch E !! k) → o6 !! k = Some x →
            persist_as (type_of (ssch E) k) x = Some s →
            persist (ssch E) (props versDoc) !! k = Some s).
  { intros k x s Hd Ho Hs. rewrite persist_lookup. unfold versDoc; simpl.
    erewrite lookup_union_Some_l; [exact Hs|].
    apply map_lookup_filter_Some. split; [done|]. split; [done|].
    by eapply persist_as_defined. }
  exists i, (persist (ssch E) (props versDoc)).
  split; [done|]. split; [done|]. split; [done|]. split; [done|].
  split; [|split].
  - intros Hx Hne Hvk Hfl.
    apply (Hsupplied _ (VStr a)); [eauto| |by rewrite (type_of_Some _ _ _ Hvof)].
    rewrite Ho6, Ho5, Ho4 by done. unfold o3, o1.
    rewrite !lookup_delete_ne by done. by rewrite lookup_insert_eq.
  - intros flag f Hfl Hx Hd Ht.
    apply (Hsupplied _ (VBool true)); [eauto| |by rewrite (type_of_Some _ _ _ Hd), Ht].
    rewrite Ho6 by done. unfold o5. rewrite Hfl. by rewrite lookup_insert_eq.
  - intros k s HAk Hk1 Hk2 Hk3 Hk4 Hk5 Hx Hd Hty Hfit.
    apply (Hsupplied _ (of_sval (N.succ (gen w)) k s)); [done| |].
    + rewrite Ho6, Ho5, Ho4 by done. unfold o3, o1.
      rewrite !lookup_delete_ne by done. rewrite lookup_insert_ne by done.
      unfold o0. rewrite plain_lookup. simpl. rewrite load_lookup.
      unfold the_doc. rewrite lookup_insert_ne by done. rewrite HAk. simpl.
      change (msch (primaryModel E)) with (psch E).
      by rewrite fits_roundtrip.
    + rewrite Hty. by apply fits_roundtrip.
Qed.

(** Deleting [a1] in append-only mode. *)
Lemma deleteOriginal_appends_version_witness :
  linked appending ∧ append_only appending = true ∧
  select (psch appending) query_a1 (primary w0) = [("a1", A1)] ∧
  ∃ i V,
    shadow w0 !! i = None ∧
    calls (Fork.deleteOriginal appending query_a1 None w0).2
    = [(AUndef, AUndef)] ∧
    primary (Fork.deleteOriginal appending query_a1 None w0).2 = ∅ ∧
    shadow (Fork.deleteOriginal appending query_a1 None w0).2
    = <[i := V]> (shadow w0) ∧
    V !! "versionOfId" = Some (SId "a1") ∧
    V !! "deleted" = Some (SBool true) ∧ V !! "title" = Some (SStr "A").
Proof.
  assert (Hsel : select (psch appending) query_a1 (primary w0) = [("a1", A1)])
    by (vm_compute; reflexivity).
  split; [exact linked_appending|]. split; [reflexivity|]. split; [exact Hsel|].
  destruct (deleteOriginal_appends_version appending w0 query_a1 None "a1" A1
              linked_appending eq_refl)
    as (i & V & Hi & Hc & Hp & Hs & Hback & Hflag & Hcarry).
  - discriminate.
  - reflexivity.
  - vm_compute. reflexivity.
  - exact Hsel.
  - reflexivity.
  - exists i, V. split; [exact Hi|]. split; [exact Hc|].
    split; [rewrite Hp; vm_compute; reflexivity|]. split; [exact Hs|].
    split; [apply Hback; [reflexivity|discriminate|discriminate|discriminate]|].
    split; [apply (Hflag "deleted" (Field TOther None));
            [reflexivity|reflexivity|reflexivity|reflexivity]|].
    apply Hcarry;
      [reflexivity|discriminate|discriminate|discriminate|discriminate
      |discriminate|reflexivity|vm_compute; eauto|reflexivity|reflexivity].
Defined.

(** X19: what [deleteOriginal] refuses (src/unnamed/part_000 443-503).
    When the query selects no Active Document, or more than one, or
    exactly one while neither append-only mode nor a delete flag is
    configured, the caller gets the corresponding error and both
    collections are as before. *)
Theorem deleteOriginal_refusals (E : env) (w : world) (queryObj : obj)
    (dataObj : option obj) :
  append_only E = true ∨ truthy (get queryObj (versionIdPath E)) = true →
  castable (psch E) queryObj = true → faults w = [] →
  let w' := (Fork.deleteOriginal E queryObj dataObj w).2 in
  (select (psch E) queryObj (primary w) = [] →
     refused (AError ("Your copy of the data set with revision "
                      +:+ js_concat (get queryObj (versionIdPath E))
                      +:+ " is not up-to-date, please refresh first, then try again."))
             w w') ∧
  (∀ p q l, select (psch E) queryObj (primary w) = p :: q :: l →
     refused (AError "Cannot delete more than one document.") w w') ∧
  (∀ a A, select (psch E) queryObj (primary w) = [(a, A)] →
     append_only E = false → deleteFlag E = None →
     refused (AError "Do not know what to do, both append_only and delete_flag are not set.")
             w w').
Proof.
  intros Hmode Hcast Hf w'. subst w'.
  assert (Hguard : negb (append_only E)
                   && negb (truthy (get queryObj (versionIdPath E))) = false).
  { destruct Hmode as [-> | ->]; [done|]. by rewrite andb_false_r. }
  unfold Fork.deleteOriginal. rewrite Hguard. unfold bind.
  rewrite (find_run (primaryModel E)) by done.
  cbn [primaryModel mcoll msch store].
  split; [|split].
  - intros ->. by repeat split.
  - intros p q l ->. by repeat split.
  - intros a A -> Hao Hfl. cbn [fmap list_fmap fst snd].
    rewrite toObject_run by apply callable_empty.
    cbn [mmodel found]. rewrite plain_found_id.
    unfold toString. cbn [js_toString]. unfold ret.
    rewrite Hao, Hfl. by repeat split.
Qed.

(** The plain configuration cannot delete [a1]. *)
Lemma deleteOriginal_refusals_witness :
  truthy (get query_a1 (versionIdPath E0)) = true ∧
  castable (psch E0) query_a1 = true ∧ faults w0 = [] ∧
  refused (AError "Do not know what to do, both append_only and delete_flag are not set.")
          w0 (Fork.deleteOriginal E0 query_a1 None w0).2.
Proof.
  assert (Ht : truthy (get query_a1 (versionIdPath E0)) = true)
    by (vm_compute; reflexivity).
  assert (Hc : castable (psch E0) query_a1 = true) by (vm_compute; reflexivity).
  split; [exact Ht|]. split; [exact Hc|]. split; [reflexivity|].
  destruct (deleteOriginal_refusals E0 w0 query_a1 None (or_intror Ht) Hc eq_refl)
    as (_ & _ & H3).
  apply (H3 "a1" A1); [vm_compute; reflexivity|reflexivity|reflexivity].
Defined.





(** X22: the route [item_read] (src/unnamed/part_002 29-43).  For a
    version identifier that does not exist the handler reads
    [result.versionOfId] of [null] and throws, answering nothing.  For a
    version of an existing entity it renders the version with the
    listing of the entity, which contains that version.  It never
    changes the store. *)
Theorem item_read_answers (E : env) (w : world) (vid : string) :
  linked E → versionOfIdPath E = "versionOfId" → faults w = [] →
  (shadow w !! vid = None →
     (Routes.item_read E vid w).1
     = Threw (TypeError "Cannot read property 'versionOfId' of null")) ∧
  (∀ V a A, shadow w !! vid = Some V →
            V !! "versionOfId" = Some (SId a) → primary w !! a = Some A →
     ∃ item listing,
       (Routes.item_read E vid w).1
       = Done (Routes.Render "story" item listing vid) ∧
       origin item = Some vid ∧
       js_toString (activeId listing) = pointer E a A ∧
       ∃ d, d ∈ docs listing ∧ origin d = Some vid) ∧
  untouched w (Routes.item_read E vid w).2.
Proof.
  intros Hl Hname Hf.
  pose proof Hl as (Hpid & Hsid & Hvid & Hvof & Hvi & Hvo).
  split; [|split; [|apply item_read_untouched]].
  - intros Hn. unfold Routes.item_read, Index.findVersionById, bind.
    by rewrite (findById_miss (shadowModel E) (VStr vid) vid w eq_refl Hf Hn).
  - intros V a A HV Hb HA.
    unfold Routes.item_read, Index.findVersionById, bind.
    rewrite (findById_hit (shadowModel E) (VStr vid) vid V w eq_refl Hf HV).
    rewrite <- Hname in Hb |- *.
    rewrite (found_backref E _ _ _ a Hl Hb).
    set (w1 := bumped _).
    assert (Hf1 : faults w1 = []) by (unfold w1; quiet).
    destruct (index_lists_versions E Hl w1 (VId (gen w) (versionOfIdPath E) a) a
                eq_refl Hf1) as [_ Hlist].
    destruct (Hlist A HA) as (active & l & Hrun & Hact & _ & Hmem).
    destruct (Index.findVersions E _ w1) as [r w2]. simpl in Hrun. subst r.
    simpl. eexists _, _. split; [reflexivity|]. split; [done|].
    split; [done|].
    exists (found (shadowModel E) (N.succ (gen w1)) vid V).
    split; [|done]. simpl.
    apply (list_elem_of_fmap_2 (λ p : oid * sdoc, found (shadowModel E) _ p.1 p.2)
             l (vid, V)).
    apply Hmem. done.
Qed.

(** An unknown version and [v1]. *)
Lemma item_read_answers_witness :
  linked E0 ∧ versionOfIdPath E0 = "versionOfId" ∧ faults w0 = [] ∧
  (Routes.item_read E0 "nope" w0).1
  = Threw (TypeError "Cannot read property 'versionOfId' of null") ∧
  ∃ item listing,
    (Routes.item_read E0 "v1" w0).1
    = Done (Routes.Render "story" item listing "v1") ∧
    origin item = Some "v1".
Proof.
  split; [exact linked_E0|]. split; [reflexivity|]. split; [reflexivity|].
  destruct (item_read_answers E0 w0 "nope" linked_E0 eq_refl eq_refl)
    as (Hmiss & _).
  split; [exact (Hmiss eq_refl)|].
  destruct (item_read_answers E0 w0 "v1" linked_E0 eq_refl eq_refl)
    as (_ & Hhit & _).
  destruct (Hhit V1 "a1" A1 eq_refl eq_refl eq_refl)
    as (item & listing & Hrun & Ho & _).
  exists item, listing. split; [exact Hrun|exact Ho].
Defined.

(** X23: the route [item_delete] (src/unnamed/part_002 68-76).  Whatever
    the identifier and whatever the store does, the handler sends exactly
    one response, [{success: b}]; [b] is true exactly when the Version
    Record existed and has been removed, and otherwise the shadow
    collection is as before. *)
Theorem item_delete_answers (E : env) (vid : string) (w : world) :
  let w' := (Routes.item_delete E vid w).1.2 in
  ∃ b : bool,
    (Routes.item_delete E vid w).2 = [Done (Routes.Send (AStatus b))] ∧
    primary w' = primary w ∧
    if b then is_Some (shadow w !! vid) ∧ shadow w' = delete vid (shadow w)
    else shadow w' = shadow w.
Proof.
  unfold Routes.item_delete. cbn [fst snd].
  destruct (index_reports_deletion E (VStr vid) w)
    as (_ & Hp & err & result & Hc & Hcase).
  rewrite (answers_one _ _ _ _ Hc). cbn [fst snd].
  unfold Routes.on_delete.
  destruct result as [| | | |[|]|];
    try (destruct Hcase as ([e ->] & [=] & _); fail);
    try (destruct Hcase as ([e ->] & _ & Hs); exists false; by simpl).
  - destruct Hcase as (-> & h & [= <-] & Hin & Hs). exists true. by simpl.
  - destruct Hcase as (-> & Hs). exists false. by simpl.
Qed.

(** X24: the route [item_activate] (src/unnamed/part_002 78-86).  A
    version that does not exist, or whose entity does not, is answered
    [{success: false}] with the store unchanged; a successful activation
    is answered with a redirect to the entity at the activated
    version. *)
Theorem item_activate_answers (E : env) (w : world) (vid : string) :
  well_formed E → versionIdPath E = "versionId" → faults w = [] →
  let w' := (Routes.item_activate E vid w).1.2 in
  let sent := (Routes.item_activate E vid w).2 in
  (shadow w !! vid = None →
     sent = [Done (Routes.Send (AStatus false))] ∧
     primary w' = primary w ∧ shadow w' = shadow w) ∧
  (∀ V a, shadow w !! vid = Some V →
          V !! versionOfIdPath E = Some (SId a) → primary w !! a = None →
     sent = [Done (Routes.Send (AStatus false))] ∧
     primary w' = primary w ∧ shadow w' = shadow w) ∧
  (∀ V a A, shadow w !! vid = Some V → conforms (ssch E) V →
            V !! versionOfIdPath E = Some (SId a) → primary w !! a = Some A →
     sent = [Done (Routes.Redirect ("/story/" +:+ a +:+ "/v/" +:+ vid))] ∧
     ∃ A', primary w' !! a = Some A' ∧
           A' !! "versionId" = Some (SId vid)).
Proof.
  intros Hwf Hname Hf w' sent. subst w' sent.
  pose proof Hwf as (Hl & _).
  pose proof Hl as (Hpid & Hsid & Hvid & Hvof & Hvi & Hvo).
  unfold Routes.item_activate. cbn [fst snd].
  destruct (activateVersion_runs E w (VStr vid) vid Hwf eq_refl Hf)
    as (Hmiss & Hdang & Hact).
  split; [|split].
  - intros Hn. destruct (Hmiss Hn) as (Hc & Hp & Hs).
    by rewrite (answers_one _ _ _ _ Hc).
  - intros V a HV Hb Ha. destruct (Hdang V a HV Hb Ha) as (Hc & Hp & Hs).
    by rewrite (answers_one _ _ _ _ Hc).
  - intros V a A HV Hconf Hb Ha.
    destruct (Hact V a A HV Hconf Hb Ha)
      as (saved & A' & Hc & Ho & HA' & Hp & _ & Hptr & _).
    destruct (activateVersion_delivered E (VStr vid) w saved Hl Hc)
      as (Hmodel & i & Ho' & Hi & Hv).
    assert (i = a) as -> by congruence.
    rewrite (answers_one _ _ _ _ Hc). cbn [fst snd].
    unfold Routes.on_activate. cbn [Routes.given Routes.is_null orb Routes.field_of].
    rewrite !mget_declared by (rewrite Hmodel; simpl; rewrite <- ?Hname; eauto).
    rewrite <- Hname, Hv. rewrite (js_concat_oid _ a Hi). simpl.
    split; [done|]. exists A'. split; [by rewrite Hp, lookup_insert_eq|done].
Qed.

(** Activating [v1], and an unknown version. *)
Lemma item_activate_answers_witness :
  well_formed E0 ∧ versionIdPath E0 = "versionId" ∧ faults w0 = [] ∧
  (Routes.item_activate E0 "v1" w0).2
  = [Done (Routes.Redirect "/story/a1/v/v1")] ∧
  (Routes.item_activate E0 "nope" w0).2
  = [Done (Routes.Send (AStatus false))].
Proof.
  split; [exact well_formed_E0|]. split; [reflexivity|]. split; [reflexivity|].
  destruct (item_activate_answers E0 w0 "v1" well_formed_E0 eq_refl eq_refl)
    as (_ & _ & Hact).
  destruct (Hact V1 "a1" A1 eq_refl conforms_V1 eq_refl eq_refl) as [Hsent _].
  split; [exact Hsent|].
  destruct (item_activate_answers E0 w0 "nope" well_formed_E0 eq_refl eq_refl)
    as (Hmiss & _).
  destruct (Hmiss eq_refl) as [Hsent' _]. exact Hsent'.
Defined.

(** X25: [upsertVersion] when the update of the Active Document fails
    (src/unnamed/part_000 408-430), outside append-only mode.  The
    Version Record the call has just written is removed again: the caller
    gets the store's error, both collections are as before, and the store
    has seen the write, the failed update and the removal. *)
Theorem upsert_undoes_version (E : env) (w : world) (o : obj)
    (query : option obj) (a t : oid) (e : string) (fs : list (option string)) :
  linked E → append_only E = false →
  truthy (get o "_id") = true → js_toString (get o "_id") = Some a →
  truthy (get o (versionIdPath E)) = true →
  cast_oid (get o (versionIdPath E)) = Some t →
  faults w = None :: Some e :: fs → default None (head fs) = None →
  let w' := (Fork.upsertVersion E (Fork.Plain o) query w).2 in
  refused (AError e) w w' ∧
  ∃ i, shadow w !! i = None ∧
       trips w' = trips w ++ [Write Shadow i; Modify Primary; Remove Shadow i].
Proof.
  intros Hl Hao Hti Hida Htt Htok Hf Hfs w'. subst w'.
  pose proof Hl as (Hpid & Hsid & Hvid & Hvof & Hvi & Hvo).
  unfold Fork.upsertVersion. cbn [Fork.sget Fork.sfields].
  rewrite Hti, Hao, Htt. cbn [negb andb].
  unfold Fork.create_shadow, bind. cbn [Fork.sget].
  unfold ret. rewrite new_doc_run. unfold toString. rewrite Hida.
  unfold ret. cbn beta iota.
  rewrite mset_declared by (simpl; eauto). cbn [mmodel origin props own].
  set (token := get o (versionIdPath E)) in *.
  set (i := next_oid (bumped w)).
  set (versDoc := MDoc _ _ _ _).
  assert (Hid : get (props versDoc) "_id" = VId (gen w) "_id" i).
  { unfold versDoc, get; simpl. rewrite lookup_insert_ne by done.
    rewrite lookup_union_r; [by rewrite lookup_insert_eq|].
    rewrite map_lookup_filter, lookup_delete_eq. done. }
  assert (Hfresh : shadow w !! i = None) by apply (next_oid_shadow (bumped w)).
  rewrite (save_next versDoc i);
    [| done | by rewrite Hid | by right | simpl; by rewrite Hf].
  cbn [mmodel mcoll msch shadowModel origin props own store].
  rewrite mget_declared by (simpl; eauto). cbn [props]. rewrite Hid.
  cbn [js_toString]. cbn beta iota.
  change (mmodel versDoc) with (shadowModel E).
  cbn [mcoll msch shadowModel store].
  set (q := <[versionIdPath E := token]> {["_id" := VStr a]}).
  rewrite (findOneAndUpdate_fails (primaryModel E) q _ _ e fs);
    [| by eapply guarded_query_castable | simpl; by rewrite Hf].
  unfold Fork.discard, bind.
  rewrite (remove_next _ i);
    [| done | cbn [props]; by rewrite Hid | simpl; by rewrite Hf].
  simpl. rewrite delete_insert_id by done.
  split; [by repeat split|].
  exists i. split; [done|]. by rewrite <- !app_assoc.
Qed.

(** The edit of [a1] when the update fails. *)
Lemma upsert_undoes_version_witness :
  linked E0 ∧ append_only E0 = false ∧
  faults w_second_fails = [None; Some "update failed"] ∧
  refused (AError "update failed") w_second_fails
    (Fork.upsertVersion E0 (Fork.Plain edit_B) None w_second_fails).2.
Proof.
  split; [exact linked_E0|]. split; [reflexivity|]. split; [reflexivity|].
  destruct (upsert_undoes_version E0 w_second_fails edit_B None "a1" "v1"
              "update failed" [] linked_E0 eq_refl)
    as [Href _].
  - vm_compute. reflexivity.
  - vm_compute. reflexivity.
  - vm_compute. reflexivity.
  - vm_compute. reflexivity.
  - reflexivity.
  - reflexivity.
  - exact Href.
Defined.

(** X26: [saveVersion] when the Active Document cannot be saved
    (src/index.js 270-350).  Editing the active version writes the
    Version Record first; when the save of the Active Document then
    fails, the caller gets the store's error, the primary collection is
    as before, and the Version Record stays edited: nothing is taken
    back, and the Active Document no longer shows its active version. *)
Theorem failed_promotion_keeps_edit (E : env) (w : world) (body : obj)
    (idv ida : value) (v a : oid) (A V : sdoc) (e : string)
    (fs : list (option string)) :
  well_formed E → versionOfIdPath E = "versionOfId" →
  body !! "_id" = None → body !! "save" = None → body !! "toObject" = None →
  cast_oid idv = Some v → cast_oid ida = Some a → truthy ida = true →
  shadow w !! v = Some V → conforms (ssch E) V →
  primary w !! a = Some A → pointer E a A = Some v →
  faults w = None :: None :: None :: Some e :: fs →
  let w' := (Index.saveVersion E (DataObj body idv ida) w).2 in
  ∃ V',
    calls w' = calls w ++ [(AError e, AUndef)] ∧
    primary w' = primary w ∧
    shadow w' = <[v := V']> (shadow w) ∧
    trips w'
    = trips w ++ [Find Shadow; Write Shadow v; Find Primary; Write Primary a] ∧
    (∀ k x s, k ≠ "versionOfId" → is_Some (ssch E !! k) → body !! k = Some x →
              persist_as (type_of (ssch E) k) x = Some s → V' !! k = Some s).
Proof.
  intros Hwf Hname Hid Hsave HtoObj Hcv Hca Htr HV Hconf HA Hp Hf w'. subst w'.
  pose proof Hwf as (Hl & Hnov & Hmir).
  pose proof Hl as (Hpid & Hsid & Hvid & Hvof & Hvi & Hvo).
  set (d := DataObj body idv ida).
  set (versDoc :=
    mset (assign_all (data d) (found (shadowModel E) (gen w) v V)) "versionOfId"
         (if truthy (versionOfId d) then versionOfId d else VNull)).
  assert (Hdecl : is_Some (msch (mmodel (assign_all (data d)
                     (found (shadowModel E) (gen w) v V))) !! "versionOfId")).
  { simpl. rewrite <- Hname. eauto. }
  assert (Hown : ∀ name, body !! name = None → own versDoc !! name = None).
  { intros name Hn. unfold versDoc. rewrite mset_declared by done.
    simpl. rewrite right_id by apply _.
    rewrite undeclared_lookup. by case_bool_decide. }
  assert (Hg : strict_eq (VStr "function") (get (data d) "toObject") = false).
  { simpl. unfold get. by rewrite HtoObj. }
  assert (Hprops : props versDoc
            = <["versionOfId" := ida]>
                (declared (ssch E) body ∪ load (gen w) (the_doc v V))).
  { unfold versDoc. rewrite mset_declared by done. simpl. by rewrite Htr. }
  assert (Hm : mmodel versDoc = shadowModel E)
    by (unfold versDoc; by rewrite mset_model).
  assert (Ho : origin versDoc = Some v)
    by (unfold versDoc; by rewrite mset_origin).
  assert (Hpid' : get (props versDoc) "_id" = VId (gen w) "_id" v).
  { rewrite Hprops. unfold get. rewrite lookup_insert_ne by done.
    rewrite lookup_union_r.
    - rewrite load_lookup. unfold the_doc. by rewrite lookup_insert_eq.
    - rewrite declared_lookup, Hid. by case_bool_decide. }
  assert (Hkeys : ∀ k, is_Some (props versDoc !! k) → is_Some (ssch E !! k)).
  { intros k [x Hk]. rewrite Hprops in Hk.
    destruct (decide (k = "versionOfId")) as [->|Hne]; [rewrite <- Hname; eauto|].
    rewrite lookup_insert_ne in Hk by done.
    apply lookup_union_Some_raw in Hk as [Hk|[_ Hk]].
    - rewrite declared_lookup in Hk. by case_bool_decide.
    - rewrite load_lookup in Hk.
      destruct (the_doc v V !! k) as [s|] eqn:Hs; [|done].
      by destruct (conforms_the_doc _ v V Hsid Hconf k s Hs). }
  (* the Version Record is found, edited and saved *)
  unfold Index.saveVersion, Index.saveSnapshot, bind. cbn [versionId data d].
  rewrite (findById_hit_next (shadowModel E) idv v V w Hcv)
    by (done || by rewrite Hf).
  rewrite snapshot_run by done. unfold ret.
  change (versionOfId d) with ida in versDoc.
  fold d. change (data d) with body in versDoc.
  cbn [versionOfId].
  change (mset (assign_all body (found (shadowModel E) (gen w) v V)) "versionOfId"
               (if truthy ida then ida else VNull)) with versDoc.
  rewrite (save_next versDoc v);
    [| apply callable_None, Hown; done | by rewrite Hpid' | by left
     | simpl; by rewrite Hf].
  rewrite Hm. cbn [mcoll msch shadowModel store].
  set (vs := MDoc (shadowModel E) (Some v) (props versDoc) (own versDoc)).
  set (w1 := set_store Shadow _ _).
  assert (Hf1 : faults w1 = None :: Some e :: fs)
    by (unfold w1; simpl; by rewrite Hf).
  (* the Active Document is found and the copy made *)
  unfold Index.onVersionSaved, bind.
  rewrite toObject_run by (apply callable_None, Hown; done).
  rewrite (findById_hit_next (primaryModel E) ida a A)
    by (done || (cbn [bumped faults]; by rewrite Hf1)).
  unfold ret.
  set (original := found (primaryModel E) _ a A).
  assert (Hjs : js_toString (mget original (versionIdPath E)) = Some v).
  { unfold original. rewrite found_pointer by eauto. done. }
  assert (Hvsid : mget vs "_id" = VId (gen w) "_id" v).
  { rewrite mget_declared by (simpl; eauto). exact Hpid'. }
  unfold Index.promote, bind, toString. rewrite Hjs. simpl.
  rewrite Hvsid. simpl. rewrite bool_decide_eq_false_2 by (by intros ?).
  rewrite toObject_run by (apply callable_None, Hown; done).
  set (w2 := bumped (bumped _)).
  set (versDocObj := plain _ _ _).
  set (original' := assign_all _ original).
  assert (Hcop : ∀ k x, copied E None versDocObj !! k = Some x →
                        is_Some (psch E !! k)).
  { intros k x. apply copied_declared; [done|].
    apply conforms_persist. exact Hkeys. }
  assert (Hcall : callable (own original') "save" = true).
  { apply callable_None. unfold original'. simpl.
    rewrite right_id by apply _.
    rewrite undeclared_lookup. case_bool_decide as Hs; [|done].
    destruct (copied E None versDocObj !! "save") eqn:Hcs; [|done].
    destruct (Hcop _ _ Hcs) as [? ?]. congruence. }
  assert (Hoid : cast_oid (get (props original') "_id") = Some a).
  { unfold original', get. simpl. rewrite lookup_union_r.
    - rewrite load_lookup. unfold the_doc. by rewrite lookup_insert_eq.
    - rewrite declared_lookup, copied_lookup.
      rewrite (bool_decide_eq_false_2 (_ ∧ _)) by (by intros [? ?]).
      by case_bool_decide. }
  rewrite (save_fails original' a w2 e fs Hcall Hoid)
    by (unfold w2; cbn [bumped ticked faults]; by rewrite Hf1).
  unfold callback. cbn [snd].
  exists (persist (ssch E) (props versDoc)).
  split; [done|]. split; [done|]. split; [done|].
  split; [simpl; by rewrite <- !app_assoc|].
  intros k x s Hk Hd Hb Hs.
  rewrite persist_lookup, Hprops, lookup_insert_ne by done.
  erewrite lookup_union_Some_l; [exact Hs|].
  rewrite declared_lookup. by rewrite bool_decide_eq_true_2.
Qed.

(** The edit of [v1] when the fourth round trip fails. *)
Lemma failed_promotion_keeps_edit_witness :
  well_formed E0 ∧
  faults w_fourth_fails = [None; None; None; Some "save failed"] ∧
  ∃ V',
    calls (Index.saveVersion E0 (DataObj title_B (VStr "v1") (VStr "a1"))
             w_fourth_fails).2
    = [(AError "save failed", AUndef)] ∧
    primary (Index.saveVersion E0 (DataObj title_B (VStr "v1") (VStr "a1"))
               w_fourth_fails).2
    = {["a1" := A1]} ∧
    shadow (Index.saveVersion E0 (DataObj title_B (VStr "v1") (VStr "a1"))
              w_fourth_fails).2
    = <["v1" := V']> {["v1" := V1]} ∧
    V' !! "title" = Some (SStr "B") ∧ A1 !! "title" = Some (SStr "A").
Proof.
  split; [exact well_formed_E0|]. split; [reflexivity|].
  destruct (failed_promotion_keeps_edit E0 w_fourth_fails title_B (VStr "v1")
              (VStr "a1") "v1" "a1" A1 V1 "save failed" [] well_formed_E0
              eq_refl eq_refl eq_refl eq_refl eq_refl eq_refl eq_refl eq_refl
              conforms_V1 eq_refl)
    as (V' & Hc & Hp & Hs & _ & Hset).
  - vm_compute. reflexivity.
  - reflexivity.
  - exists V'. split; [exact Hc|]. split; [exact Hp|]. split; [exact Hs|].
    split; [|reflexivity].
    apply (Hset "title" (VStr "B") (SStr "B"));
      [discriminate|vm_compute; eauto|reflexivity|reflexivity].
Defined.
